(** * JsonDB and its browser simulator: a shallow embedding

    The repository ships one storage engine twice:

    - [JsonDB] -- the PHP class [JsonDB] (kept as the string constant
      [PHP_SOURCE_CODE], the variant announced as "Strictly PHP 5.3
      Compatible"): one JSON file per collection, read, filtered and rewritten
      as a whole;
    - [DbSimulator] -- the TypeScript class of [services/dbSimulator.ts], the
      same operations over an in-memory state mirrored into [localStorage].

    Both are embedded below as executable functions.  PHP and JavaScript
    values are dynamically typed, so each engine gets its own value type and
    the conversions its operators perform (PHP's loose comparison, JavaScript's
    abstract relational comparison, and so on).  What the language runtimes
    compute by large algorithms that the engines merely call -- number
    parsing and printing, the regular-expression matcher -- is taken through
    a runtime interface ([php_runtime], [js_runtime]); everything is proved
    for every runtime, and a small concrete runtime serves the worked
    examples.

    Bounds of the model.  Numbers are 64-bit integers or finite floats;
    the infinities and NaN, which no JSON text denotes, are outside the
    value types.  Strings are byte strings; [json_encode] and
    [json_decode] give up on a string that is not UTF-8 and on nesting
    beyond their default depth, 512, and [writeCollection] then writes
    the empty text.  A write to a file can fail before the file is
    opened, which leaves it as it was, or after, which leaves it cut
    short.  A table has fewer entries than there are ints, so that the
    loops which renumber a table never run out of indices; appending
    to a table read from a file can.  The values handed to the simulator
    and those it stores are what [JSON.parse] and object literals over
    such values give, and undefined; a document of the simulator is a
    plain object, looked up through its own properties and then through
    [Object.prototype].  [localStorage] takes a text or refuses it.  The
    constructors of the two classes, [createCollection], [drop],
    [listCollections] and the request handler [api.php] follow the two
    engines; the upload branch of the handler works on a directory of
    its own and enters by its outcome only. *)

From Stdlib Require Import ZArith QArith List String Ascii Bool Lia.
From Stdlib Require Import DecimalString DecimalPos DecimalZ.
Import ListNotations.

Local Open Scope string_scope.
Local Open Scope Z_scope.

Set Implicit Arguments.
Set Warnings "-register-all".

(* ================================================================== *)
(** * Outcomes of a call: a value or a thrown exception *)

Inductive exn : Type :=
| Exception (msg : string)      (* PHP [Exception], JavaScript [Error] *)
| TypeError (msg : string)
| SyntaxError (msg : string)
| Fatal (msg : string)          (* PHP [\Error], which is no [Exception] *)
| QuotaExceededError (msg : string).   (* the [DOMException] of [setItem] *)

Inductive result (A : Type) : Type :=
| Ok (a : A)
| Throw (e : exn).

Arguments Ok {A} a.
Arguments Throw {A} e.

Definition bind {A B : Type} (r : result A) (k : A -> result B) : result B :=
  match r with
  | Ok a => k a
  | Throw e => Throw e
  end.

Notation "x <- r ;; k" := (bind r (fun x => k))
  (at level 61, r at next level, right associativity).

Definition returns {A : Type} (r : result A) : Prop := exists a, r = Ok a.

(* ================================================================== *)
(** * Characters and strings *)

Definition code (c : ascii) : nat := nat_of_ascii c.

Definition in_range (lo hi : nat) (c : ascii) : bool :=
  (Nat.leb lo (code c) && Nat.leb (code c) hi)%bool.

Definition is_digit (c : ascii) : bool := in_range 48 57 c.
Definition is_upper (c : ascii) : bool := in_range 65 90 c.
Definition is_lower (c : ascii) : bool := in_range 97 122 c.
Definition is_alnum (c : ascii) : bool := (is_digit c || is_upper c || is_lower c)%bool.

(** C's [isspace] in the "C" locale: space, \t, \n, \v, \f, \r. *)
Definition is_space (c : ascii) : bool :=
  (Nat.eqb (code c) 32 || in_range 9 13 c)%bool.

Definition to_lower (c : ascii) : ascii :=
  if is_upper c then ascii_of_nat (code c + 32) else c.

Fixpoint lowercase (s : string) : string :=
  match s with
  | EmptyString => EmptyString
  | String c r => String (to_lower c) (lowercase r)
  end.

Fixpoint string_filter (p : ascii -> bool) (s : string) : string :=
  match s with
  | EmptyString => EmptyString
  | String c r => if p c then String c (string_filter p r) else string_filter p r
  end.

Fixpoint string_forallb (p : ascii -> bool) (s : string) : bool :=
  match s with
  | EmptyString => true
  | String c r => (p c && string_forallb p r)%bool
  end.

Fixpoint skip_while (p : ascii -> bool) (s : string) : string :=
  match s with
  | EmptyString => EmptyString
  | String c r => if p c then skip_while p r else s
  end.

(** [contains sub s]: [sub] occurs in [s] as a contiguous substring. *)
Fixpoint contains (sub s : string) : bool :=
  (String.prefix sub s ||
   match s with
   | EmptyString => false
   | String _ r => contains sub r
   end)%bool.

(** Well-formed UTF-8 (RFC 3629): shortest forms only, no surrogates,
    nothing beyond U+10FFFF. *)
Definition continuation (c : ascii) : bool := in_range 128 191 c.

Fixpoint valid_utf8 (s : string) : bool :=
  match s with
  | EmptyString => true
  | String a r =>
      if in_range 0 127 a then valid_utf8 r
      else if in_range 194 223 a then
        match r with
        | String b r1 => (continuation b && valid_utf8 r1)%bool
        | _ => false
        end
      else if in_range 224 239 a then
        match r with
        | String b (String c r2) =>
            ((if Nat.eqb (code a) 224 then in_range 160 191 b
              else if Nat.eqb (code a) 237 then in_range 128 159 b
              else continuation b)
             && continuation c && valid_utf8 r2)%bool
        | _ => false
        end
      else if in_range 240 244 a then
        match r with
        | String b (String c (String d r3)) =>
            ((if Nat.eqb (code a) 240 then in_range 144 191 b
              else if Nat.eqb (code a) 244 then in_range 128 143 b
              else continuation b)
             && continuation c && continuation d && valid_utf8 r3)%bool
        | _ => false
        end
      else false
  end.

(** No two elements of the list are the same, for a boolean notion of
    sameness. *)
Fixpoint distinct {A : Type} (same : A -> A -> bool) (l : list A) : bool :=
  match l with
  | [] => true
  | x :: r => (forallb (fun y => negb (same x y)) r && distinct same r)%bool
  end.

(** Decimal rendering of an integer, as PHP's [(string)$int] and
    JavaScript's [String(n)] print an integral number. *)
Definition Z_to_string (z : Z) : string := NilZero.string_of_int (Z.to_int z).

(** Comparison of rationals as a boolean order. *)
Definition Qltb (x y : Q) : bool := match Qcompare x y with Lt => true | _ => false end.

(* ================================================================== *)
(** * The PHP engine: values and the operators [JsonDB] applies to them *)

Module JsonDB.

(** ** PHP values

    A PHP array is an ordered table from integer or string keys to values;
    [json_decode($text, true)] produces nothing but the six kinds below.
    Numbers are a PHP int ([VLong]) or a finite float ([VDouble], carried by
    the rational it denotes). *)

Inductive key : Type :=
| KInt (i : Z)
| KStr (s : string).

Inductive zval : Type :=
| VNull
| VBool (b : bool)
| VLong (i : Z)
| VDouble (d : Q)
| VString (s : string)
| VArray (a : list (key * zval)).

Definition array : Type := list (key * zval).

Inductive num : Type :=
| NLong (i : Z)
| NDouble (d : Q).

Definition key_eqb (k1 k2 : key) : bool :=
  match k1, k2 with
  | KInt a, KInt b => a =? b
  | KStr a, KStr b => String.eqb a b
  | _, _ => false
  end.

Definition zval_of_key (k : key) : zval :=
  match k with
  | KInt i => VLong i
  | KStr s => VString s
  end.

Definition is_array (v : zval) : bool :=
  match v with
  | VArray _ => true
  | _ => false
  end.

(** ** Array primitives *)

(** [$a[$k]] on an existing key. *)
Fixpoint array_get (a : array) (k : key) : option zval :=
  match a with
  | [] => None
  | (k', v) :: r => if key_eqb k' k then Some v else array_get r k
  end.

(** [$a[$k] = $v]: overwrite in place, or append a new entry. *)
Fixpoint array_set (a : array) (k : key) (v : zval) : array :=
  match a with
  | [] => [(k, v)]
  | (k', v') :: r =>
      if key_eqb k' k then (k', v) :: r else (k', v') :: array_set r k v
  end.

(** [unset($a[$k])]. *)
Fixpoint array_unset (a : array) (k : key) : array :=
  match a with
  | [] => []
  | (k', v') :: r =>
      if key_eqb k' k then r else (k', v') :: array_unset r k
  end.

(** The int range, of a 64-bit build. *)
Definition PHP_INT_MAX : Z := 2 ^ 63 - 1.
Definition PHP_INT_MIN : Z := - 2 ^ 63.

(** The largest integer key of an array, if it has one. *)
Fixpoint largest_index (a : array) : option Z :=
  match a with
  | [] => None
  | (KInt i, _) :: r =>
      match largest_index r with
      | Some m => Some (Z.max i m)
      | None => Some i
      end
  | (KStr _, _) :: r => largest_index r
  end.

Definition array_values (a : array) : list zval := map snd a.

(** [count($a)]. *)
Definition count (a : array) : Z := Z.of_nat (List.length a).

(** The array [array_values] would return: the values re-keyed 0, 1, ... *)
Fixpoint list_array_from (i : Z) (vs : list zval) : array :=
  match vs with
  | [] => []
  | v :: r => (KInt i, v) :: list_array_from (i + 1) r
  end.

Definition list_array (vs : list zval) : array := list_array_from 0 vs.

(** A PHP array is a list, in the sense of [json_encode] and
    [array_is_list], when its keys are exactly 0, 1, ..., n-1 in order. *)
Fixpoint is_list_from (i : Z) (a : array) : bool :=
  match a with
  | [] => true
  | (KInt j, _) :: r => ((j =? i) && is_list_from (i + 1) r)%bool
  | (KStr _, _) :: _ => false
  end.

Definition is_list (a : array) : bool := is_list_from 0 a.

(** ** Identity: the operator [===] *)

Fixpoint identical (a b : zval) {struct a} : bool :=
  match a, b with
  | VNull, VNull => true
  | VBool x, VBool y => Bool.eqb x y
  | VLong x, VLong y => x =? y
  | VDouble x, VDouble y => Qeq_bool x y
  | VString x, VString y => String.eqb x y
  | VArray xs, VArray ys =>
      (fix entries (xs ys : list (key * zval)) {struct xs} : bool :=
         match xs, ys with
         | [], [] => true
         | (k1, v1) :: xs', (k2, v2) :: ys' =>
             (key_eqb k1 k2 && identical v1 v2 && entries xs' ys')%bool
         | _, _ => false
         end) xs ys
  | _, _ => false
  end.

(** ** Conversion to bool: [zval_is_true] *)

Definition zval_is_true (v : zval) : bool :=
  match v with
  | VNull => false
  | VBool b => b
  | VLong i => negb (i =? 0)
  | VDouble d => negb (Qeq_bool d 0)
  | VString s => negb (String.eqb s "" || String.eqb s "0")
  | VArray a => match a with [] => false | _ => true end
  end.

(** [empty($v)]. *)
Definition empty (v : zval) : bool := negb (zval_is_true v).

(** ** JSON documents

    The syntax tree of a JSON text.  A number token is an integer literal
    that fits a PHP int ([JInt]) or anything else ([JReal], carried by the
    float it reads as). *)

Inductive json : Type :=
| JNull
| JBool (b : bool)
| JInt (i : Z)
| JReal (d : Q)
| JString (s : string)
| JArray (items : list json)
| JObject (members : list (string * json)).

(** ** What the language runtime supplies *)

Class php_runtime : Type := {
  (** string/number juggling of PHP 8 and later ([true]) or of PHP 5 and 7 *)
  php8 : bool;
  (** PHP 8.3 and later: [$a[] = ...] goes on from a negative largest
      key, where earlier versions start again at 0 *)
  append_after_negative : bool;
  (** [is_numeric_string]: the number a wholly numeric string denotes; an
      integer literal outside the int range denotes a float *)
  numeric_value : string -> option num;
  (** for such a literal, the side it leaves the int range on: 1 above,
      -1 below; 0 for every other string *)
  numeric_overflow : string -> Z;
  (** PHP 5/7 only: the number a non-numeric string is cast to (its
      numeric prefix, else 0) *)
  legacy_number : string -> num;
  (** [(string)$float] *)
  double_to_string : Q -> string;
  (** PCRE on a pattern body, its modifier letters and a subject:
      [Some true] on a match, [Some false] on none, [None] when the body
      does not compile, a modifier is unknown or matching aborts *)
  pcre_match : string -> string -> string -> option bool;
  (** [isset($s[$k]) ? $s[$k] : null] on a string [$s]: the one-character
      string at the offset, if there is one *)
  string_offset : string -> key -> option string;
  (** [$x[$k] = $v] and [unset($x[$k])] on an [$x] that is neither
      an array nor null *)
  assign_dim_scalar : zval -> key -> zval -> result zval;
  unset_dim_scalar : zval -> key -> result zval;
  (** the number token [json_encode] prints for a float: an integer token
      when the float has no fraction and prints without exponent *)
  json_of_double : Q -> json
}.

Section Operators.

Context {rt : php_runtime}.

(** [is_numeric_string] starts by skipping white space and a sign and
    gives up unless a digit, or a dot and a digit, follows. *)
Definition numeric_lead (s : string) : bool :=
  let s1 := skip_while is_space s in
  let s2 := match s1 with
            | String c r =>
                if (Ascii.eqb c "-" || Ascii.eqb c "+")%bool then r else s1
            | EmptyString => s1
            end in
  match s2 with
  | String c r =>
      (is_digit c ||
       (Ascii.eqb c "." &&
        match r with String c' _ => is_digit c' | EmptyString => false end))%bool
  | EmptyString => false
  end.

Definition is_numeric_string (s : string) : option num :=
  if numeric_lead s then numeric_value s else None.

(** The C conversion [(double) i] of an int: exact up to 53 bits, beyond
    that rounded to 53 significant bits, a tie going to the even
    significand. *)
Definition long_to_double (i : Z) : Q :=
  let m := Z.abs i in
  let excess := Z.log2 m - 52 in
  if excess <=? 0 then inject_Z i
  else
    let ulp := 2 ^ excess in
    let q := m / ulp in
    let r := m mod ulp in
    let half := ulp / 2 in
    let q' := if r <? half then q
              else if half <? r then q + 1
              else if Z.even q then q else q + 1 in
    inject_Z (Z.sgn i * q' * ulp).

(** Two ints are compared as ints; an int against a float is cast to
    float first. *)
Definition compare_num (x y : num) : comparison :=
  match x, y with
  | NLong a, NLong b => a ?= b
  | NLong a, NDouble d => Qcompare (long_to_double a) d
  | NDouble d, NLong b => Qcompare d (long_to_double b)
  | NDouble c, NDouble d => Qcompare c d
  end.

Definition bool_compare (x y : bool) : comparison :=
  match x, y with
  | false, true => Lt
  | true, false => Gt
  | _, _ => Eq
  end.

(** [zendi_smart_str_compare]: two numeric strings are compared as
    numbers, except that two integer literals which left the int range on
    the same side and read as the same float are compared as strings, and
    that an int is on the near side of such a literal. *)
Definition compare_strings (s1 s2 : string) : comparison :=
  match is_numeric_string s1, is_numeric_string s2 with
  | Some n1, Some n2 =>
      let o1 := numeric_overflow s1 in
      let o2 := numeric_overflow s2 in
      match n1, n2 with
      | NLong a, NLong b => a ?= b
      | NDouble c, NDouble d =>
          if (negb (o1 =? 0) && (o1 =? o2) && Qeq_bool c d)%bool
          then String.compare s1 s2
          else Qcompare c d
      | NLong a, NDouble d =>
          if negb (o2 =? 0) then (if 0 <? o2 then Lt else Gt)
          else Qcompare (long_to_double a) d
      | NDouble c, NLong b =>
          if negb (o1 =? 0) then (if 0 <? o1 then Gt else Lt)
          else Qcompare c (long_to_double b)
      end
  | _, _ => String.compare s1 s2
  end.

Definition num_to_string (n : num) : string :=
  match n with
  | NLong i => Z_to_string i
  | NDouble d => double_to_string d
  end.

(** A number against a string: numerically when the string is numeric;
    otherwise PHP 8 compares the number's text with the string, and
    PHP 5/7 cast the string to a number. *)
Definition compare_num_string (n : num) (s : string) : comparison :=
  match is_numeric_string s with
  | Some m => compare_num n m
  | None =>
      if php8 then String.compare (num_to_string n) s
      else compare_num n (legacy_number s)
  end.

(** [zend_compare]: the three-way comparison behind [==], [<=] and [>=]. *)
Fixpoint zend_compare (a b : zval) {struct a} : comparison :=
  match a, b with
  | VLong x, VLong y => x ?= y
  | VLong x, VDouble y => compare_num (NLong x) (NDouble y)
  | VDouble x, VLong y => compare_num (NDouble x) (NLong y)
  | VDouble x, VDouble y => compare_num (NDouble x) (NDouble y)
  | VArray xs, VArray ys =>
      match Nat.compare (List.length xs) (List.length ys) with
      | Eq =>
          (fix entries (xs : list (key * zval)) {struct xs} : comparison :=
             match xs with
             | [] => Eq
             | (k, v) :: xs' =>
                 match array_get ys k with
                 | None => Gt                       (* uncomparable *)
                 | Some w =>
                     match zend_compare v w with
                     | Eq => entries xs'
                     | c => c
                     end
                 end
             end) xs
      | c => c
      end
  | VNull, VNull => Eq
  | VNull, VString s => if String.eqb s "" then Eq else Lt
  | VString s, VNull => if String.eqb s "" then Eq else Gt
  | VString s1, VString s2 => compare_strings s1 s2
  | VLong x, VString s => compare_num_string (NLong x) s
  | VDouble x, VString s => compare_num_string (NDouble x) s
  | VString s, VLong y => CompOpp (compare_num_string (NLong y) s)
  | VString s, VDouble y => CompOpp (compare_num_string (NDouble y) s)
  | (VNull | VBool _), _ => bool_compare (zval_is_true a) (zval_is_true b)
  | _, (VNull | VBool _) => bool_compare (zval_is_true a) (zval_is_true b)
  | VArray _, _ => Gt
  | _, VArray _ => Lt
  end.

(** [$a == $b]. *)
Definition loose_eq (a b : zval) : bool :=
  match zend_compare a b with Eq => true | _ => false end.

(** [$a <= $b]. *)
Definition loose_le (a b : zval) : bool :=
  match zend_compare a b with Gt => false | _ => true end.

(** [$a >= $b], which PHP compiles as [$b <= $a]. *)
Definition loose_ge (a b : zval) : bool := loose_le b a.

(** [in_array($needle, $haystack)] without the strict flag. *)
Definition in_array (needle : zval) (haystack : array) : bool :=
  existsb (fun e => loose_eq needle (snd e)) haystack.

(** ** Appending

    [$a[] = $v] stores [$v] under the next free index of the array: one
    past the largest integer key it has had, 0 when it has had none, and
    before PHP 8.3 never below 0.  The arrays this program appends to
    come from [json_decode] or from appending, nothing was ever removed
    from them, so the index is read off the keys. *)
Definition next_index (a : array) : Z :=
  match largest_index a with
  | None => 0
  | Some m => if append_after_negative then m + 1 else Z.max 0 (m + 1)
  end.

(** [$a[] = $v]; [None] when the largest key is [PHP_INT_MAX]: "Cannot
    add element to the array as the next element is already occupied". *)
Definition array_push (a : array) (v : zval) : option array :=
  match largest_index a with
  | Some m =>
      if m =? PHP_INT_MAX then None
      else Some (a ++ [(KInt (next_index a), v)])%list
  | None => Some (a ++ [(KInt (next_index a), v)])%list
  end.

(** [(string)$v]; an array becomes the text "Array". *)
Definition strval (v : zval) : string :=
  match v with
  | VNull => ""
  | VBool true => "1"
  | VBool false => ""
  | VLong i => Z_to_string i
  | VDouble d => double_to_string d
  | VString s => s
  | VArray _ => "Array"
  end.

(** ** [preg_match]

    PHP wraps PCRE: the pattern text must carry its own delimiters and
    modifiers, as in [/example/i].  The wrapper (the C function
    [pcre_get_compiled_regex_cache]) skips leading white space, takes the
    next character as the delimiter, refuses an alphanumeric one or a
    backslash, looks for the closing delimiter and hands the body and the
    modifier letters to PCRE. *)

Definition closing_delimiter (c : ascii) : ascii :=
  if Ascii.eqb c "(" then ")"%char
  else if Ascii.eqb c "[" then "]"%char
  else if Ascii.eqb c "{" then "}"%char
  else if Ascii.eqb c "<" then ">"%char
  else c.

Definition cons_fst (c : ascii) (r : option (string * string)) : option (string * string) :=
  match r with
  | Some (body, rest) => Some (String c body, rest)
  | None => None
  end.

(** Body up to the first unescaped [d], and what follows it. *)
Fixpoint scan_plain (d : ascii) (p : string) : option (string * string) :=
  match p with
  | EmptyString => None
  | String c r =>
      if Ascii.eqb c "\" then
        match r with
        | String c' r' => cons_fst c (cons_fst c' (scan_plain d r'))
        | EmptyString => None
        end
      else if Ascii.eqb c d then Some (EmptyString, r)
      else cons_fst c (scan_plain d r)
  end.

(** The same for bracket-style delimiters, which nest. *)
Fixpoint scan_bracket (o c : ascii) (brackets : nat) (p : string)
  : option (string * string) :=
  match p with
  | EmptyString => None
  | String x r =>
      if Ascii.eqb x "\" then
        match r with
        | String x' r' => cons_fst x (cons_fst x' (scan_bracket o c brackets r'))
        | EmptyString => None
        end
      else if Ascii.eqb x c then
        match brackets with
        | S (S n) => cons_fst x (scan_bracket o c (S n) r)
        | _ => Some (EmptyString, r)
        end
      else if Ascii.eqb x o then cons_fst x (scan_bracket o c (S brackets) r)
      else cons_fst x (scan_bracket o c brackets r)
  end.

(** The pattern split into body and modifiers; [None] stands for the
    warnings "Empty regular expression", "Delimiter must not be
    alphanumeric or backslash" and "No ending delimiter found". *)
Definition split_pattern (regex : string) : option (string * string) :=
  match skip_while is_space regex with
  | EmptyString => None
  | String delimiter p =>
      if (is_alnum delimiter || Ascii.eqb delimiter "\"
          || Nat.eqb (code delimiter) 0)%bool then None
      else
        let end_delimiter := closing_delimiter delimiter in
        if Ascii.eqb delimiter end_delimiter
        then scan_plain delimiter p
        else scan_bracket delimiter end_delimiter 1 p
  end.

(** [@preg_match($pattern, $subject)]: int 1, int 0, or [false] for any
    failure.  A pattern that is not a string is converted to one; an array
    cannot be, which is a warning and [false] before PHP 8 and a thrown
    [TypeError] from PHP 8 on ([@] silences warnings, not exceptions). *)
Definition preg_match (pattern : zval) (subject : string) : result zval :=
  match pattern with
  | VArray _ =>
      if php8
      then Throw (TypeError "preg_match(): Argument #1 ($pattern) must be of type string, array given")
      else Ok (VBool false)
  | _ =>
      match split_pattern (strval pattern) with
      | None => Ok (VBool false)
      | Some (body, modifiers) =>
          match pcre_match body modifiers subject with
          | Some true => Ok (VLong 1)
          | Some false => Ok (VLong 0)
          | None => Ok (VBool false)
          end
      end
  end.

(** ** [JsonDB::match] *)

(** [isset($doc[$key]) ? $doc[$key] : null]. *)
Definition field_value (doc : zval) (k : key) : zval :=
  match doc with
  | VArray a =>
      match array_get a k with
      | Some v => v
      | None => VNull
      end
  | VString s =>
      match string_offset s k with
      | Some c => VString c
      | None => VNull
      end
  | _ => VNull
  end.

(** [$op == '$eq'] and its siblings. *)
Definition op_is (op : key) (name : string) : bool :=
  loose_eq (zval_of_key op) (VString name).

(** The inner [foreach ($criteria as $op => $expected)].  [Ok false] is
    the [return false] of a failing clause; [Ok true] means the loop ran
    to its end. *)
Fixpoint match_criteria (value : zval) (criteria : array) : result bool :=
  match criteria with
  | [] => Ok true
  | (op, expected) :: rest =>
      if op_is op "$eq" then
        if negb (identical value expected) then Ok false
        else match_criteria value rest
      else if op_is op "$ne" then
        if identical value expected then Ok false
        else match_criteria value rest
      else if op_is op "$gt" then
        if loose_le value expected then Ok false
        else match_criteria value rest
      else if op_is op "$lt" then
        if loose_ge value expected then Ok false
        else match_criteria value rest
      else if op_is op "$regex" then
        r <- preg_match expected (strval value) ;;
        if negb (zval_is_true r) then Ok false
        else match_criteria value rest
      else if op_is op "$in" then
        if (negb (is_array expected)
            || negb (match expected with
                     | VArray haystack => in_array value haystack
                     | _ => false
                     end))%bool
        then Ok false
        else match_criteria value rest
      else match_criteria value rest
  end.

(** The outer [foreach ($query as $key => $criteria)]. *)
Fixpoint match_entries (doc : zval) (query : array) : result bool :=
  match query with
  | [] => Ok true
  | (k, criteria) :: rest =>
      let value := field_value doc k in
      match criteria with
      | VArray ops =>
          ok <- match_criteria value ops ;;
          if ok then match_entries doc rest else Ok false
      | _ =>
          if negb (identical value criteria) then Ok false
          else match_entries doc rest
      end
  end.

(** [match($doc, $query)].  [foreach] over something that is not an array
    is a warning and no iteration. *)
Definition match_ (doc query : zval) : result bool :=
  match query with
  | VArray q => match_entries doc q
  | _ => Ok true
  end.

End Operators.

(** ** [json_decode($text, true)] and [json_encode] *)

Section Codec.

Context {rt : php_runtime}.

(** A member name that spells a canonical decimal integer within the int
    range becomes an integer key, as in every PHP array. *)
Definition key_of_string (s : string) : key :=
  match NilZero.int_of_string s with
  | Some d =>
      let i := Z.of_int d in
      if (String.eqb (Z_to_string i) s
          && (PHP_INT_MIN <=? i) && (i <=? PHP_INT_MAX))%bool
      then KInt i else KStr s
  | None => KStr s
  end.

Definition string_of_key (k : key) : string :=
  match k with
  | KInt i => Z_to_string i
  | KStr s => s
  end.

(** The parser takes a string token, or a member name, only if it is
    UTF-8, and arrays and objects nested to the depth 512 at most, the
    default of [json_decode] and of [json_encode]. *)
Definition JSON_DEPTH : nat := 512.

Fixpoint json_strings (j : json) : bool :=
  match j with
  | JString s => valid_utf8 s
  | JArray items =>
      (fix all (items : list json) {struct items} : bool :=
         match items with
         | [] => true
         | x :: r => (json_strings x && all r)%bool
         end) items
  | JObject members =>
      (fix all (ms : list (string * json)) {struct ms} : bool :=
         match ms with
         | [] => true
         | (name, x) :: r => (valid_utf8 name && json_strings x && all r)%bool
         end) members
  | _ => true
  end.

Fixpoint json_depth (j : json) : nat :=
  match j with
  | JArray items =>
      S ((fix deepest (items : list json) {struct items} : nat :=
            match items with
            | [] => O
            | x :: r => Nat.max (json_depth x) (deepest r)
            end) items)
  | JObject members =>
      S ((fix deepest (ms : list (string * json)) {struct ms} : nat :=
            match ms with
            | [] => O
            | (_, x) :: r => Nat.max (json_depth x) (deepest r)
            end) members)
  | _ => O
  end.

(** The value a syntax tree is decoded to; objects and arrays both
    become PHP arrays. *)
Fixpoint decoded (j : json) : zval :=
  match j with
  | JNull => VNull
  | JBool b => VBool b
  | JInt i => VLong i
  | JReal d => VDouble d
  | JString s => VString s
  | JArray items => VArray (list_array (map decoded items))
  | JObject members =>
      VArray
        ((fix fields (acc : array) (ms : list (string * json)) {struct ms} : array :=
            match ms with
            | [] => acc
            | (name, j') :: r =>
                fields (array_set acc (key_of_string name) (decoded j')) r
            end) [] members)
  end.

(** [json_decode($text, true)] on a JSON text: null when the parser gives
    up on a string or on the depth. *)
Definition json_decode (j : json) : zval :=
  if (json_strings j && Nat.leb (json_depth j) JSON_DEPTH)%bool then decoded j
  else VNull.

(** [json_encode] gives up on a string, or a string key, that is not
    UTF-8 and on nesting beyond the depth, and returns [false]; so it
    does from PHP 5.5 on, which is what is modelled. *)
Definition key_utf8 (k : key) : bool :=
  match k with
  | KStr name => valid_utf8 name
  | KInt _ => true
  end.

Fixpoint zval_strings (v : zval) : bool :=
  match v with
  | VString s => valid_utf8 s
  | VArray a =>
      (fix all (a : list (key * zval)) {struct a} : bool :=
         match a with
         | [] => true
         | (k, v') :: r => (key_utf8 k && zval_strings v' && all r)%bool
         end) a
  | _ => true
  end.

Fixpoint zval_depth (v : zval) : nat :=
  match v with
  | VArray a =>
      S ((fix deepest (a : list (key * zval)) {struct a} : nat :=
            match a with
            | [] => O
            | (_, v') :: r => Nat.max (zval_depth v') (deepest r)
            end) a)
  | _ => O
  end.

(** What a value is encoded as: a PHP array that is a list as a JSON
    array, any other as a JSON object. *)
Fixpoint encoded (v : zval) : json :=
  match v with
  | VNull => JNull
  | VBool b => JBool b
  | VLong i => JInt i
  | VDouble d => json_of_double d
  | VString s => JString s
  | VArray a =>
      if is_list a
      then JArray
             ((fix items (a : list (key * zval)) {struct a} : list json :=
                 match a with
                 | [] => []
                 | (_, v') :: r => encoded v' :: items r
                 end) a)
      else JObject
             ((fix members (a : list (key * zval)) {struct a} : list (string * json) :=
                 match a with
                 | [] => []
                 | (k, v') :: r => (string_of_key k, encoded v') :: members r
                 end) a)
  end.

(** [json_encode($v)]; [None] is PHP's [false]. *)
Definition json_encode (v : zval) : option json :=
  if (zval_strings v && Nat.leb (zval_depth v) JSON_DEPTH)%bool then Some (encoded v)
  else None.

End Codec.

(** ** The file system under the database directory *)

(** What a file holds: a JSON text, given by its syntax tree, or bytes
    that are no JSON text at all. *)
Inductive content : Type :=
| Text (j : json)
| Garbage (raw : string).

Record file : Type := {
  readable : bool;          (* [file_get_contents] succeeds *)
  body : content
}.

Record filesystem : Type := {
  files : string -> option file;     (* [None]: no such file *)
  writable : string -> bool;         (* [file_put_contents] succeeds *)
  (** when it does not: [None] if the file cannot even be opened, else
      the bytes a short write leaves in the file, which was truncated on
      opening *)
  torn : string -> option string;
  last_error : string -> option string   (* [error_get_last()['message']] *)
}.

(** The string [file_put_contents] is handed by [writeCollection]: the
    text, or [false], which is written as the empty string. *)
Definition written (j : option json) : content :=
  match j with
  | Some t => Text t
  | None => Garbage ""
  end.

(** The file system with [text] in the file at [path]. *)
Definition with_file (fs : filesystem) (path : string) (text : content) : filesystem :=
  {| files := fun p =>
                if String.eqb p path
                then Some {| readable := match files fs path with
                                         | Some f => readable f
                                         | None => true
                                         end;
                             body := text |}
                else files fs p;
     writable := writable fs;
     torn := torn fs;
     last_error := last_error fs |}.

Definition file_exists (fs : filesystem) (path : string) : bool :=
  match files fs path with
  | Some _ => true
  | None => false
  end.

(** [@file_get_contents($path)]; [None] is PHP's [false]. *)
Definition file_get_contents (fs : filesystem) (path : string) : option content :=
  match files fs path with
  | Some f => if readable f then Some (body f) else None
  | None => None
  end.

(** [@file_put_contents($path, $text) !== false], and the file system the
    call leaves.  The file is opened for writing, which truncates it, and
    the call returns [false] when the file cannot be opened or when fewer
    bytes were written than the text has; writing the empty string cannot
    fall short. *)
Definition file_put_contents (fs : filesystem) (path : string) (text : content)
  : bool * filesystem :=
  if writable fs path then (true, with_file fs path text)
  else
    match torn fs path with
    | None => (false, fs)
    | Some leftover =>
        match text with
        | Garbage EmptyString => (true, with_file fs path text)
        | _ => (false, with_file fs path (Garbage leftover))
        end
    end.

(** ** The class [JsonDB] *)

Section Engine.

Context {rt : php_runtime}.

(** [$this->dbPath], the database directory with its trailing separator. *)
Variable dbPath : string.

Definition safe_char (c : ascii) : bool := (is_alnum c || Ascii.eqb c "_")%bool.

Definition getFilePath (collection : string) : result string :=
  let safeName := string_filter safe_char collection in
  if empty (VString safeName) then Throw (Exception "Invalid collection name")
  else Ok (dbPath ++ safeName ++ ".json").

Definition decode_content (c : content) : zval :=
  match c with
  | Text j => json_decode j
  | Garbage _ => VNull
  end.

Definition readCollection (fs : filesystem) (collection : string) : result array :=
  file <- getFilePath collection ;;
  if negb (file_exists fs file) then Ok []
  else
    match file_get_contents fs file with
    | None => Ok []
    | Some content =>
        match decode_content content with
        | VArray data => Ok data
        | _ => Ok []
        end
    end.

Definition writeCollection (fs : filesystem) (collection : string) (data : array)
  : result unit * filesystem :=
  match getFilePath collection with
  | Throw e => (Throw e, fs)
  | Ok file =>
      let json := written (json_encode (VArray data)) in
      match file_put_contents fs file json with
      | (false, fs') =>
          let msg := match last_error fs file with
                     | Some m => m
                     | None => "Write failed"
                     end in
          (Throw (Exception ("Failed to write to data store: " ++ msg)), fs')
      | (true, fs') => (Ok tt, fs')
      end
  end.

(** [isset($a[$k])]: the key exists and its value is not null. *)
Definition isset (a : array) (k : key) : bool :=
  match array_get a k with
  | Some VNull => false
  | Some _ => true
  | None => false
  end.

(** [uniqid($prefix, true)]: the prefix followed by what the clock and the
    generator contribute, which the caller of [insert] supplies as
    [entropy]. *)
Definition uniqid (prefix entropy : string) : string := prefix ++ entropy.

Definition insert (fs : filesystem) (collection : string) (document : array)
           (entropy : string) : result array * filesystem :=
  match readCollection fs collection with
  | Throw e => (Throw e, fs)
  | Ok data =>
      let document :=
        if negb (isset document (KStr "_id"))
        then array_set document (KStr "_id") (VString (uniqid "doc_" entropy))
        else document in
      match array_push data (VArray document) with
      | None =>
          (* the append fails: an [Error] from PHP 8 on, before that a
             warning and [$data] as it was *)
          if php8
          then (Throw (Fatal "Cannot add element to the array as the next element is already occupied"),
                fs)
          else
            match writeCollection fs collection data with
            | (Throw e, fs') => (Throw e, fs')
            | (Ok _, fs') => (Ok document, fs')
            end
      | Some data =>
          match writeCollection fs collection data with
          | (Throw e, fs') => (Throw e, fs')
          | (Ok _, fs') => (Ok document, fs')
          end
      end
  end.

(** The loop of [find]: the matching documents, in order. *)
Fixpoint find_loop (data : array) (query : zval) : result (list zval) :=
  match data with
  | [] => Ok []
  | (_, doc) :: rest =>
      m <- match_ doc query ;;
      results <- find_loop rest query ;;
      Ok (if m then doc :: results else results)
  end.

Definition find (fs : filesystem) (collection : string) (query : zval)
  : result array :=
  let query := if identical query VNull then VArray [] else query in
  data <- readCollection fs collection ;;
  if empty query then Ok data
  else
    results <- find_loop data query ;;
    Ok (list_array results).

(** [$data[$idx][$k] = $v] on one entry. *)
Definition assign_dim (entry : zval) (k : key) (v : zval) : result zval :=
  match entry with
  | VArray a => Ok (VArray (array_set a k v))
  | VNull => Ok (VArray [(k, v)])
  | _ => assign_dim_scalar entry k v
  end.

(** [unset($data[$idx][$k])] on one entry. *)
Definition unset_dim (entry : zval) (k : key) : result zval :=
  match entry with
  | VArray a => Ok (VArray (array_unset a k))
  | VNull => Ok VNull
  | _ => unset_dim_scalar entry k
  end.

Fixpoint apply_set (entry : zval) (ops : array) : result zval :=
  match ops with
  | [] => Ok entry
  | (k, v) :: r => e <- assign_dim entry k v ;; apply_set e r
  end.

Fixpoint apply_unset (entry : zval) (ops : array) : result zval :=
  match ops with
  | [] => Ok entry
  | (k, _) :: r => e <- unset_dim entry k ;; apply_unset e r
  end.

(** [foreach ($update['$set'] as ...)], guarded by [isset]: the entries
    to run through, none when the operand is missing or no array. *)
Definition update_ops (update : zval) (name : string) : array :=
  match field_value update (KStr name) with
  | VArray ops => ops
  | _ => []
  end.

(** The loop of [update]: the rewritten table and [$modifiedCount]. *)
Fixpoint update_loop (data : array) (query update : zval) : result (array * Z) :=
  match data with
  | [] => Ok ([], 0)
  | (idx, doc) :: rest =>
      m <- match_ doc query ;;
      entry <- (if m
                then e <- apply_set doc (update_ops update "$set") ;;
                     apply_unset e (update_ops update "$unset")
                else Ok doc) ;;
      r <- update_loop rest query update ;;
      Ok ((idx, entry) :: fst r, (if m then 1 else 0) + snd r)
  end.

Definition update (fs : filesystem) (collection : string) (query update : zval)
  : result Z * filesystem :=
  match readCollection fs collection with
  | Throw e => (Throw e, fs)
  | Ok data =>
      match update_loop data query update with
      | Throw e => (Throw e, fs)
      | Ok (data', modifiedCount) =>
          if 0 <? modifiedCount then
            match writeCollection fs collection data' with
            | (Throw e, fs') => (Throw e, fs')
            | (Ok _, fs') => (Ok modifiedCount, fs')
            end
          else (Ok modifiedCount, fs)
      end
  end.

(** The loop of [delete]: the documents that do not match, in order. *)
Fixpoint delete_loop (data : array) (query : zval) : result (list zval) :=
  match data with
  | [] => Ok []
  | (_, doc) :: rest =>
      m <- match_ doc query ;;
      newData <- delete_loop rest query ;;
      Ok (if negb m then doc :: newData else newData)
  end.

Definition delete (fs : filesystem) (collection : string) (query : zval)
  : result Z * filesystem :=
  match readCollection fs collection with
  | Throw e => (Throw e, fs)
  | Ok data =>
      let beforeCount := count data in
      match delete_loop data query with
      | Throw e => (Throw e, fs)
      | Ok kept =>
          let newData := list_array kept in
          let deletedCount := beforeCount - count newData in
          if 0 <? deletedCount then
            match writeCollection fs collection newData with
            | (Throw e, fs') => (Throw e, fs')
            | (Ok _, fs') => (Ok deletedCount, fs')
            end
          else (Ok deletedCount, fs)
      end
  end.

End Engine.

End JsonDB.

(* ================================================================== *)
(** * The browser simulator: [services/dbSimulator.ts] *)

Module DbSimulator.

(** ** JavaScript values

    The values a caller hands to the simulator and the simulator stores:
    what [JSON.parse] and object literals over such values give, and
    [undefined].  Objects and arrays are heap objects: each carries the
    location it lives at, and [===] on them compares locations, not
    contents. *)

Definition loc : Type := nat.
Bind Scope nat_scope with loc.

Inductive jsval : Type :=
| JsUndefined
| JsNull
| JsBool (b : bool)
| JsNumber (n : Q)
| JsString (s : string)
| JsArray (l : loc) (items : list jsval)
| JsObject (l : loc) (props : list (string * jsval)).

(** The result of [ToNumber]. *)
Inductive number : Type :=
| NaN
| Finite (q : Q)
| Infinity (negative : bool).

Class js_runtime : Type := {
  (** [StringToNumber] *)
  StringToNumber : string -> number;
  (** [Number::toString] on a finite number *)
  NumberToString : Q -> string;
  (** [new RegExp(pattern, flags)]: [None] when the constructor throws a
      [SyntaxError], else the [test] method of the new object *)
  RegExpCreate : string -> string -> option (string -> bool);
  (** [Function.prototype.toString] on the built-in function of a name,
      such as "function valueOf() { [native code] }" *)
  FunctionToString : string -> string
}.

(** [typeof v === 'object' && v !== null && !Array.isArray(v)]. *)
Definition is_plain_object (v : jsval) : bool :=
  match v with
  | JsObject _ _ => true
  | _ => false
  end.

(** [Array.isArray(v)]. *)
Definition isArray (v : jsval) : bool :=
  match v with
  | JsArray _ _ => true
  | _ => false
  end.

(** ** Property lookup

    A document is a plain object, so [doc[key]] finds its own property
    of that name and, when it has none, the member of that name of
    [Object.prototype]: eleven functions, and the accessor [__proto__],
    whose value is [Object.prototype] itself. *)

Definition object_prototype : list string :=
  ["constructor"; "hasOwnProperty"; "isPrototypeOf"; "propertyIsEnumerable";
   "toLocaleString"; "toString"; "valueOf"; "__proto__";
   "__defineGetter__"; "__defineSetter__"; "__lookupGetter__"; "__lookupSetter__"].

Definition inherited (k : string) : bool := existsb (String.eqb k) object_prototype.

(** What a lookup gives: a value, [undefined] when there is nothing, or
    what [Object.prototype] holds under the name. *)
Inductive lookup : Type :=
| Value (v : jsval)
| Builtin (k : string).

Coercion Value : jsval >-> lookup.

(** The own property of a name, if there is one. *)
Fixpoint own_prop (props : list (string * jsval)) (k : string) : option jsval :=
  match props with
  | [] => None
  | (k', v) :: r => if String.eqb k' k then Some v else own_prop r k
  end.

(** [o[key]] on a plain object with the own properties [props]. *)
Definition get_prop (props : list (string * jsval)) (k : string) : lookup :=
  match own_prop props k with
  | Some v => Value v
  | None => if inherited k then Builtin k else Value JsUndefined
  end.

(** [o[key] = v] on own properties. *)
Fixpoint set_prop (props : list (string * jsval)) (k : string) (v : jsval)
  : list (string * jsval) :=
  match props with
  | [] => [(k, v)]
  | (k', v') :: r =>
      if String.eqb k' k then (k', v) :: r else (k', v') :: set_prop r k v
  end.

Fixpoint index_props (i : nat) (items : list jsval) : list (string * jsval) :=
  match items with
  | [] => []
  | x :: r => (Z_to_string (Z.of_nat i), x) :: index_props (S i) r
  end.

Fixpoint chars (s : string) : list jsval :=
  match s with
  | EmptyString => []
  | String c r => JsString (String c EmptyString) :: chars r
  end.

(** The enumerable properties a [for ... in] loop, [Object.keys] and the
    spread [{...v}] run through; no member of [Object.prototype] is
    enumerable. *)
Definition enumerate (v : jsval) : list (string * jsval) :=
  match v with
  | JsObject _ props => props
  | JsArray _ items => index_props 0 items
  | JsString s => index_props 0 (chars s)
  | _ => []
  end.

(** [a === b]. *)
Definition strict_equal (a b : lookup) : bool :=
  match a, b with
  | Value x, Value y =>
      match x, y with
      | JsUndefined, JsUndefined => true
      | JsNull, JsNull => true
      | JsBool x, JsBool y => Bool.eqb x y
      | JsNumber x, JsNumber y => Qeq_bool x y
      | JsString x, JsString y => String.eqb x y
      | JsArray l1 _, JsArray l2 _ => Nat.eqb l1 l2
      | JsObject l1 _, JsObject l2 _ => Nat.eqb l1 l2
      | _, _ => false
      end
  | Builtin j, Builtin k => String.eqb j k
  | _, _ => false
  end.

(** [SameValueZero], the comparison of [Array.prototype.includes]; it
    differs from [===] on NaN only, which no value here is. *)
Definition SameValueZero (a b : lookup) : bool := strict_equal a b.

(** [array.includes(v)]. *)
Definition includes (array : jsval) (v : lookup) : bool :=
  match array with
  | JsArray _ items => existsb (fun e : jsval => SameValueZero e v) items
  | _ => false
  end.

Section Operators.

Context {rt : js_runtime}.

(** [String(v)].  An array is joined; an object goes through
    [ToPrimitive]: the methods [toString] and [valueOf] are looked up on
    it, one that is an own property is a value of the kinds above and
    cannot be called, the inherited [valueOf] returns the object itself,
    and only the inherited [toString] returns a string. *)
Fixpoint ToString (v : jsval) : result string :=
  match v with
  | JsUndefined => Ok "undefined"
  | JsNull => Ok "null"
  | JsBool true => Ok "true"
  | JsBool false => Ok "false"
  | JsNumber n => Ok (NumberToString n)
  | JsString s => Ok s
  | JsArray _ items =>
      (fix join (xs : list jsval) {struct xs} : result string :=
         match xs with
         | [] => Ok ""
         | x :: r =>
             e <- match x with
                  | JsUndefined | JsNull => Ok ""
                  | _ => ToString x
                  end ;;
             match r with
             | [] => Ok e
             | _ => t <- join r ;; Ok (e ++ "," ++ t)
             end
         end) items
  | JsObject _ props =>
      match own_prop props "toString" with
      | Some _ => Throw (TypeError "Cannot convert object to primitive value")
      | None => Ok "[object Object]"
      end
  end.

(** [ToPrimitive]: an object or array becomes its string form. *)
Definition ToPrimitive (v : jsval) : result jsval :=
  match v with
  | JsArray _ _ | JsObject _ _ => s <- ToString v ;; Ok (JsString s)
  | _ => Ok v
  end.

(** The string form of a member of [Object.prototype]. *)
Definition builtin_text (k : string) : string :=
  if String.eqb k "__proto__" then "[object Object]"
  else if String.eqb k "constructor" then FunctionToString "Object"
  else FunctionToString k.

(** [String] and [ToPrimitive] on what a lookup gave. *)
Definition lookup_string (val : lookup) : result string :=
  match val with
  | Value v => ToString v
  | Builtin k => Ok (builtin_text k)
  end.

Definition lookup_primitive (val : lookup) : result jsval :=
  match val with
  | Value v => ToPrimitive v
  | Builtin k => Ok (JsString (builtin_text k))
  end.

(** [ToNumber] of a primitive. *)
Definition ToNumber (p : jsval) : number :=
  match p with
  | JsUndefined => NaN
  | JsNull => Finite 0
  | JsBool true => Finite 1
  | JsBool false => Finite 0
  | JsNumber n => Finite n
  | JsString s => StringToNumber s
  | _ => NaN
  end.

(** [x < y] on numbers; [None] is the undefined outcome of a NaN. *)
Definition number_lt (x y : number) : option bool :=
  match x, y with
  | NaN, _ | _, NaN => None
  | Finite a, Finite b => Some (Qltb a b)
  | Finite _, Infinity neg => Some (negb neg)
  | Infinity neg, Finite _ => Some neg
  | Infinity n1, Infinity n2 => Some (n1 && negb n2)%bool
  end.

(** The abstract relational comparison [IsLessThan] on two primitives. *)
Definition IsLessThan (px py : jsval) : option bool :=
  match px, py with
  | JsString sx, JsString sy => Some (String.ltb sx sy)
  | _, _ => number_lt (ToNumber px) (ToNumber py)
  end.

(** [a <= b]: both sides are made primitive, the left one first; false
    when [b < a] is true or undefined. *)
Definition js_le (a : lookup) (b : jsval) : result bool :=
  pa <- lookup_primitive a ;;
  pb <- ToPrimitive b ;;
  Ok (match IsLessThan pb pa with
      | Some false => true
      | _ => false
      end).

(** [a >= b]: false when [a < b] is true or undefined. *)
Definition js_ge (a : lookup) (b : jsval) : result bool :=
  pa <- lookup_primitive a ;;
  pb <- ToPrimitive b ;;
  Ok (match IsLessThan pa pb with
      | Some false => true
      | _ => false
      end).

(** The pattern text [new RegExp(expected, ...)] compiles. *)
Definition pattern_source (expected : jsval) : result string :=
  match expected with
  | JsUndefined => Ok ""
  | _ => ToString expected
  end.

(** ** [DbSimulator.match] *)

(** The inner [for (const op in criteria)] with its [switch]. *)
Fixpoint match_criteria (val : lookup) (criteria : list (string * jsval))
  : result bool :=
  match criteria with
  | [] => Ok true
  | (op, expected) :: rest =>
      if String.eqb op "$eq" then
        if negb (strict_equal val expected) then Ok false
        else match_criteria val rest
      else if String.eqb op "$ne" then
        if strict_equal val expected then Ok false
        else match_criteria val rest
      else if String.eqb op "$gt" then
        le <- js_le val expected ;;
        if le then Ok false
        else match_criteria val rest
      else if String.eqb op "$lt" then
        ge <- js_ge val expected ;;
        if ge then Ok false
        else match_criteria val rest
      else if String.eqb op "$regex" then
        source <- pattern_source expected ;;
        match RegExpCreate source "i" with
        | None => Throw (SyntaxError "Invalid regular expression")
        | Some test =>
            subject <- lookup_string val ;;
            if negb (test subject) then Ok false
            else match_criteria val rest
        end
      else if String.eqb op "$in" then
        if (negb (isArray expected) || negb (includes expected val))%bool
        then Ok false
        else match_criteria val rest
      else match_criteria val rest
  end.

(** A stored document: an object, by its location and properties. *)
Record Document : Type := {
  doc_loc : loc;
  doc_props : list (string * jsval)
}.

Definition value_of (d : Document) : jsval := JsObject (doc_loc d) (doc_props d).

(** The outer [for (const key in query)]. *)
Fixpoint match_entries (doc : Document) (query : list (string * jsval))
  : result bool :=
  match query with
  | [] => Ok true
  | (k, criteria) :: rest =>
      let val := get_prop (doc_props doc) k in
      if is_plain_object criteria then
        ok <- match_criteria val (enumerate criteria) ;;
        if ok then match_entries doc rest else Ok false
      else
        if negb (strict_equal val criteria) then Ok false
        else match_entries doc rest
  end.

Definition match_ (doc : Document) (query : jsval) : result bool :=
  match_entries doc (enumerate query).

End Operators.

(** ** The store *)

Record Collection : Type := {
  name : string;
  documents : list Document;
  createdAt : Q
}.

Record DatabaseState : Type := {
  collections : list Collection
}.

(** ** [JSON.stringify]

    The text is carried by its syntax tree.  A property whose value is
    [undefined] is left out, an [undefined] array element is printed as
    null; no value here has a [toJSON] method that could be called. *)

Inductive jtext : Type :=
| TNull
| TBool (b : bool)
| TNumber (n : Q)
| TString (s : string)
| TArray (items : list jtext)
| TObject (members : list (string * jtext)).

Fixpoint stringify (v : jsval) : option jtext :=
  match v with
  | JsUndefined => None
  | JsNull => Some TNull
  | JsBool b => Some (TBool b)
  | JsNumber n => Some (TNumber n)
  | JsString s => Some (TString s)
  | JsArray _ items =>
      Some (TArray
              ((fix elements (xs : list jsval) {struct xs} : list jtext :=
                  match xs with
                  | [] => []
                  | x :: r =>
                      match stringify x with
                      | Some t => t :: elements r
                      | None => TNull :: elements r
                      end
                  end) items))
  | JsObject _ props =>
      Some (TObject
              ((fix members (ps : list (string * jsval)) {struct ps}
                  : list (string * jtext) :=
                  match ps with
                  | [] => []
                  | (k, x) :: r =>
                      match stringify x with
                      | Some t => (k, t) :: members r
                      | None => members r
                      end
                  end) props))
  end.

Definition stringify_document (d : Document) : jtext :=
  match stringify (value_of d) with
  | Some t => t
  | None => TNull
  end.

Definition stringify_collection (c : Collection) : jtext :=
  TObject [("name", TString (name c));
           ("documents", TArray (map stringify_document (documents c)));
           ("createdAt", TNumber (createdAt c))].

(** [JSON.stringify(this.state)]. *)
Definition stringify_state (st : DatabaseState) : jtext :=
  TObject [("collections", TArray (map stringify_collection (collections st)))].

(** The simulator object: its [state] field, the text [localStorage]
    holds under [STORAGE_KEY], the next free heap location, and which
    texts [localStorage.setItem] takes; on any other it throws a
    [QuotaExceededError] and keeps what it held. *)
Record simulator : Type := {
  state : DatabaseState;
  storage : option jtext;
  next_loc : loc;
  fits : jtext -> bool
}.

(** [this.state.collections.find(c => c.name === collectionName)]. *)
Fixpoint find_collection (cs : list Collection) (collectionName : string)
  : option Collection :=
  match cs with
  | [] => None
  | c :: r => if String.eqb (name c) collectionName then Some c
              else find_collection r collectionName
  end.

(** Assignment to the [documents] field of the collection [find] returned,
    the first one of that name. *)
Fixpoint set_documents (cs : list Collection) (collectionName : string)
         (docs : list Document) : list Collection :=
  match cs with
  | [] => []
  | c :: r =>
      if String.eqb (name c) collectionName
      then {| name := name c; documents := docs; createdAt := createdAt c |} :: r
      else c :: set_documents r collectionName docs
  end.

(** The simulator with another state. *)
Definition with_state (s : simulator) (st : DatabaseState) (next : loc) : simulator :=
  {| state := st; storage := storage s; next_loc := next; fits := fits s |}.

(** [this.save()]: [localStorage] receives the serialized state, or
    [setItem] throws. *)
Definition save (s : simulator) : result unit * simulator :=
  let text := stringify_state (state s) in
  if fits s text
  then (Ok tt, {| state := state s; storage := Some text;
                  next_loc := next_loc s; fits := fits s |})
  else (Throw (QuotaExceededError "Setting the value exceeded the quota"), s).

(** A method that ends with [this.save()] and then returns [a]. *)
Definition save_and_return {A : Type} (s : simulator) (a : A) : result A * simulator :=
  match save s with
  | (Ok _, s') => (Ok a, s')
  | (Throw e, s') => (Throw e, s')
  end.

Section Methods.

Context {rt : js_runtime}.

(** [insert(collectionName, doc)]; [random] stands for
    [Math.random().toString(36).substr(2, 9)]. *)
Definition insert (s : simulator) (collectionName : string) (doc : jsval)
           (random : string) : result Document * simulator :=
  match find_collection (collections (state s)) collectionName with
  | None => (Throw (Exception "Collection not found"), s)
  | Some coll =>
      let newDoc :=
        {| doc_loc := next_loc s;
           doc_props := set_prop (enumerate doc) "_id" (JsString ("doc_" ++ random)) |} in
      let s' :=
        with_state s
                   {| collections :=
                        set_documents (collections (state s)) collectionName
                                      (documents coll ++ [newDoc])%list |}
                   (S (next_loc s)) in
      save_and_return s' newDoc
  end.

(** [docs.filter(doc => keep(this.match(doc, query)))]. *)
Fixpoint filter_docs (keep : bool -> bool) (docs : list Document) (query : jsval)
  : result (list Document) :=
  match docs with
  | [] => Ok []
  | d :: r =>
      m <- match_ d query ;;
      r' <- filter_docs keep r query ;;
      Ok (if keep m then d :: r' else r')
  end.

(** [find(collectionName, query = {})]. *)
Definition find (s : simulator) (collectionName : string) (query : jsval)
  : result (list Document) :=
  let query := match query with
               | JsUndefined => JsObject (next_loc s) []
               | _ => query
               end in
  match find_collection (collections (state s)) collectionName with
  | None => Ok []
  | Some coll =>
      match query with
      | JsNull => Throw (TypeError "Cannot convert undefined or null to object")
      | _ =>
          if Nat.eqb (List.length (enumerate query)) 0 then Ok (documents coll)
          else filter_docs (fun m => m) (documents coll) query
      end
  end.

(** [delete(collectionName, query)]. *)
Definition delete (s : simulator) (collectionName : string) (query : jsval)
  : result Z * simulator :=
  match find_collection (collections (state s)) collectionName with
  | None => (Ok 0, s)
  | Some coll =>
      let initialCount := Z.of_nat (List.length (documents coll)) in
      match filter_docs negb (documents coll) query with
      | Throw e => (Throw e, s)
      | Ok kept =>
          let s' :=
            with_state s
                       {| collections :=
                            set_documents (collections (state s)) collectionName kept |}
                       (next_loc s) in
          save_and_return s' (initialCount - Z.of_nat (List.length kept))
      end
  end.

End Methods.

End DbSimulator.

(* ================================================================== *)
(** * A concrete runtime for the worked examples

    Plain decimal numerals (an optional sign, digits, an optional
    fraction) are read and printed exactly; exponent notation is not
    read.  The regular-expression engine understands patterns free of
    syntax characters, which match as plain text, and reports every other
    pattern as not compilable.  The examples below stay within these
    bounds; the theorems do not depend on this runtime. *)

Module Reference.

Definition digit_char (d : Z) : ascii := ascii_of_nat (48 + Z.to_nat d).

Fixpoint fraction_digits (fuel : nat) (n d : Z) : string :=
  match fuel with
  | O => EmptyString
  | S f =>
      if n =? 0 then EmptyString
      else String (digit_char (n * 10 / d)) (fraction_digits f (n * 10 mod d) d)
  end.

Definition Q_to_string (q : Q) : string :=
  let n := Z.abs (Qnum q) in
  let d := Zpos (Qden q) in
  (if Qnum q <? 0 then "-" else "")
  ++ Z_to_string (n / d)
  ++ (if n mod d =? 0 then "" else "." ++ fraction_digits 17 (n mod d) d).

(** Digits read left to right: the value and the count of digits. *)
Fixpoint digits_value (acc : Z) (len : nat) (s : string) : option (Z * nat) :=
  match s with
  | EmptyString => Some (acc, len)
  | String c r =>
      if is_digit c
      then digits_value (acc * 10 + Z.of_nat (code c - 48)) (S len) r
      else None
  end.

Fixpoint split_at_dot (s : string) : string * option string :=
  match s with
  | EmptyString => (EmptyString, None)
  | String c r =>
      if Ascii.eqb c "." then (EmptyString, Some r)
      else let (a, b) := split_at_dot r in (String c a, b)
  end.

Definition unsigned_decimal (s : string) : option (Z + Q) :=
  match split_at_dot s with
  | (ip, None) =>
      match digits_value 0 0 ip with
      | Some (v, S _) => Some (inl v)
      | _ => None
      end
  | (ip, Some fp) =>
      match digits_value 0 0 ip, digits_value 0 0 fp with
      | Some (v, li), Some (w, lf) =>
          match (li + lf)%nat with
          | O => None
          | _ => Some (inr (Qred (Qmake (v * 10 ^ Z.of_nat lf + w)
                                        (Z.to_pos (10 ^ Z.of_nat lf)))))
          end
      | _, _ => None
      end
  end.

Definition negate (x : Z + Q) : Z + Q :=
  match x with
  | inl z => inl (- z)
  | inr q => inr (Qopp q)
  end.

Definition decimal (s : string) : option (Z + Q) :=
  match s with
  | String c r =>
      if Ascii.eqb c "-" then option_map negate (unsigned_decimal r)
      else if Ascii.eqb c "+" then unsigned_decimal r
      else unsigned_decimal s
  | EmptyString => None
  end.

(** The leading run of digits, for PHP 5/7's cast of a text such as
    [12abc]. *)
Fixpoint digit_prefix (s : string) : string :=
  match s with
  | String c r => if is_digit c then String c (digit_prefix r) else EmptyString
  | EmptyString => EmptyString
  end.

Definition is_syntax_char (c : ascii) : bool :=
  existsb (Ascii.eqb c)
          (list_ascii_of_string "\^$.|?*+()[]{}").

Definition literal_test (pattern : string) (ignore_case : bool) (subject : string) : bool :=
  if ignore_case then contains (lowercase pattern) (lowercase subject)
  else contains pattern subject.

Definition has_char (c : ascii) (s : string) : bool :=
  existsb (Ascii.eqb c) (list_ascii_of_string s).

Definition php (version8 : bool) : JsonDB.php_runtime :=
  {| JsonDB.php8 := version8;
     JsonDB.append_after_negative := version8;
     JsonDB.numeric_value := fun s =>
       match decimal (skip_while is_space s) with
       | Some (inl z) =>
           if ((JsonDB.PHP_INT_MIN <=? z) && (z <=? JsonDB.PHP_INT_MAX))%bool
           then Some (JsonDB.NLong z)
           else Some (JsonDB.NDouble (JsonDB.long_to_double z))
       | Some (inr q) => Some (JsonDB.NDouble q)
       | None => None
       end;
     JsonDB.numeric_overflow := fun s =>
       match decimal (skip_while is_space s) with
       | Some (inl z) =>
           if JsonDB.PHP_INT_MAX <? z then 1
           else if z <? JsonDB.PHP_INT_MIN then -1
           else 0
       | _ => 0
       end;
     JsonDB.legacy_number := fun s =>
       match skip_while is_space s with
       | String c r =>
           if Ascii.eqb c "-" then
             match digits_value 0 0 (digit_prefix r) with
             | Some (v, _) => JsonDB.NLong (- v)
             | None => JsonDB.NLong 0
             end
           else
             match digits_value 0 0 (digit_prefix (String c r)) with
             | Some (v, _) => JsonDB.NLong v
             | None => JsonDB.NLong 0
             end
       | EmptyString => JsonDB.NLong 0
       end;
     JsonDB.double_to_string := Q_to_string;
     JsonDB.pcre_match := fun body modifiers subject =>
       if (string_forallb (fun c => negb (is_syntax_char c)) body
           && string_forallb (fun c => has_char c "ims") modifiers)%bool
       then Some (literal_test body (has_char "i" modifiers) subject)
       else None;
     JsonDB.string_offset := fun s k =>
       match k with
       | JsonDB.KInt i =>
           if (0 <=? i) && (i <? Z.of_nat (String.length s))
           then Some (String.substring (Z.to_nat i) 1 s)
           else None
       | JsonDB.KStr _ => None
       end;
     JsonDB.assign_dim_scalar := fun entry _ _ =>
       if version8 then Throw (Fatal "Cannot use a scalar value as an array")
       else Ok entry;
     JsonDB.unset_dim_scalar := fun entry _ =>
       if version8 then Throw (Fatal "Cannot unset offset in a non-array variable")
       else Ok entry;
     JsonDB.json_of_double := fun q =>
       if Z.abs (Qnum q) mod Zpos (Qden q) =? 0
       then JsonDB.JInt (Qnum q / Zpos (Qden q))
       else JsonDB.JReal q |}.

Definition php5 : JsonDB.php_runtime := php false.
Definition php8 : JsonDB.php_runtime := php true.

Fixpoint trim_right (s : string) : string :=
  match s with
  | EmptyString => EmptyString
  | String c r =>
      match trim_right r with
      | EmptyString => if is_space c then EmptyString else String c EmptyString
      | r' => String c r'
      end
  end.

Definition js : DbSimulator.js_runtime :=
  {| DbSimulator.StringToNumber := fun s =>
       let t := trim_right (skip_while is_space s) in
       if String.eqb t "" then DbSimulator.Finite 0
       else if (String.eqb t "Infinity" || String.eqb t "+Infinity")%bool
       then DbSimulator.Infinity false
       else if String.eqb t "-Infinity" then DbSimulator.Infinity true
       else match decimal t with
            | Some (inl z) => DbSimulator.Finite (inject_Z z)
            | Some (inr q) => DbSimulator.Finite q
            | None => DbSimulator.NaN
            end;
     DbSimulator.NumberToString := Q_to_string;
     DbSimulator.RegExpCreate := fun pattern flags =>
       if string_forallb (fun c => negb (is_syntax_char c)) pattern
       then Some (literal_test pattern (has_char "i" flags))
       else None;
     DbSimulator.FunctionToString := fun name =>
       "function " ++ name ++ "() { [native code] }" |}.

End Reference.

(* ================================================================== *)
(** * Vocabulary of the statements *)

Module Spec.

Import JsonDB.

(** The query [{key: {op: operand}}], as PHP decodes it. *)
Definition clause (k : key) (op : string) (operand : zval) : zval :=
  VArray [(k, VArray [(KStr op, operand)])].

(** Whether a document satisfies a query: [match] returned [true]. *)
Definition satisfies {rt : php_runtime} (query doc : zval) : bool :=
  match match_ doc query with
  | Ok b => b
  | Throw _ => false
  end.

(** What a file holds after a write. *)
Definition stored (fs : filesystem) (path : string) : option content :=
  option_map body (files fs path).

(** What [readCollection] returns from the file at [path]: the table it
    decodes to, the empty one when it is missing, unreadable or decodes
    to no array. *)
Definition table_of (fs : filesystem) (path : string) : array :=
  match file_get_contents fs path with
  | Some c =>
      match decode_content c with
      | VArray data => data
      | _ => []
      end
  | None => []
  end.

(** Operands against which a null field fails [$lt] in PHP: null, false,
    0, 0.0, the empty string, an empty array. *)
Definition null_ge (operand : zval) : bool :=
  match operand with
  | VString s => String.eqb s ""
  | _ => negb (zval_is_true operand)
  end.

(** A pattern text without delimiters: the first character after white
    space is a letter or a digit (or there is none). *)
Definition undelimited (p : string) : bool :=
  match skip_while is_space p with
  | String c _ => is_alnum c
  | EmptyString => true
  end.

(** Type-and-value equality of two values, the second one a scalar. *)
Definition same_scalar (a c : zval) : Prop :=
  match a, c with
  | VDouble x, VDouble y => Qeq x y
  | _, _ => a = c
  end.

(** A file from which [readCollection] gets no table: its bytes are no
    JSON text, or the text is neither an array nor an object. *)
Definition no_table (c : content) : bool :=
  match c with
  | Text (JArray _) | Text (JObject _) => false
  | _ => true
  end.

(** The [_id] of a stored document, when set. *)
Definition id_of (doc : zval) : option zval :=
  match doc with
  | VArray a => if isset a (KStr "_id") then array_get a (KStr "_id") else None
  | _ => None
  end.

(** The [_id] is a string, and not the empty one. *)
Definition nonempty_id (doc : zval) : bool :=
  match id_of doc with
  | Some (VString s) => negb (String.eqb s "")
  | _ => false
  end.

Definition same_id (d1 d2 : zval) : bool :=
  match id_of d1, id_of d2 with
  | Some a, Some b => identical a b
  | _, _ => false
  end.

Definition ids_unique (docs : list zval) : bool := distinct same_id docs.

(** The invariant of a collection: every document has a non-empty [_id]
    and no two documents share one. *)
Definition ids_ok (docs : list zval) : bool :=
  (forallb nonempty_id docs && ids_unique docs)%bool.

(** No document of the list has the string [id] as its [_id]. *)
Definition unused_id (id : string) (docs : list zval) : bool :=
  forallb (fun d => match id_of d with
                    | Some v => negb (identical v (VString id))
                    | None => true
                    end) docs.

(** The document [insert] stores and returns: the input, with a generated
    [_id] when it has none set. *)
Definition stamped (document : array) (entropy : string) : array :=
  if negb (isset document (KStr "_id"))
  then array_set document (KStr "_id") (VString (uniqid "doc_" entropy))
  else document.

(** The same vocabulary for the simulator. *)

Import DbSimulator.

Definition jclause (l1 l2 : loc) (k op : string) (operand : jsval) : jsval :=
  JsObject l1 [(k, JsObject l2 [(op, operand)])].

Definition jsatisfies {rt : js_runtime} (query : jsval) (doc : Document) : bool :=
  match DbSimulator.match_ doc query with
  | Ok b => b
  | Throw _ => false
  end.

Definition nonneg (n : number) : bool :=
  match n with
  | Finite q => negb (Qltb q 0)
  | Infinity negative => negb negative
  | NaN => false
  end.

Definition nonpos (n : number) : bool :=
  match n with
  | Finite q => negb (Qltb 0 q)
  | Infinity negative => negative
  | NaN => false
  end.

(** Identity of what a lookup gave and a value that is no plain object:
    equal scalars, or one and the same array; a member of
    [Object.prototype] is none of these. *)
Definition same_value (a : lookup) (c : jsval) : Prop :=
  match a, c with
  | Value (JsNumber x), JsNumber y => Qeq x y
  | Value (JsArray l1 _), JsArray l2 _ => l1 = l2
  | Value a, _ => a = c
  | Builtin _, _ => False
  end.

Definition jid_of (d : Document) : lookup := get_prop (doc_props d) "_id".

Definition jnonempty_id (d : Document) : bool :=
  match jid_of d with
  | Value (JsString s) => negb (String.eqb s "")
  | _ => false
  end.

Definition jsame_id (d1 d2 : Document) : bool :=
  strict_equal (jid_of d1) (jid_of d2).

Definition jids_unique (docs : list Document) : bool := distinct jsame_id docs.

Definition jids_ok (docs : list Document) : bool :=
  (forallb jnonempty_id docs && jids_unique docs)%bool.

Definition junused_id (id : string) (docs : list Document) : bool :=
  forallb (fun d => negb (strict_equal (jid_of d) (JsString id))) docs.

(** Documents of a collection of the simulator, none when it is missing. *)
Definition documents_of (s : simulator) (collectionName : string) : list Document :=
  match find_collection (collections (state s)) collectionName with
  | Some c => documents c
  | None => []
  end.

End Spec.

(* ================================================================== *)
(** * Sample data: the seed documents of the simulator and a database
      directory holding them *)

Module Sample.

Import JsonDB.

Definition john : array :=
  [(KStr "name", VString "John Doe"); (KStr "email", VString "john@example.com");
   (KStr "age", VLong 30); (KStr "role", VString "admin")].

Definition jane : array :=
  [(KStr "name", VString "Jane Smith"); (KStr "email", VString "jane@example.com");
   (KStr "age", VLong 25); (KStr "role", VString "user")].

Definition with_id (id : string) (doc : array) : array :=
  (doc ++ [(KStr "_id", VString id)])%list.

Definition users : array :=
  list_array [VArray (with_id "doc_a1" john); VArray (with_id "doc_b2" jane)].

(** A directory [db/] whose only file is [path], holding [c]. *)
Definition disk (path : string) (c : content) : filesystem :=
  {| files := fun p => if String.eqb p path
                       then Some {| readable := true; body := c |}
                       else None;
     writable := fun _ => true;
     torn := fun _ => None;
     last_error := fun _ => None |}.

Definition users_disk : filesystem :=
  disk "db/users.json" (written (@json_encode Reference.php5 (VArray users))).

Import DbSimulator.

Definition jjohn : Document :=
  {| doc_loc := 1;
     doc_props := [("name", JsString "John Doe"); ("email", JsString "john@example.com");
                   ("age", JsNumber 30); ("role", JsString "admin");
                   ("_id", JsString "doc_a1")] |}.

Definition jjane : Document :=
  {| doc_loc := 2;
     doc_props := [("name", JsString "Jane Smith"); ("email", JsString "jane@example.com");
                   ("age", JsNumber 25); ("role", JsString "user");
                   ("_id", JsString "doc_b2")] |}.

Definition browser : simulator :=
  {| state := {| collections :=
                   [ {| name := "users"; documents := [jjohn; jjane]; createdAt := 0 |} ] |};
     storage := None;
     next_loc := 3;
     fits := fun _ => true |}.

End Sample.

(* ================================================================== *)
(** * The rest of the class [JsonDB]: constructor, [listCollections],
      [createCollection] and [drop] *)

Module Collections.

Import JsonDB.

(** ** [__construct] *)

(** What the constructor asks the operating system: [is_dir], whether
    [@mkdir] succeeds (and the message [error_get_last] holds when not),
    and [is_writable] once the directory is there. *)
Record directories : Type := {
  is_dir : string -> bool;
  mkdir : string -> bool;
  mkdir_error : option string;
  is_writable : string -> bool
}.

(** [ltrim($s, $c)] and [trim($s, $c)] for a single character [$c]. *)
Definition ltrim_char (c : ascii) (s : string) : string := skip_while (Ascii.eqb c) s.

Fixpoint rtrim_char (c : ascii) (s : string) : string :=
  match s with
  | EmptyString => EmptyString
  | String x r =>
      match rtrim_char c r with
      | EmptyString => if Ascii.eqb c x then EmptyString else String x EmptyString
      | r' => String x r'
      end
  end.

Definition trim_char (c : ascii) (s : string) : string := rtrim_char c (ltrim_char c s).

(** [new JsonDB($dbRelativePath)]: the value of [$this->dbPath], or the
    exception thrown.  [baseDir] is [dirname(__FILE__)] and [separator]
    is [DIRECTORY_SEPARATOR]. *)
Definition construct (baseDir : string) (separator : ascii) (os : directories)
           (dbRelativePath : option string) : result string :=
  let dbRelativePath := match dbRelativePath with
                        | None => "db"
                        | Some p => p
                        end in
  let targetDir := baseDir ++ String separator (trim_char separator dbRelativePath) in
  if (negb (is_dir os targetDir) && negb (mkdir os targetDir))%bool then
    let msg := match mkdir_error os with
               | Some m => m
               | None => "Check permissions"
               end in
    Throw (Exception ("Could not create database directory: " ++ msg))
  else if negb (is_writable os targetDir) then
    Throw (Exception ("Database directory is NOT writable: " ++ targetDir))
  else Ok (targetDir ++ String separator EmptyString).

(** ** [listCollections] *)

(** The part of a path after its last slash. *)
Fixpoint last_component (acc : string) (s : string) : string :=
  match s with
  | EmptyString => acc
  | String c r =>
      if Ascii.eqb c "/" then last_component EmptyString r
      else last_component (acc ++ String c EmptyString) r
  end.

Fixpoint ends_with (suffix s : string) : bool :=
  (String.eqb suffix s ||
   match s with
   | EmptyString => false
   | String _ r => ends_with suffix r
   end)%bool.

(** [basename($path, $suffix)] on a path that does not end in a slash:
    the last component, without the suffix when it ends in it and is more
    than it. *)
Definition basename (path suffix : string) : string :=
  let base := last_component EmptyString path in
  if (ends_with suffix base && negb (String.eqb base suffix))%bool
  then String.substring 0 (String.length base - String.length suffix) base
  else base.

(** [array_unique] on strings: the first occurrence of each. *)
Fixpoint array_unique (seen : list string) (names : list string) : list string :=
  match names with
  | [] => []
  | n :: r =>
      if existsb (String.eqb n) seen then array_unique seen r
      else n :: array_unique (n :: seen) r
  end.

(** [listCollections()]; [globbed] is what [glob($this->dbPath . '*.json')]
    returns, [None] for [false]. *)
Definition listCollections (globbed : option (list string)) : list string :=
  match globbed with
  | None => []
  | Some files => array_unique [] (map (fun f => basename f ".json") files)
  end.

(** ** [createCollection] and [drop] *)

Section Admin.

Context {rt : php_runtime}.

Variable dbPath : string.

(** [createCollection($collection)].  [@touch] changes the times of the
    file only, which the file system here does not record. *)
Definition createCollection (fs : filesystem) (collection : string)
  : result bool * filesystem :=
  if empty (VString collection)
  then (Throw (Exception "Collection name cannot be empty"), fs)
  else
    match getFilePath dbPath collection with
    | Throw e => (Throw e, fs)
    | Ok file =>
        if negb (file_exists fs file) then
          match writeCollection dbPath fs collection [] with
          | (Throw e, fs') => (Throw e, fs')
          | (Ok _, fs') => (Ok true, fs')
          end
        else (Ok true, fs)
    end.

(** Whether [@unlink] succeeds on a path. *)
Variable may_unlink : string -> bool.

(** [@unlink($path)]: the file system without the file, [None] for
    [false]. *)
Definition unlink (fs : filesystem) (path : string) : option filesystem :=
  if may_unlink path then
    Some {| files := fun p => if String.eqb p path then None else files fs p;
            writable := writable fs;
            torn := torn fs;
            last_error := last_error fs |}
  else None.

Definition drop (fs : filesystem) (collection : string) : result bool * filesystem :=
  match getFilePath dbPath collection with
  | Throw e => (Throw e, fs)
  | Ok file =>
      if file_exists fs file then
        match unlink fs file with
        | None => (Throw (Exception ("Failed to delete " ++ file)), fs)
        | Some fs' => (Ok true, fs')
        end
      else (Ok false, fs)
  end.

End Admin.

End Collections.

(* ================================================================== *)
(** * The request handler [api.php] *)

Module Api.

Import JsonDB Collections.

(** What a request brings: the method, the query parameters [action] and
    [collection] when given, and the body. *)
Record request : Type := {
  method : string;
  action : option string;
  collection : option string;
  input : content
}.

(** What the script finds around it. *)
Record environment : Type := {
  baseDir : string;                         (* [dirname(__FILE__)] *)
  separator : ascii;                        (* [DIRECTORY_SEPARATOR] *)
  core_present : bool;                      (* [file_exists] of JsonDB.php *)
  os : directories;
  glob : string -> option (list string);
  may_unlink : string -> bool;
  entropy : string;                         (* of [uniqid] in [insert] *)
  PHP_VERSION : string;
  (** how the upload branch ends: the array it echoes, or its exception;
      the branch works on the uploads directory only *)
  upload : result JsonDB.array
}.

(** Status line and printed body; the body is empty for an OPTIONS
    request and when [json_encode] returned [false], which [echo] prints
    as nothing. *)
Record response : Type := {
  status : Z;
  printed : option json
}.

Section Handler.

Context {rt : php_runtime}.

Definition success (fields : JsonDB.array) : JsonDB.array :=
  (KStr "success", VBool true) :: fields.

(** [send_api_error_response($msg)]. *)
Definition send_api_error_response (msg : string) : response :=
  {| status := 500;
     printed := json_encode (VArray [(KStr "success", VBool false);
                                     (KStr "error", VString msg)]) |}.

Definition echo (fields : JsonDB.array) : response :=
  {| status := 200; printed := json_encode (VArray fields) |}.

Definition lift {A : Type} (r : result A) (fs : filesystem) : result A * filesystem :=
  (r, fs).

(** [isset($input['query']) ? $input['query'] : array()]. *)
Definition input_field (input : JsonDB.array) (name : string) : zval :=
  if isset input (KStr name)
  then match array_get input (KStr name) with
       | Some v => v
       | None => VArray []
       end
  else VArray [].

(** The body of the [try] block: the array that is echoed, or the
    exception that leaves the block. *)
Definition dispatch (env : environment) (fs : filesystem) (req : request)
  : result JsonDB.array * filesystem :=
  if negb (core_present env)
  then (Throw (Exception "Backend core file 'JsonDB.php' missing"), fs)
  else
    match construct (baseDir env) (separator env) (os env) (Some "db") with
    | Throw e => (Throw e, fs)
    | Ok dbPath =>
        let action := match action req with Some a => a | None => "ping" end in
        let collection := match collection req with Some c => c | None => "" end in
        let input := match decode_content (input req) with
                     | VArray a => a
                     | _ => []
                     end in
        let chosen a := loose_eq (VString action) (VString a) in
        if chosen "ping" then
          (Ok (success [(KStr "message", VString "API is online");
                        (KStr "php", VString (PHP_VERSION env))]), fs)
        else if chosen "upload" then (upload env, fs)
        else if chosen "list" then
          (Ok (success [(KStr "data",
                         VArray (list_array
                                   (map VString
                                        (listCollections (glob env (dbPath ++ "*.json"))))))]),
           fs)
        else if chosen "create" then
          if empty (VString collection)
          then (Throw (Exception "Collection name required"), fs)
          else
            match createCollection dbPath fs collection with
            | (Throw e, fs') => (Throw e, fs')
            | (Ok _, fs') =>
                (Ok (success [(KStr "message", VString ("Created " ++ collection))]), fs')
            end
        else if chosen "insert" then
          if empty (VString collection)
          then (Throw (Exception "Collection name required"), fs)
          else
            match insert dbPath fs collection input (entropy env) with
            | (Throw e, fs') => (Throw e, fs')
            | (Ok res, fs') => (Ok (success [(KStr "data", VArray res)]), fs')
            end
        else if chosen "find" then
          if empty (VString collection)
          then (Throw (Exception "Collection name required"), fs)
          else
            match find dbPath fs collection (VArray input) with
            | Throw e => (Throw e, fs)
            | Ok res => (Ok (success [(KStr "data", VArray res)]), fs)
            end
        else if chosen "update" then
          let query := input_field input "query" in
          let upd := input_field input "update" in
          match update dbPath fs collection query upd with
          | (Throw e, fs') => (Throw e, fs')
          | (Ok modCount, fs') => (Ok (success [(KStr "modified", VLong modCount)]), fs')
          end
        else if chosen "delete" then
          match delete dbPath fs collection (VArray input) with
          | (Throw e, fs') => (Throw e, fs')
          | (Ok delCount, fs') => (Ok (success [(KStr "deleted", VLong delCount)]), fs')
          end
        else if chosen "drop" then
          match drop dbPath (may_unlink env) fs collection with
          | (Throw e, fs') => (Throw e, fs')
          | (Ok _, fs') => (Ok (success []), fs')
          end
        else (Throw (Exception ("Invalid action: " ++ action)), fs)
    end.

(** The script: an OPTIONS request ends at once; an [Exception] is caught
    and answered with status 500; anything else thrown is not caught. *)
Definition api (env : environment) (fs : filesystem) (req : request)
  : result response * filesystem :=
  if loose_eq (VString (method req)) (VString "OPTIONS")
  then (Ok {| status := 200; printed := None |}, fs)
  else
    match dispatch env fs req with
    | (Ok fields, fs') => (Ok (echo fields), fs')
    | (Throw (Exception msg), fs') => (Ok (send_api_error_response msg), fs')
    | (Throw e, fs') => (Throw e, fs')
    end.

End Handler.

End Api.

(* ================================================================== *)
(** * The rest of the class [DbSimulator]: constructor,
      [getCollections], [createCollection] and [deleteCollection] *)

Module SimulatorCollections.

Import DbSimulator.

(** What [localStorage.getItem(STORAGE_KEY)] gives the constructor:
    nothing (or the empty string), a text [JSON.parse] rejects, a JSON
    value that is null or has no [collections], or a text that
    [JSON.parse] reads as a state. *)
Inductive saved_item : Type :=
| NoItem
| NotJson
| Misshapen
| Saved (text : jtext) (st : DatabaseState).

Definition getCollections (s : simulator) : list Collection :=
  collections (state s).

(** [createCollection(name)]; [now] is [Date.now()]. *)
Definition createCollection (s : simulator) (collectionName : string) (now : Q)
  : result unit * simulator :=
  match find_collection (collections (state s)) collectionName with
  | Some _ => (Ok tt, s)
  | None =>
      save (with_state s
                       {| collections :=
                            (collections (state s)
                             ++ [ {| name := collectionName; documents := [];
                                     createdAt := now |} ])%list |}
                       (next_loc s))
  end.

(** [deleteCollection(name)]. *)
Definition deleteCollection (s : simulator) (collectionName : string)
  : result unit * simulator :=
  save (with_state s
                   {| collections :=
                        filter (fun c => negb (String.eqb (name c) collectionName))
                               (collections (state s)) |}
                   (next_loc s)).

(** The seed documents of the constructor.  The object literal handed
    to [insert] is dropped once spread; its location plays no role. *)
Definition seed_john : jsval :=
  JsObject 0 [("name", JsString "John Doe"); ("email", JsString "john@example.com");
               ("age", JsNumber 30); ("role", JsString "admin")].

Definition seed_jane : jsval :=
  JsObject 0 [("name", JsString "Jane Smith"); ("email", JsString "jane@example.com");
              ("age", JsNumber 25); ("role", JsString "user")].

Definition seed_laptop : jsval :=
  JsObject 0 [("name", JsString "Laptop"); ("price", JsNumber 1200);
              ("stock", JsNumber 15)].

(** What the clock and [Math.random] contribute while seeding. *)
Record seeding : Type := {
  users_now : Q;
  products_now : Q;
  random1 : string;
  random2 : string;
  random3 : string
}.

(** A call whose result is not used and which must not throw to go on. *)
Definition and_then {A : Type} (r : result A * simulator)
           (k : simulator -> result simulator) : result simulator :=
  match r with
  | (Ok _, s) => k s
  | (Throw e, _) => Throw e
  end.

(** [new DbSimulator()], with the store at location [first_loc] on and a
    [localStorage] that takes the texts [fits] holds of. *)
Definition construct (item : saved_item) (first_loc : loc) (seed : seeding)
           (fits : jtext -> bool) : result simulator :=
  match item with
  | NotJson => Throw (SyntaxError "Unexpected token in JSON")
  | Misshapen => Throw (TypeError "Cannot read properties of undefined (reading 'length')")
  | NoItem | Saved _ _ =>
      let st := match item with
                | Saved _ st => st
                | _ => {| collections := [] |}
                end in
      let s := {| state := st;
                  storage := match item with Saved text _ => Some text | _ => None end;
                  next_loc := first_loc;
                  fits := fits |} in
      if Nat.eqb (List.length (collections st)) 0 then
        and_then (createCollection s "users" (users_now seed)) (fun s =>
        and_then (insert s "users" seed_john (random1 seed)) (fun s =>
        and_then (insert s "users" seed_jane (random2 seed)) (fun s =>
        and_then (createCollection s "products" (products_now seed)) (fun s =>
        and_then (insert s "products" seed_laptop (random3 seed)) (fun s =>
        Ok s)))))
      else Ok s
  end.

End SimulatorCollections.

(* ================================================================== *)
(** * Further vocabulary *)

Module Notions.

Import JsonDB Spec.

(** Two rationals with the same numerator and denominator. *)
Definition Q_same (x y : Q) : bool :=
  ((Qnum x =? Qnum y) && Pos.eqb (Qden x) (Qden y))%bool.

(** Values that survive [json_encode] followed by [json_decode]: a float
    is printed as a float; an array is a list, or has distinct keys each
    of which is the key its printed name is read back as. *)
Fixpoint canonical {rt : php_runtime} (v : zval) : bool :=
  match v with
  | VDouble d =>
      match json_of_double d with
      | JReal d' => Q_same d' d
      | _ => false
      end
  | VArray a =>
      ((is_list a
        || (distinct key_eqb (map fst a)
            && forallb (fun k => key_eqb (key_of_string (string_of_key k)) k)
                       (map fst a)))
       && (fix all (a : list (key * zval)) {struct a} : bool :=
             match a with
             | [] => true
             | (_, v') :: r => (canonical v' && all r)%bool
             end) a)%bool
  | _ => true
  end.

(** The keys of an array as PHP keeps them: it is a list, or no key is
    there twice and each is the key its printed name is read back as. *)
Definition php_keys {rt : php_runtime} (a : JsonDB.array) : bool :=
  (is_list a
   || (distinct key_eqb (map fst a)
       && forallb (fun k => key_eqb (key_of_string (string_of_key k)) k)
                  (map fst a)))%bool.

(** A document that is an array has no key twice. *)
Definition keyed (doc : zval) : bool :=
  match doc with
  | VArray a => distinct key_eqb (map fst a)
  | _ => true
  end.

(** The entries of a [$set] or [$unset] operand name the field [_id]. *)
Definition names_id (ops : JsonDB.array) : bool :=
  existsb (fun k => key_eqb k (KStr "_id")) (map fst ops).

(** What a call that throws leaves behind: the files as they were, or,
    when it is the write of [writeCollection] that failed after the file
    of the collection was opened, that file holding what the failed
    write left of it, and everything else as it was. *)
Definition after_failure (dbPath : string) (fs fs' : filesystem) (collection : string)
  : Prop :=
  fs' = fs
  \/ exists path leftover,
      getFilePath dbPath collection = Ok path
      /\ writable fs path = false
      /\ torn fs path = Some leftover
      /\ fs' = with_file fs path (Garbage leftover).

(** An entry [json_encode] takes when what is left of the depth is [d]. *)
Definition encodable_entry (d : nat) (e : key * zval) : bool :=
  (key_utf8 (fst e) && zval_strings (snd e) && Nat.leb (zval_depth (snd e)) d)%bool.

(** A file that is there can be read. *)
Definition readable_if_present (fs : filesystem) (path : string) : bool :=
  match files fs path with
  | Some f => readable f
  | None => true
  end.

(** What [update] makes of a stored document that is an array: the [$set]
    entries assigned in order, then the [$unset] keys removed. *)
Definition updated {rt : php_runtime} (update : zval) (doc : JsonDB.array) : JsonDB.array :=
  fold_left (fun a e => array_unset a (fst e)) (update_ops update "$unset")
            (fold_left (fun a e => array_set a (fst e) (snd e))
                       (update_ops update "$set") doc).


(** A file name: not empty and without a slash. *)
Definition file_name (s : string) : bool :=
  (negb (String.eqb s "")
   && string_forallb (fun c => negb (Ascii.eqb c "/")) s)%bool.

(** The six operator names of [match]. *)
Definition operator_names : list string :=
  ["$eq"; "$ne"; "$gt"; "$lt"; "$regex"; "$in"].

(** The answers of [api.php]: success with status 200, or failure with
    status 500 and a message. *)
Definition is_success {rt : php_runtime} (r : Api.response) : Prop :=
  exists fields,
    r = Api.echo ((KStr "success", VBool true) :: fields).

Definition is_failure {rt : php_runtime} (r : Api.response) (msg : string) : Prop :=
  r = Api.send_api_error_response msg.

Import DbSimulator.

(** [localStorage] holds the text of the state the simulator works on. *)
Definition synced (s : simulator) : Prop :=
  storage s = Some (stringify_state (state s)).

(** How a method that was called on [s] has left [localStorage]: when it
    returned, with the text of the state if it held that of the state
    before; when it threw, as it was, the simulator being unchanged
    unless what was thrown is the refusal of [setItem] to take the text
    of the new state. *)
Definition saved_or_refused {A : Type} (s : simulator) (out : result A * simulator)
  : Prop :=
  match fst out with
  | Ok _ => synced s -> synced (snd out)
  | Throw e =>
      storage (snd out) = storage s
      /\ (snd out = s
          \/ (e = QuotaExceededError "Setting the value exceeded the quota"
              /\ fits s (stringify_state (state (snd out))) = false))
  end.

(** No two collections of the simulator share a name. *)
Definition unique_names (s : simulator) : bool :=
  distinct String.eqb (map name (collections (state s))).

End Notions.

(* ================================================================== *)
(** * More sample data *)

Module Fixtures.

Import JsonDB.

(** The users directory with writing refused. *)
Definition locked_disk : filesystem :=
  {| files := files Sample.users_disk;
     writable := fun _ => false;
     torn := fun _ => None;
     last_error := fun _ => Some "Permission denied" |}.

(** The users directory on a full disk: a file can be opened, which
    empties it, and nothing can be written. *)
Definition full_disk : filesystem :=
  {| files := files Sample.users_disk;
     writable := fun _ => false;
     torn := fun _ => Some "";
     last_error := fun _ =>
       Some "file_put_contents(): Only 0 of 262 bytes written, possibly out of free disk space" |}.

(** A directory without any file. *)
Definition empty_disk : filesystem :=
  {| files := fun _ => None;
     writable := fun _ => true;
     torn := fun _ => None;
     last_error := fun _ => None |}.

(** A web root with a writable [db] directory next to the script. *)
Definition server : Api.environment :=
  {| Api.baseDir := "/srv/www";
     Api.separator := "/"%char;
     Api.core_present := true;
     Api.os := {| Collections.is_dir := fun _ => true;
                  Collections.mkdir := fun _ => false;
                  Collections.mkdir_error := None;
                  Collections.is_writable := fun _ => true |};
     Api.glob := fun _ => Some ["/srv/www/db/users.json"];
     Api.may_unlink := fun _ => true;
     Api.entropy := "65f1c0a2b3d4e";
     Api.PHP_VERSION := "5.6.40";
     Api.upload := Throw (Exception "No file uploaded") |}.

(** The users collection in that directory. *)
Definition served_disk : filesystem :=
  Sample.disk "/srv/www/db/users.json"
              (written (@json_encode Reference.php5 (VArray Sample.users))).

(** That directory on a full disk. *)
Definition served_full_disk : filesystem :=
  {| files := files served_disk;
     writable := fun _ => false;
     torn := fun _ => Some "";
     last_error := fun _ =>
       Some "file_put_contents(): Only 0 of 262 bytes written, possibly out of free disk space" |}.

Definition post (action : string) (collection : option string) (body : content)
  : Api.request :=
  {| Api.method := "POST";
     Api.action := Some action;
     Api.collection := collection;
     Api.input := body |}.

(** Clock and random strings of a first visit. *)
Definition first_visit : SimulatorCollections.seeding :=
  {| SimulatorCollections.users_now := 1700000000000;
     SimulatorCollections.products_now := 1700000000001;
     SimulatorCollections.random1 := "k3j9x2m1q";
     SimulatorCollections.random2 := "p0o9i8u7y";
     SimulatorCollections.random3 := "a1s2d3f4g" |}.

(** The sample browser once its state has been saved. *)
Definition saved_browser : DbSimulator.simulator :=
  snd (DbSimulator.save Sample.browser).

(** The saved browser once [localStorage] has no room left. *)
Definition full_browser : DbSimulator.simulator :=
  {| DbSimulator.state := DbSimulator.state saved_browser;
     DbSimulator.storage := DbSimulator.storage saved_browser;
     DbSimulator.next_loc := DbSimulator.next_loc saved_browser;
     DbSimulator.fits := fun _ => false |}.

End Fixtures.

(* ================================================================== *)
(** * Lists *)

Lemma bind_Ok {A B : Type} (a : A) (k : A -> result B) : bind (Ok a) k = k a.
Proof. reflexivity. Qed.

Lemma filter_length_le {A : Type} (p : A -> bool) (l : list A) :
  (List.length (filter p l) <= List.length l)%nat.
Proof.
  induction l as [ | x r IH]; cbn; [lia | destruct (p x); cbn; lia].
Qed.

Lemma filter_all {A : Type} (p : A -> bool) (l : list A) :
  (forall x, In x l -> p x = true) -> filter p l = l.
Proof.
  induction l as [ | x r IH]; intros H; cbn; [reflexivity | ].
  rewrite (H x) by (left; reflexivity).
  now rewrite IH by (intros y Hy; apply H; right; exact Hy).
Qed.

Lemma filter_none {A : Type} (p : A -> bool) (l : list A) :
  (forall x, In x l -> p x = false) -> filter p l = [].
Proof.
  induction l as [ | x r IH]; intros H; cbn; [reflexivity | ].
  rewrite (H x) by (left; reflexivity).
  apply IH. intros y Hy. apply H. right. exact Hy.
Qed.

Lemma filter_same_length {A : Type} (p : A -> bool) (l : list A) :
  List.length (filter p l) = List.length l -> filter p l = l.
Proof.
  induction l as [ | x r IH]; cbn; [reflexivity | ].
  pose proof (filter_length_le p r) as Hle.
  destruct (p x); cbn; intros E; [f_equal; apply IH; lia | lia].
Qed.

Lemma forallb_pointwise {A : Type} (f g : A -> bool) (l : list A) :
  (forall x, f x = g x) -> forallb f l = forallb g l.
Proof.
  intros H. induction l as [ | x r IH]; cbn; [reflexivity | now rewrite H, IH].
Qed.

Lemma forallb_filter {A : Type} (q p : A -> bool) (l : list A) :
  forallb q l = true -> forallb q (filter p l) = true.
Proof.
  induction l as [ | x r IH]; cbn; [reflexivity | ].
  intros H. apply andb_prop in H as [Hx Hr].
  destruct (p x); cbn; [rewrite Hx; cbn | ]; now apply IH.
Qed.

Lemma distinct_filter {A : Type} (same : A -> A -> bool) (p : A -> bool) (l : list A) :
  distinct same l = true -> distinct same (filter p l) = true.
Proof.
  induction l as [ | x r IH]; cbn; [reflexivity | ].
  intros H. apply andb_prop in H as [Hx Hr].
  destruct (p x); cbn; [ | now apply IH].
  rewrite (forallb_filter _ p r Hx). cbn. now apply IH.
Qed.

(** Appending an element that none of the list is the same as. *)
Lemma distinct_snoc {A : Type} (same : A -> A -> bool) (l : list A) (x : A) :
  distinct same l = true ->
  forallb (fun y => negb (same y x)) l = true ->
  distinct same (l ++ [x])%list = true.
Proof.
  induction l as [ | y r IH]; cbn; [reflexivity | ].
  intros H F. apply andb_prop in H as [Hy Hr]. apply andb_prop in F as [Fy Fr].
  rewrite forallb_app, Hy. cbn. rewrite Fy. cbn. now apply IH.
Qed.

(* ================================================================== *)
(** * Facts about the PHP engine *)

Module JsonDBFacts.

Import JsonDB Spec Notions.

Section Matching.

Context {rt : php_runtime}.

Lemma null_le_any (e : zval) : loose_le VNull e = true.
Proof.
  unfold loose_le.
  destruct e as [ | b | i | d | s | a]; cbn.
  - reflexivity.
  - destruct b; reflexivity.
  - destruct (i =? 0); reflexivity.
  - destruct (Qeq_bool d 0); reflexivity.
  - destruct (String.eqb s ""); reflexivity.
  - destruct a; reflexivity.
Qed.

Lemma null_ge_spec (e : zval) : loose_ge VNull e = null_ge e.
Proof.
  unfold loose_ge, loose_le, null_ge.
  destruct e as [ | b | i | d | s | a]; cbn.
  - reflexivity.
  - destruct b; reflexivity.
  - destruct (i =? 0); reflexivity.
  - destruct (Qeq_bool d 0); reflexivity.
  - destruct (String.eqb s ""); reflexivity.
  - destruct a; reflexivity.
Qed.

Lemma match_gt_clause (doc : zval) (k : key) (e : zval) :
  match_ doc (clause k "$gt" e)
  = Ok (negb (loose_le (field_value doc k) e)).
Proof.
  cbn. destruct (loose_le (field_value doc k) e); reflexivity.
Qed.

Lemma match_lt_clause (doc : zval) (k : key) (e : zval) :
  match_ doc (clause k "$lt" e)
  = Ok (negb (loose_ge (field_value doc k) e)).
Proof.
  cbn. destruct (loose_ge (field_value doc k) e); reflexivity.
Qed.

(** A criteria that is no array is compared with [!==]. *)
Lemma match_plain_criteria (doc : zval) (k : key) (criteria : zval) :
  is_array criteria = false ->
  match_ doc (VArray [(k, criteria)]) = Ok (identical (field_value doc k) criteria).
Proof.
  intros H. cbn.
  destruct criteria; try discriminate H;
    destruct (identical (field_value doc k) _); reflexivity.
Qed.

(** [===] against a scalar is type-and-value equality. *)
Lemma identical_scalar (a c : zval) :
  is_array c = false ->
  identical a c = true <-> same_scalar a c.
Proof.
  intros H.
  destruct c as [ | b | i | d | s | xs]; try discriminate H;
    destruct a as [ | b' | i' | d' | s' | xs']; cbn;
    try (split; [discriminate | intros E; inversion E]);
    try (split; reflexivity).
  - rewrite Bool.eqb_true_iff. split; [intros ->; reflexivity | intros E; now inversion E].
  - rewrite Z.eqb_eq. split; [intros ->; reflexivity | intros E; now inversion E].
  - apply Qeq_bool_iff.
  - rewrite String.eqb_eq. split; [intros ->; reflexivity | intros E; now inversion E].
Qed.

(** An empty array as criteria runs no clause at all. *)
Lemma match_empty_criteria (doc : zval) (k : key) :
  match_ doc (VArray [(k, VArray [])]) = Ok true.
Proof. reflexivity. Qed.

(** ** [$regex] *)

Lemma split_undelimited (p : string) :
  undelimited p = true -> split_pattern p = None.
Proof.
  unfold undelimited, split_pattern.
  destruct (skip_while is_space p) as [ | c r]; [reflexivity | ].
  intros ->. reflexivity.
Qed.

Lemma preg_match_string (p subject : string) :
  exists r, preg_match (VString p) subject = Ok r.
Proof.
  unfold preg_match. cbn [strval].
  destruct (split_pattern p) as [[body modifiers] | ]; [ | eauto].
  destruct (pcre_match body modifiers subject) as [[ | ] | ]; eauto.
Qed.

Lemma match_regex_clause (doc : zval) (k : key) (p : zval) :
  match_ doc (clause k "$regex" p)
  = (r <- preg_match p (strval (field_value doc k)) ;; Ok (zval_is_true r)).
Proof.
  cbn. destruct (preg_match p (strval (field_value doc k))) as [r | e]; cbn;
    [destruct (zval_is_true r); reflexivity | reflexivity].
Qed.

(** Without delimiters the clause fails, whatever the document. *)
Lemma regex_undelimited_fails (doc : zval) (k : key) (p : string) :
  undelimited p = true ->
  match_ doc (clause k "$regex" (VString p)) = Ok false.
Proof.
  intros H. rewrite match_regex_clause.
  unfold preg_match. cbn [strval]. now rewrite (split_undelimited p H).
Qed.

(** A pattern that PCRE rejects, or that has no closing delimiter, is a
    clause that fails; no string pattern makes [match] throw. *)
Lemma regex_string_returns (doc : zval) (k : key) (p : string) :
  exists b, match_ doc (clause k "$regex" (VString p)) = Ok b.
Proof.
  rewrite match_regex_clause.
  destruct (preg_match_string p (strval (field_value doc k))) as [r ->].
  cbn. eauto.
Qed.

Lemma regex_malformed_fails (doc : zval) (k : key) (p : string) :
  match split_pattern p with
  | None => True
  | Some (body, modifiers) =>
      pcre_match body modifiers (strval (field_value doc k)) = None
  end ->
  match_ doc (clause k "$regex" (VString p)) = Ok false.
Proof.
  intros H. rewrite match_regex_clause. unfold preg_match. cbn [strval].
  destruct (split_pattern p) as [[body modifiers] | ]; [ | reflexivity].
  now rewrite H.
Qed.

(** ** [$in] *)

Lemma match_in_clause (doc : zval) (k : key) (operand : zval) :
  match_ doc (clause k "$in" operand)
  = Ok (match operand with
        | VArray haystack => in_array (field_value doc k) haystack
        | _ => false
        end).
Proof.
  cbn. destruct operand; cbn; try reflexivity.
  destruct (in_array (field_value doc k) a); reflexivity.
Qed.

(** The empty query selects every document. *)
Lemma match_empty_query (doc : zval) : match_ doc (VArray []) = Ok true.
Proof. reflexivity. Qed.

(** Under the rules of PHP 5 and 7 nothing in [match] can throw. *)
Lemma preg_match_returns_legacy (p : zval) (subject : string) :
  php8 = false -> returns (preg_match p subject).
Proof.
  intros H. unfold returns, preg_match. rewrite H.
  destruct p; try (destruct (split_pattern _) as [[body modifiers] | ];
                   [destruct (pcre_match body modifiers subject) as [[ | ] | ] | ]);
    eauto.
Qed.

Lemma match_criteria_returns_legacy (value : zval) (criteria : JsonDB.array) :
  php8 = false -> returns (match_criteria value criteria).
Proof.
  intros H. induction criteria as [ | [op expected] rest IH]; cbn [match_criteria].
  - exists true. reflexivity.
  - destruct (op_is op "$eq"); [destruct (negb _); [exists false; reflexivity | exact IH] | ].
    destruct (op_is op "$ne"); [destruct (identical _ _); [exists false; reflexivity | exact IH] | ].
    destruct (op_is op "$gt"); [destruct (loose_le _ _); [exists false; reflexivity | exact IH] | ].
    destruct (op_is op "$lt"); [destruct (loose_ge _ _); [exists false; reflexivity | exact IH] | ].
    destruct (op_is op "$regex").
    { destruct (preg_match_returns_legacy expected (strval value) H) as [r ->]. cbn [bind].
      destruct (negb _); [exists false; reflexivity | exact IH]. }
    destruct (op_is op "$in"); [ | exact IH].
    destruct (_ || _)%bool; [exists false; reflexivity | exact IH].
Qed.

Lemma match_returns_legacy (doc query : zval) :
  php8 = false -> returns (match_ doc query).
Proof.
  intros H. unfold match_. destruct query as [ | | | | | q]; try (exists true; reflexivity).
  induction q as [ | [k criteria] rest IH]; cbn [match_entries].
  - exists true. reflexivity.
  - destruct criteria as [ | | | | | ops];
      try (destruct (negb _); [exists false; reflexivity | exact IH]).
    destruct (match_criteria_returns_legacy (field_value doc k) ops H) as [ok ->].
    cbn [bind]. destruct ok; [exact IH | exists false; reflexivity].
Qed.
End Matching.

Section Arrays.

Lemma key_eqb_refl (k : key) : key_eqb k k = true.
Proof. destruct k; cbn; [apply Z.eqb_refl | apply String.eqb_refl]. Qed.

Lemma key_eqb_eq (k1 k2 : key) : key_eqb k1 k2 = true <-> k1 = k2.
Proof.
  destruct k1, k2; cbn; try (split; discriminate).
  - rewrite Z.eqb_eq. split; [intros ->; reflexivity | now inversion 1].
  - rewrite String.eqb_eq. split; [intros ->; reflexivity | now inversion 1].
Qed.

Lemma array_get_set (a : array) (k : key) (v : zval) :
  array_get (array_set a k v) k = Some v.
Proof.
  induction a as [ | [k' v'] r IH]; cbn.
  - now rewrite key_eqb_refl.
  - destruct (key_eqb k' k) eqn:E; cbn; rewrite E; [reflexivity | exact IH].
Qed.

Lemma array_get_set_other (a : array) (k k' : key) (v : zval) :
  key_eqb k k' = false ->
  array_get (array_set a k v) k' = array_get a k'.
Proof.
  intros H. induction a as [ | [k0 v0] r IH]; cbn.
  - now rewrite H.
  - destruct (key_eqb k0 k) eqn:E; cbn.
    + apply key_eqb_eq in E. subst k0. now rewrite H.
    + destruct (key_eqb k0 k'); [reflexivity | exact IH].
Qed.

Lemma array_get_unset_other (a : array) (k k' : key) :
  key_eqb k k' = false ->
  array_get (array_unset a k) k' = array_get a k'.
Proof.
  intros H. induction a as [ | [k0 v0] r IH]; cbn; [reflexivity | ].
  destruct (key_eqb k0 k) eqn:E; cbn.
  - apply key_eqb_eq in E. subst k0. now rewrite H.
  - destruct (key_eqb k0 k'); [reflexivity | exact IH].
Qed.

(** A property of entries that the new entry has is kept by an
    assignment, and any is kept by [unset]. *)
Lemma forallb_array_set (p : key * zval -> bool) (a : array) (k : key) (v : zval) :
  forallb p a = true -> p (k, v) = true -> forallb p (array_set a k v) = true.
Proof.
  intros Ha Hp. induction a as [ | [k0 v0] r IH]; cbn; [now rewrite Hp | ].
  cbn in Ha. apply andb_prop in Ha as [H0 Hr].
  destruct (key_eqb k0 k) eqn:E; cbn.
  - apply key_eqb_eq in E. subst k0. now rewrite Hp, Hr.
  - now rewrite H0, IH.
Qed.


Lemma keys_array_set (a : array) (k : key) (v : zval) :
  map fst (array_set a k v)
  = if existsb (fun y => key_eqb y k) (map fst a) then map fst a
    else (map fst a ++ [k])%list.
Proof.
  induction a as [ | [k0 v0] r IH]; cbn; [reflexivity | ].
  destruct (key_eqb k0 k) eqn:E; cbn; [reflexivity | ].
  rewrite IH. now destruct (existsb _ _).
Qed.

Lemma distinct_array_set (a : array) (k : key) (v : zval) :
  distinct key_eqb (map fst a) = true ->
  distinct key_eqb (map fst (array_set a k v)) = true.
Proof.
  intros H. rewrite keys_array_set.
  destruct (existsb (fun y => key_eqb y k) (map fst a)) eqn:E; [exact H | ].
  apply distinct_snoc; [exact H | ].
  clear H. induction (map fst a) as [ | y r IH]; [reflexivity | ].
  cbn in E |- *. apply orb_false_elim in E as [E1 E2]. now rewrite E1, IH.
Qed.

Lemma keys_array_unset (a : array) (k : key) :
  distinct key_eqb (map fst a) = true ->
  map fst (array_unset a k) = filter (fun y => negb (key_eqb y k)) (map fst a).
Proof.
  induction a as [ | [k0 v0] r IH]; cbn; [reflexivity | ].
  intros H. apply andb_prop in H as [H0 Hr].
  destruct (key_eqb k0 k) eqn:E; cbn.
  - apply key_eqb_eq in E. subst k0. symmetry. apply filter_all.
    intros y Hy. rewrite forallb_forall in H0. specialize (H0 y Hy).
    destruct (key_eqb y k) eqn:F; [ | reflexivity].
    apply key_eqb_eq in F. subst y. now rewrite key_eqb_refl in H0.
  - now rewrite IH.
Qed.

Lemma distinct_array_unset (a : array) (k : key) :
  distinct key_eqb (map fst a) = true ->
  distinct key_eqb (map fst (array_unset a k)) = true.
Proof.
  intros H. rewrite keys_array_unset by exact H. now apply distinct_filter.
Qed.

Lemma length_list_array_from (i : Z) (vs : list zval) :
  List.length (list_array_from i vs) = List.length vs.
Proof.
  revert i. induction vs as [ | v r IH]; intros i; cbn; [reflexivity | now rewrite IH].
Qed.

Lemma count_list_array (vs : list zval) :
  count (list_array vs) = Z.of_nat (List.length vs).
Proof. unfold count, list_array. now rewrite length_list_array_from. Qed.

Lemma values_list_array_from (i : Z) (vs : list zval) :
  array_values (list_array_from i vs) = vs.
Proof.
  revert i. induction vs as [ | v r IH]; intros i; cbn; [reflexivity | now rewrite IH].
Qed.

Lemma values_list_array (vs : list zval) : array_values (list_array vs) = vs.
Proof. apply values_list_array_from. Qed.

Lemma count_values (a : array) : count a = Z.of_nat (List.length (array_values a)).
Proof. unfold count, array_values. now rewrite length_map. Qed.

Lemma is_list_list_array_from (i : Z) (vs : list zval) :
  is_list_from i (list_array_from i vs) = true.
Proof.
  revert i. induction vs as [ | v r IH]; intros i; cbn; [reflexivity | ].
  now rewrite Z.eqb_refl, IH.
Qed.

Lemma list_array_of_list (i : Z) (a : array) :
  is_list_from i a = true -> list_array_from i (map snd a) = a.
Proof.
  revert i. induction a as [ | [k v] r IH]; intros i; cbn; [reflexivity | ].
  destruct k as [j | s]; [ | discriminate].
  intros H. apply andb_prop in H as [Hj Hr]. apply Z.eqb_eq in Hj. subst j.
  now rewrite IH.
Qed.

Lemma array_set_fresh (acc : array) (k : key) (v : zval) :
  forallb (fun y => negb (key_eqb y k)) (map fst acc) = true ->
  array_set acc k v = (acc ++ [(k, v)])%list.
Proof.
  induction acc as [ | [k0 v0] r IH]; cbn; [reflexivity | ].
  intros H. apply andb_prop in H as [H0 Hr].
  apply negb_true_iff in H0. rewrite H0. now rewrite IH.
Qed.

Lemma fresh_after_push (acc : array) (k : key) (v : zval) (ks : list key) :
  forallb (fun y => negb (key_eqb k y)) ks = true ->
  forallb (fun k' => forallb (fun y => negb (key_eqb y k')) (map fst acc)) ks = true ->
  forallb (fun k' => forallb (fun y => negb (key_eqb y k'))
                             (map fst (acc ++ [(k, v)])%list)) ks = true.
Proof.
  induction ks as [ | k1 r IH]; [reflexivity | ]. cbn [forallb].
  intros Hk Hf. apply andb_prop in Hk as [Hk1 Hk]. apply andb_prop in Hf as [Hf1 Hf].
  rewrite (IH Hk Hf), andb_true_r.
  rewrite map_app, forallb_app, Hf1. cbn. now rewrite Hk1.
Qed.

(** Entries with distinct keys, none of them in [acc], are appended by
    successive assignments. *)
Lemma assign_all_fresh (a acc : array) :
  distinct key_eqb (map fst a) = true ->
  forallb (fun k => forallb (fun y => negb (key_eqb y k)) (map fst acc)) (map fst a) = true ->
  fold_left (fun acc e => array_set acc (fst e) (snd e)) a acc = (acc ++ a)%list.
Proof.
  revert acc. induction a as [ | [k v] r IH]; intros acc Hd Hf; cbn.
  - now rewrite app_nil_r.
  - cbn in Hd, Hf. apply andb_prop in Hd as [Hk Hd]. apply andb_prop in Hf as [Hfk Hf].
    rewrite array_set_fresh by exact Hfk.
    rewrite IH; [now rewrite <- app_assoc | exact Hd | now apply fresh_after_push].
Qed.

Lemma fold_left_mapped {A B C : Type} (f : A -> B -> A) (g : C -> B) (l : list C) (acc : A) :
  fold_left f (map g l) acc = fold_left (fun a x => f a (g x)) l acc.
Proof.
  revert acc. induction l as [ | x r IH]; intros acc; [reflexivity | apply IH].
Qed.

Lemma fold_left_pointwise {A B : Type} (f g : A -> B -> A) (l : list B) (acc : A) :
  Forall (fun x => forall a, f a x = g a x) l ->
  fold_left f l acc = fold_left g l acc.
Proof.
  intros H. revert acc. induction H as [ | x r Hx Hr IH]; intros acc; [reflexivity | ].
  cbn. rewrite Hx. apply IH.
Qed.

End Arrays.

Section Codec.

Context {rt : php_runtime}.

Lemma zval_nested_ind (P : zval -> Prop) :
  P VNull -> (forall b, P (VBool b)) -> (forall i, P (VLong i)) ->
  (forall d, P (VDouble d)) -> (forall s, P (VString s)) ->
  (forall a, Forall (fun e => P (snd e)) a -> P (VArray a)) ->
  forall v, P v.
Proof.
  intros Hn Hb Hl Hd Hs Ha.
  fix IH 1. intros [ | b | i | d | s | a];
    [exact Hn | apply Hb | apply Hl | apply Hd | apply Hs | ].
  apply Ha. induction a as [ | [k v] r IHr]; constructor; [apply IH | exact IHr].
Qed.

Lemma json_nested_ind (P : json -> Prop) :
  P JNull -> (forall b, P (JBool b)) -> (forall i, P (JInt i)) ->
  (forall d, P (JReal d)) -> (forall s, P (JString s)) ->
  (forall items, Forall P items -> P (JArray items)) ->
  (forall members, Forall (fun m => P (snd m)) members -> P (JObject members)) ->
  forall j, P j.
Proof.
  intros Hn Hb Hi Hd Hs Ha Ho.
  fix IH 1. intros [ | b | i | d | s | items | members];
    [exact Hn | apply Hb | apply Hi | apply Hd | apply Hs | | ].
  - apply Ha. induction items as [ | x r IHr]; constructor; [apply IH | exact IHr].
  - apply Ho. induction members as [ | [n x] r IHr]; constructor; [apply IH | exact IHr].
Qed.

(** The nested loops of the codec, as list functions. *)
Lemma zval_strings_array (a : array) :
  zval_strings (VArray a)
  = forallb (fun e => key_utf8 (fst e) && zval_strings (snd e))%bool a.
Proof.
  cbn [zval_strings].
  induction a as [ | [k v] r IH]; [reflexivity | ]. rewrite IH. reflexivity.
Qed.

Lemma zval_depth_array (a : array) :
  zval_depth (VArray a) = S (list_max (map (fun e => zval_depth (snd e)) a)).
Proof.
  cbn [zval_depth]. f_equal.
  induction a as [ | [k v] r IH]; [reflexivity | ]. rewrite IH. reflexivity.
Qed.

Lemma json_strings_array (items : list json) :
  json_strings (JArray items) = forallb json_strings items.
Proof.
  cbn [json_strings].
  induction items as [ | x r IH]; [reflexivity | ]. rewrite IH. reflexivity.
Qed.

Lemma json_strings_object (members : list (string * json)) :
  json_strings (JObject members)
  = forallb (fun m => valid_utf8 (fst m) && json_strings (snd m))%bool members.
Proof.
  cbn [json_strings].
  induction members as [ | [n x] r IH]; [reflexivity | ]. rewrite IH. reflexivity.
Qed.

Lemma json_depth_array (items : list json) :
  json_depth (JArray items) = S (list_max (map json_depth items)).
Proof.
  cbn [json_depth]. f_equal.
  induction items as [ | x r IH]; [reflexivity | ]. rewrite IH. reflexivity.
Qed.

Lemma json_depth_object (members : list (string * json)) :
  json_depth (JObject members)
  = S (list_max (map (fun m => json_depth (snd m)) members)).
Proof.
  cbn [json_depth]. f_equal.
  induction members as [ | [n x] r IH]; [reflexivity | ]. rewrite IH. reflexivity.
Qed.

Lemma encoded_array (a : array) :
  encoded (VArray a)
  = if is_list a
    then JArray (map (fun e => encoded (snd e)) a)
    else JObject (map (fun e => (string_of_key (fst e), encoded (snd e))) a).
Proof.
  cbn [encoded]. destruct (is_list a); f_equal.
  - induction a as [ | [k v] r IH]; [reflexivity | ]. rewrite IH. reflexivity.
  - induction a as [ | [k v] r IH]; [reflexivity | ]. rewrite IH. reflexivity.
Qed.

Lemma decoded_object (members : list (string * json)) :
  decoded (JObject members)
  = VArray (fold_left (fun acc m => array_set acc (key_of_string (fst m))
                                              (decoded (snd m)))
                      members []).
Proof.
  cbn [decoded]. f_equal. generalize (@nil (key * zval)).
  induction members as [ | [n j] r IH]; intros acc; [reflexivity | ].
  rewrite IH. reflexivity.
Qed.

Lemma strings_list_array_from (i : Z) (vs : list zval) :
  zval_strings (VArray (list_array_from i vs)) = forallb zval_strings vs.
Proof.
  rewrite zval_strings_array. revert i.
  induction vs as [ | v r IH]; intros i; [reflexivity | ].
  cbn. now rewrite IH.
Qed.

Lemma depth_list_array_from (i : Z) (vs : list zval) :
  zval_depth (VArray (list_array_from i vs)) = S (list_max (map zval_depth vs)).
Proof.
  rewrite zval_depth_array. f_equal. revert i.
  induction vs as [ | v r IH]; intros i; [reflexivity | ].
  cbn. now rewrite IH.
Qed.

(** A member name is UTF-8 once the key it becomes is. *)
Lemma key_of_string_utf8 (name : string) :
  valid_utf8 name = true -> key_utf8 (key_of_string name) = true.
Proof.
  intros H. unfold key_of_string.
  destruct (NilZero.int_of_string name); [ | exact H].
  destruct (_ && _ && _)%bool; [reflexivity | exact H].
Qed.

(** Reading a key back from its printed name gives the key itself, for
    the keys that decoding produces. *)
Lemma key_of_string_stable (name : string) :
  key_of_string (string_of_key (key_of_string name)) = key_of_string name.
Proof.
  unfold key_of_string at 2.
  destruct (NilZero.int_of_string name) as [d | ] eqn:E; [ | reflexivity].
  destruct (String.eqb (Z_to_string (Z.of_int d)) name
            && (PHP_INT_MIN <=? Z.of_int d) && (Z.of_int d <=? PHP_INT_MAX))%bool eqn:C;
    [ | reflexivity].
  apply andb_prop in C as [C1 C3]. apply andb_prop in C1 as [C1 C2].
  apply String.eqb_eq in C1. cbn [string_of_key]. rewrite C1.
  unfold key_of_string. rewrite E, C2, C3.
  rewrite (proj2 (String.eqb_eq _ _) C1). reflexivity.
Qed.

(** What is decoded has UTF-8 strings only and is no deeper than the
    text. *)
Lemma decoded_strings (j : json) :
  json_strings j = true -> zval_strings (decoded j) = true.
Proof.
  induction j as [ | b | i | d | s | items IH | members IH] using json_nested_ind;
    intros H; try reflexivity; try exact H.
  - cbn [decoded]. unfold list_array. rewrite strings_list_array_from.
    rewrite json_strings_array in H.
    induction items as [ | x r IHr]; [reflexivity | ].
    cbn in H |- *. apply andb_prop in H as [Hx Hr].
    inversion IH as [ | ? ? IHx IHrest]; subst.
    now rewrite (IHx Hx), (IHr IHrest Hr).
  - rewrite decoded_object, zval_strings_array.
    rewrite json_strings_object in H.
    assert (G : forall acc,
               forallb (fun e => key_utf8 (fst e) && zval_strings (snd e))%bool acc = true ->
               forallb (fun e => key_utf8 (fst e) && zval_strings (snd e))%bool
                       (fold_left (fun acc m => array_set acc (key_of_string (fst m))
                                                          (decoded (snd m)))
                                  members acc) = true).
    { induction members as [ | [n x] r IHr]; intros acc Hacc; [exact Hacc | ].
      cbn in H. apply andb_prop in H as [Hx Hr]. apply andb_prop in Hx as [Hn Hx].
      inversion IH as [ | ? ? IHx IHrest]; subst. cbn [snd] in IHx.
      cbn [fold_left fst snd]. apply (IHr IHrest Hr).
      apply forallb_array_set; [exact Hacc | ].
      cbn [fst snd]. now rewrite (key_of_string_utf8 n Hn), (IHx Hx). }
    now apply G.
Qed.

Lemma list_max_map_le {A : Type} (f g : A -> nat) (l : list A) :
  Forall (fun x => (f x <= g x)%nat) l ->
  (list_max (map f l) <= list_max (map g l))%nat.
Proof.
  induction 1 as [ | x r Hx Hr IH]; [reflexivity | ].
  cbn [map]. unfold list_max in *. cbn [fold_right]. lia.
Qed.

Lemma decoded_depth (j : json) : (zval_depth (decoded j) <= json_depth j)%nat.
Proof.
  induction j as [ | b | i | d | s | items IH | members IH] using json_nested_ind;
    try (cbn; lia).
  - cbn [decoded]. unfold list_array. rewrite depth_list_array_from, json_depth_array.
    rewrite map_map. apply le_n_S. now apply list_max_map_le.
  - rewrite decoded_object, zval_depth_array, json_depth_object. apply le_n_S.
    set (n := list_max (map (fun m => json_depth (snd m)) members)).
    assert (Hn : Forall (fun m => (zval_depth (decoded (snd m)) <= n)%nat) members).
    { assert (Hm : Forall (fun k => (k <= n)%nat)
                          (map (fun m => json_depth (snd m)) members))
        by (apply list_max_le; unfold n; lia).
      rewrite Forall_map in Hm. rewrite Forall_forall in IH, Hm |- *.
      intros m Hin. specialize (IH m Hin). specialize (Hm m Hin). lia. }
    clearbody n. apply list_max_le. rewrite Forall_map.
    assert (G : forall acc,
               Forall (fun e => (zval_depth (snd e) <= n)%nat) acc ->
               Forall (fun e => (zval_depth (snd e) <= n)%nat)
                      (fold_left (fun acc m => array_set acc (key_of_string (fst m))
                                                         (decoded (snd m)))
                                 members acc)).
    { clear IH. induction Hn as [ | m r Hm Hr IHr]; intros acc Hacc; [exact Hacc | ].
      cbn [fold_left]. apply IHr.
      rewrite Forall_forall in Hacc |- *.
      assert (Hb : forallb (fun e => Nat.leb (zval_depth (snd e)) n) acc = true)
        by (apply forallb_forall; intros e He; apply Nat.leb_le; now apply Hacc).
      pose proof (forallb_array_set (fun e => Nat.leb (zval_depth (snd e)) n)
                    acc (key_of_string (fst m)) (decoded (snd m)) Hb
                    (proj2 (Nat.leb_le _ _) Hm)) as Hs.
      rewrite forallb_forall in Hs. intros e He. apply Nat.leb_le. now apply Hs. }
    apply G. constructor.
Qed.

(** [json_encode] succeeds exactly on values with UTF-8 strings within
    the depth, and then gives the encoding. *)
Lemma json_encode_spec (v : zval) (j : json) :
  json_encode v = Some j
  <-> (zval_strings v = true /\ (zval_depth v <= JSON_DEPTH)%nat /\ j = encoded v).
Proof.
  unfold json_encode. destruct (zval_strings v); cbn [andb].
  - destruct (Nat.leb_spec (zval_depth v) JSON_DEPTH) as [L | L].
    + split; [intros E; inversion E; auto | intros (_ & _ & ->); reflexivity].
    + split; [discriminate | intros (_ & L' & _); lia].
  - split; [discriminate | intros (E & _); discriminate E].
Qed.

Lemma json_encode_none (v : zval) :
  json_encode v = None
  <-> (zval_strings v = false \/ (JSON_DEPTH < zval_depth v)%nat).
Proof.
  unfold json_encode. destruct (zval_strings v); cbn [andb].
  - destruct (Nat.leb_spec (zval_depth v) JSON_DEPTH) as [L | L].
    + split; [discriminate | intros [E | E]; [discriminate E | lia]].
    + split; [intros _; now right | reflexivity].
  - split; [intros _; now left | reflexivity].
Qed.

(** What [json_decode] returns can be encoded again. *)
Lemma json_decode_encodable (j : json) :
  zval_strings (json_decode j) = true
  /\ (zval_depth (json_decode j) <= JSON_DEPTH)%nat.
Proof.
  unfold json_decode.
  destruct (json_strings j) eqn:S; cbn [andb]; [ | split; [reflexivity | cbn; lia]].
  destruct (Nat.leb_spec (json_depth j) JSON_DEPTH) as [L | L];
    [ | split; [reflexivity | cbn; lia]].
  split; [now apply decoded_strings | ].
  pose proof (decoded_depth j). lia.
Qed.

(** The values of an array that can be encoded can be, and so can any
    list of them. *)
Lemma encodable_values (a : array) (vs : list zval) :
  zval_strings (VArray a) = true ->
  (zval_depth (VArray a) <= JSON_DEPTH)%nat ->
  incl vs (array_values a) ->
  zval_strings (VArray (list_array vs)) = true
  /\ (zval_depth (VArray (list_array vs)) <= JSON_DEPTH)%nat.
Proof.
  intros Hs Hd Hi. unfold list_array.
  rewrite strings_list_array_from, depth_list_array_from.
  rewrite zval_strings_array in Hs. rewrite zval_depth_array in Hd.
  rewrite forallb_forall in Hs.
  assert (Hv : forall v, In v vs ->
                         zval_strings v = true
                         /\ (zval_depth v <= list_max (map (fun e => zval_depth (snd e)) a))%nat).
  { intros v Hin. apply Hi in Hin. unfold array_values in Hin.
    apply in_map_iff in Hin as ([k v'] & <- & He). cbn [snd]. split.
    - specialize (Hs _ He). now apply andb_prop in Hs as [_ Hs].
    - assert (Hm : Forall (fun n => (n <= list_max (map (fun e => zval_depth (snd e)) a))%nat)
                          (map (fun e => zval_depth (snd e)) a))
        by (apply list_max_le; lia).
      rewrite Forall_map, Forall_forall in Hm. exact (Hm _ He). }
  split.
  - apply forallb_forall. intros v Hin. now apply Hv.
  - assert (Hle : (list_max (map zval_depth vs)
                   <= list_max (map (fun e => zval_depth (snd e)) a))%nat).
    { apply list_max_le. rewrite Forall_map. apply Forall_forall.
      intros v Hin. now apply Hv. }
    lia.
Qed.

End Codec.

Section Store.

Context {rt : php_runtime}.

Variable dbPath : string.

Lemma readCollection_table (fs : filesystem) (collection path : string) :
  getFilePath dbPath collection = Ok path ->
  readCollection dbPath fs collection = Ok (table_of fs path).
Proof.
  intros H. unfold readCollection, table_of. rewrite H. cbn.
  unfold file_exists, file_get_contents.
  destruct (files fs path) as [f | ]; cbn; [ | reflexivity].
  destruct (readable f); [ | reflexivity].
  destruct (decode_content (body f)); reflexivity.
Qed.

Lemma readCollection_inv (fs : filesystem) (collection : string) (data : array) :
  readCollection dbPath fs collection = Ok data ->
  exists path, getFilePath dbPath collection = Ok path /\ data = table_of fs path.
Proof.
  intros H. destruct (getFilePath dbPath collection) as [path | e] eqn:E.
  - exists path. split; [reflexivity | ].
    rewrite (readCollection_table fs collection E) in H. now inversion H.
  - unfold readCollection in H. rewrite E in H. discriminate H.
Qed.

(** A table that is not empty comes from a readable file. *)
Lemma table_nonempty_readable (fs : filesystem) (path : string) :
  table_of fs path <> [] ->
  exists f, files fs path = Some f /\ readable f = true.
Proof.
  unfold table_of, file_get_contents.
  destruct (files fs path) as [f | ]; [ | intros H; now elim H].
  destruct (readable f) eqn:R; intros H; [exists f; split; [reflexivity | exact R] | now elim H].
Qed.

(** What is read from a file can be encoded again. *)
Lemma table_encodable (fs : filesystem) (path : string) :
  zval_strings (VArray (table_of fs path)) = true
  /\ (zval_depth (VArray (table_of fs path)) <= JSON_DEPTH)%nat.
Proof.
  assert (E : zval_strings (VArray []) = true
              /\ (zval_depth (VArray []) <= JSON_DEPTH)%nat)
    by (split; [reflexivity | cbn; unfold JSON_DEPTH; lia]).
  unfold table_of. destruct (file_get_contents fs path) as [[j | raw] | ];
    cbn [decode_content]; try exact E.
  pose proof (json_decode_encodable j) as H.
  destruct (json_decode j); try exact E. exact H.
Qed.

Lemma table_values_encode (fs : filesystem) (path : string) (vs : list zval) :
  incl vs (array_values (table_of fs path)) ->
  json_encode (VArray (list_array vs)) = Some (encoded (VArray (list_array vs))).
Proof.
  intros Hi. destruct (table_encodable fs path) as [Hs Hd].
  destruct (encodable_values Hs Hd Hi) as [Hs' Hd'].
  apply json_encode_spec. auto.
Qed.

(** ** The file after a write *)

Lemma stored_with_file (fs : filesystem) (path : string) (c : content) :
  stored (with_file fs path c) path = Some c.
Proof. unfold stored, with_file. cbn. now rewrite String.eqb_refl. Qed.

Lemma files_with_file (fs : filesystem) (path p : string) (c : content) :
  p <> path -> files (with_file fs path c) p = files fs p.
Proof. intros H. cbn. apply String.eqb_neq in H. now rewrite H. Qed.

Lemma table_of_with_file (fs : filesystem) (path : string) (c : content) :
  table_of (with_file fs path c) path
  = if readable_if_present fs path
    then match decode_content c with VArray t => t | _ => [] end
    else [].
Proof.
  unfold table_of, file_get_contents, readable_if_present, with_file. cbn.
  rewrite String.eqb_refl.
  destruct (files fs path) as [f | ]; [destruct (readable f) | ]; reflexivity.
Qed.

Lemma writeCollection_ok (fs : filesystem) (collection path : string) (data : array) :
  getFilePath dbPath collection = Ok path ->
  writable fs path = true ->
  exists fs',
    writeCollection dbPath fs collection data = (Ok tt, fs')
    /\ fs' = with_file fs path (written (json_encode (VArray data)))
    /\ stored fs' path = Some (written (json_encode (VArray data)))
    /\ (forall p, p <> path -> files fs' p = files fs p).
Proof.
  intros H W. unfold writeCollection, file_put_contents. rewrite H, W.
  eexists. split; [reflexivity | ]. split; [reflexivity | ].
  split; [apply stored_with_file | intros p Hp; now apply files_with_file].
Qed.

(** When [writeCollection] throws, the files are as before, or the
    file of the collection has been cut short by the failed write. *)
Lemma writeCollection_throw (fs fs' : filesystem) (collection : string)
      (data : array) (e : exn) :
  writeCollection dbPath fs collection data = (Throw e, fs') ->
  fs' = fs
  \/ exists path leftover,
      getFilePath dbPath collection = Ok path
      /\ writable fs path = false
      /\ torn fs path = Some leftover
      /\ fs' = with_file fs path (Garbage leftover)
      /\ e = Exception ("Failed to write to data store: "
                        ++ match last_error fs path with
                           | Some m => m
                           | None => "Write failed"
                           end).
Proof.
  unfold writeCollection, file_put_contents.
  destruct (getFilePath dbPath collection) as [path | e0]; [ | inversion 1; now left].
  destruct (writable fs path) eqn:W; [discriminate | ].
  destruct (torn fs path) as [leftover | ] eqn:T; [ | inversion 1; now left].
  destruct (written (json_encode (VArray data))) as [j | [ | c r]];
    intros E; inversion E; subst; right; exists path, leftover; auto.
Qed.

(** Where the file cannot be opened, a failed write leaves everything
    as it was. *)
Lemma writeCollection_refused (fs : filesystem) (collection path : string)
      (data : array) :
  getFilePath dbPath collection = Ok path ->
  writable fs path = false ->
  torn fs path = None ->
  exists msg, writeCollection dbPath fs collection data = (Throw (Exception msg), fs).
Proof.
  intros H W T. unfold writeCollection, file_put_contents. rewrite H, W, T. eauto.
Qed.

(** The loop of [delete] keeps the documents that do not satisfy the
    query, in their order. *)
Lemma delete_loop_filter (data : array) (query : zval) :
  Forall (fun d => returns (match_ d query)) (array_values data) ->
  delete_loop data query
  = Ok (filter (fun d => negb (satisfies query d)) (array_values data)).
Proof.
  induction data as [ | [idx doc] rest IH]; intros H; cbn; [reflexivity | ].
  inversion H as [ | ? ? [b Hb] Hrest]; subst.
  assert (Hs : satisfies query doc = b) by (unfold satisfies; now rewrite Hb).
  rewrite IH by assumption. rewrite Hb, Hs. reflexivity.
Qed.

Lemma find_loop_filter (data : array) (query : zval) :
  Forall (fun d => returns (match_ d query)) (array_values data) ->
  find_loop data query
  = Ok (filter (satisfies query) (array_values data)).
Proof.
  induction data as [ | [idx doc] rest IH]; intros H; cbn; [reflexivity | ].
  inversion H as [ | ? ? [b Hb] Hrest]; subst.
  assert (Hs : satisfies query doc = b) by (unfold satisfies; now rewrite Hb).
  rewrite IH by assumption. rewrite Hb, Hs. reflexivity.
Qed.

Lemma update_loop_no_match (data : array) (query upd : zval) :
  (forall d, In d (array_values data) -> match_ d query = Ok false) ->
  update_loop data query upd = Ok (data, 0).
Proof.
  induction data as [ | [idx doc] rest IH]; intros H; cbn; [reflexivity | ].
  rewrite (H doc) by (left; reflexivity). cbn.
  rewrite IH by (intros d Hd; apply H; right; exact Hd). reflexivity.
Qed.

Lemma incl_filter {A : Type} (p : A -> bool) (l : list A) : incl (filter p l) l.
Proof. intros x Hx. now apply filter_In in Hx. Qed.

(** [delete], once the name is accepted, every evaluation of [match]
    returns and the file can be written: the kept documents are encoded,
    which cannot fail for documents that were decoded, and written. *)
Lemma delete_spec (fs : filesystem) (collection path : string) (query : zval) :
  getFilePath dbPath collection = Ok path ->
  Forall (fun d => returns (match_ d query)) (array_values (table_of fs path)) ->
  writable fs path = true ->
  let data := table_of fs path in
  let kept := filter (fun d => negb (satisfies query d)) (array_values data) in
  let deleted := count data - Z.of_nat (List.length kept) in
  exists fs',
    delete dbPath fs collection query = (Ok deleted, fs')
    /\ 0 <= deleted
    /\ (0 < deleted ->
        json_encode (VArray (list_array kept)) = Some (encoded (VArray (list_array kept)))
        /\ fs' = with_file fs path (Text (encoded (VArray (list_array kept))))
        /\ readable_if_present fs path = true)
    /\ (deleted = 0 -> fs' = fs /\ kept = array_values data).
Proof.
  intros Hp Hm Hw data kept deleted.
  assert (Hle : (List.length kept <= List.length (array_values data))%nat)
    by apply filter_length_le.
  assert (Hd : 0 <= deleted) by (unfold deleted; rewrite count_values; lia).
  assert (He : json_encode (VArray (list_array kept))
               = Some (encoded (VArray (list_array kept))))
    by (apply (table_values_encode fs path); apply incl_filter).
  unfold delete. rewrite (readCollection_table fs collection Hp).
  fold data. rewrite (delete_loop_filter data query Hm). fold kept.
  rewrite count_list_array. fold deleted.
  destruct (0 <? deleted) eqn:E.
  - apply Z.ltb_lt in E.
    destruct (writeCollection_ok fs collection (list_array kept) Hp Hw)
      as (fs' & Hwr & Hfs & _).
    exists fs'. rewrite Hwr. split; [reflexivity | ]. split; [exact Hd | ].
    split; [ | lia]. intros _. split; [exact He | ].
    rewrite He in Hfs. split; [exact Hfs | ].
    assert (Hne : table_of fs path <> []).
    { intros Hnil. fold data in Hnil. unfold deleted in E. rewrite Hnil in E.
      cbn in E. lia. }
    destruct (table_nonempty_readable fs path Hne) as (f & Hf & Hr).
    unfold readable_if_present. now rewrite Hf.
  - apply Z.ltb_ge in E. exists fs. split; [reflexivity | ]. split; [exact Hd | ].
    split; [lia | ]. intros _. split; [reflexivity | ].
    apply filter_same_length. fold kept.
    unfold deleted in *. rewrite count_values in *. lia.
Qed.

Lemma delete_no_match (fs : filesystem) (collection : string) (query : zval)
      (data : array) :
  readCollection dbPath fs collection = Ok data ->
  (forall d, In d (array_values data) -> match_ d query = Ok false) ->
  delete dbPath fs collection query = (Ok 0, fs).
Proof.
  intros Hr Hm. unfold delete. rewrite Hr.
  rewrite delete_loop_filter.
  - rewrite filter_all.
    + rewrite count_list_array, count_values, Z.sub_diag. reflexivity.
    + intros d Hd. unfold satisfies. now rewrite (Hm d Hd).
  - apply Forall_forall. intros d Hd. exists false. now apply Hm.
Qed.

Lemma update_no_match (fs : filesystem) (collection : string) (query upd : zval)
      (data : array) :
  readCollection dbPath fs collection = Ok data ->
  (forall d, In d (array_values data) -> match_ d query = Ok false) ->
  update dbPath fs collection query upd = (Ok 0, fs).
Proof.
  intros Hr Hm. unfold update. rewrite Hr.
  now rewrite (update_loop_no_match data query upd Hm).
Qed.

(** [find] with the empty query returns the table as it is read. *)
Lemma find_all (fs : filesystem) (collection path : string) :
  getFilePath dbPath collection = Ok path ->
  find dbPath fs collection (VArray []) = Ok (table_of fs path).
Proof.
  intros Hp. unfold find. cbn [identical].
  now rewrite (readCollection_table fs collection Hp).
Qed.

(** After [delete] with the empty query nothing is left to find. *)
Lemma delete_all_then_find (fs : filesystem) (collection path : string) :
  getFilePath dbPath collection = Ok path ->
  writable fs path = true ->
  exists fs',
    delete dbPath fs collection (VArray []) = (Ok (count (table_of fs path)), fs')
    /\ find dbPath fs' collection (VArray []) = Ok [].
Proof.
  intros Hp Hw.
  assert (Hm : Forall (fun d => returns (match_ d (VArray [])))
                      (array_values (table_of fs path))).
  { apply Forall_forall. intros d _. exists true. reflexivity. }
  destruct (delete_spec fs collection (VArray []) Hp Hm Hw)
    as (fs' & Hdel & _ & Hpos & Hzero).
  assert (Hk : filter (fun d => negb (satisfies (VArray []) d))
                      (array_values (table_of fs path)) = []).
  { apply filter_none. intros d _. reflexivity. }
  rewrite Hk in *. cbn [List.length Z.of_nat] in *. rewrite Z.sub_0_r in *.
  exists fs'. split; [exact Hdel | ].
  rewrite (find_all fs' collection Hp).
  destruct (Z.eq_dec (count (table_of fs path)) 0) as [E | E].
  - destruct (Hzero E) as [-> Hv]. f_equal.
    destruct (table_of fs path); [reflexivity | discriminate Hv].
  - assert (Hgt : 0 < count (table_of fs path)) by (unfold count in *; lia).
    destruct (Hpos Hgt) as (_ & -> & Hr).
    rewrite table_of_with_file, Hr. reflexivity.
Qed.

(** ** [insert] *)

Lemma stamped_isset (document : array) (entropy : string) :
  isset (stamped document entropy) (KStr "_id") = true.
Proof.
  unfold stamped. destruct (isset document (KStr "_id")) eqn:E; cbn; [exact E | ].
  unfold isset. now rewrite array_get_set.
Qed.

(** [insert] when the document can be appended and the file written. *)
Lemma insert_spec (fs : filesystem) (collection path : string) (document : array)
      (entropy : string) (data' : array) :
  getFilePath dbPath collection = Ok path ->
  writable fs path = true ->
  array_push (table_of fs path) (VArray (stamped document entropy)) = Some data' ->
  exists fs',
    insert dbPath fs collection document entropy
    = (Ok (stamped document entropy), fs')
    /\ fs' = with_file fs path (written (json_encode (VArray data')))
    /\ stored fs' path = Some (written (json_encode (VArray data'))).
Proof.
  intros Hp Hw Ha. unfold insert. rewrite (readCollection_table fs collection Hp).
  fold (stamped document entropy). rewrite Ha.
  destruct (writeCollection_ok fs collection data' Hp Hw) as (fs' & Hwr & Hfs & Hst & _).
  exists fs'. rewrite Hwr. auto.
Qed.

(** [insert] when the table has the last index there is. *)
Lemma insert_full (fs : filesystem) (collection path : string) (document : array)
      (entropy : string) :
  getFilePath dbPath collection = Ok path ->
  array_push (table_of fs path) (VArray (stamped document entropy)) = None ->
  insert dbPath fs collection document entropy
  = if php8
    then (Throw (Fatal "Cannot add element to the array as the next element is already occupied"),
          fs)
    else match writeCollection dbPath fs collection (table_of fs path) with
         | (Throw e, fs') => (Throw e, fs')
         | (Ok _, fs') => (Ok (stamped document entropy), fs')
         end.
Proof.
  intros Hp Ha. unfold insert. rewrite (readCollection_table fs collection Hp).
  fold (stamped document entropy). now rewrite Ha.
Qed.

(** ** Soft failure of [readCollection] *)

Lemma no_table_decodes_empty (c : content) :
  no_table c = true ->
  match decode_content c with VArray data => data | _ => [] end = [].
Proof.
  destruct c as [j | raw]; [ | reflexivity].
  cbn [decode_content]. unfold json_decode.
  destruct (_ && _)%bool; [ | reflexivity].
  destruct j; cbn; intros H; try reflexivity; discriminate H.
Qed.

Lemma table_of_soft (fs : filesystem) (path : string) :
  (files fs path = None
   \/ exists f, files fs path = Some f
                /\ (readable f = false \/ no_table (body f) = true)) ->
  table_of fs path = [].
Proof.
  unfold table_of, file_get_contents.
  intros [-> | (f & -> & [-> | H])]; [reflexivity | reflexivity | ].
  destruct (readable f); [now apply no_table_decodes_empty | reflexivity].
Qed.

Lemma find_empty_table (fs : filesystem) (collection path : string) (query : zval) :
  getFilePath dbPath collection = Ok path ->
  table_of fs path = [] ->
  find dbPath fs collection query = Ok [].
Proof.
  intros Hp Ht. unfold find. rewrite (readCollection_table fs collection Hp), Ht.
  cbn. destruct (empty _); reflexivity.
Qed.

End Store.

(** ** Tables as they are written and read back *)

Section Tables.

Context {rt : php_runtime}.

Lemma forallb_keys (P : key -> bool) (a : array) :
  forallb P (map fst a) = forallb (fun e => P (fst e)) a.
Proof. induction a as [ | e r IH]; cbn; [reflexivity | now rewrite IH]. Qed.

Lemma keys_map_values (f : zval -> zval) (a : array) :
  map fst (map (fun e => (fst e, f (snd e))) a) = map fst a.
Proof. rewrite map_map. reflexivity. Qed.

Lemma values_map_values (f : zval -> zval) (a : array) :
  array_values (map (fun e => (fst e, f (snd e))) a) = map f (array_values a).
Proof. unfold array_values. now rewrite !map_map. Qed.

Lemma list_keys_above (i : Z) (a : array) :
  is_list_from i a = true ->
  Forall (fun k => exists j, k = KInt j /\ i <= j) (map fst a).
Proof.
  revert i. induction a as [ | [k v] r IH]; intros i; cbn; [constructor | ].
  destruct k as [j | s]; [ | discriminate].
  intros H. apply andb_prop in H as [Hj Hr]. apply Z.eqb_eq in Hj. subst j.
  constructor; [exists i; split; [reflexivity | lia] | ].
  eapply Forall_impl; [ | apply (IH _ Hr)]. cbn.
  intros k (j & -> & Hj). exists j. split; [reflexivity | lia].
Qed.

Lemma is_list_distinct (i : Z) (a : array) :
  is_list_from i a = true -> distinct key_eqb (map fst a) = true.
Proof.
  revert i. induction a as [ | [k v] r IH]; intros i; cbn; [reflexivity | ].
  destruct k as [j | s]; [ | discriminate].
  intros H. apply andb_prop in H as [Hj Hr]. apply Z.eqb_eq in Hj. subst j.
  rewrite (IH _ Hr), andb_true_r.
  apply forallb_forall. intros k Hk.
  pose proof (list_keys_above _ _ Hr) as Hab.
  rewrite Forall_forall in Hab. destruct (Hab k Hk) as (j & -> & Hj).
  cbn. apply negb_true_iff, Z.eqb_neq. lia.
Qed.

Lemma php_keys_distinct (a : array) :
  php_keys a = true -> distinct key_eqb (map fst a) = true.
Proof.
  unfold php_keys. destruct (is_list a) eqn:L; cbn.
  - intros _. now apply (is_list_distinct 0).
  - intros H. now apply andb_prop in H as [H _].
Qed.

Lemma is_list_from_keys (i : Z) (a b : array) :
  map fst a = map fst b -> is_list_from i a = is_list_from i b.
Proof.
  revert i b. induction a as [ | [k v] r IH]; intros i [ | [k' v'] r'] E;
    try discriminate E; [reflexivity | ].
  cbn in E. inversion E; subst. cbn. destruct k'; [ | reflexivity].
  now rewrite (IH (i + 1) r').
Qed.

Lemma php_keys_same_keys (a b : array) :
  map fst a = map fst b -> php_keys a = php_keys b.
Proof.
  intros E. unfold php_keys, is_list. now rewrite (is_list_from_keys 0 a b E), E.
Qed.

Lemma string_key_of_list (i : Z) (a : array) (name : string) :
  is_list_from i a = true -> array_get a (KStr name) = None.
Proof.
  revert i. induction a as [ | [k v] r IH]; intros i; cbn; [reflexivity | ].
  destruct k as [j | s]; [ | discriminate].
  intros H. apply andb_prop in H as [_ Hr]. cbn. now apply (IH (i + 1)).
Qed.

Lemma array_get_absent (a : array) (k : key) :
  forallb (fun y => negb (key_eqb k y)) (map fst a) = true ->
  array_get a k = None.
Proof.
  induction a as [ | [k0 v0] r IH]; cbn; [reflexivity | ].
  intros H. apply andb_prop in H as [H0 Hr]. apply negb_true_iff in H0.
  destruct (key_eqb k0 k) eqn:E; [ | now apply IH].
  apply key_eqb_eq in E. subst k0. now rewrite key_eqb_refl in H0.
Qed.

Lemma In_array_set (a : array) (k : key) (v : zval) (e : key * zval) :
  In e (array_set a k v) -> e = (k, v) \/ In e a.
Proof.
  induction a as [ | [k0 v0] r IH]; cbn.
  - intros [<- | []]. now left.
  - destruct (key_eqb k0 k) eqn:E; cbn.
    + apply key_eqb_eq in E. subst k0. intros [<- | H]; [now left | right; now right].
    + intros [<- | H]; [right; now left | ].
      destruct (IH H) as [-> | H']; [now left | right; now right].
Qed.

(** *** What decoding gives *)

Lemma decoded_object_keys (members : list (string * json)) (acc : array) :
  distinct key_eqb (map fst acc) = true ->
  forallb (fun k => key_eqb (key_of_string (string_of_key k)) k) (map fst acc) = true ->
  let a := fold_left (fun acc m => array_set acc (key_of_string (fst m))
                                             (decoded (snd m))) members acc in
  distinct key_eqb (map fst a) = true
  /\ forallb (fun k => key_eqb (key_of_string (string_of_key k)) k) (map fst a) = true.
Proof.
  revert acc. induction members as [ | [n j] r IH]; intros acc Hd Hs; cbn; [auto | ].
  apply IH; [now apply distinct_array_set | ].
  rewrite keys_array_set. destruct (existsb _ _); [exact Hs | ].
  rewrite forallb_app, Hs. cbn. now rewrite key_of_string_stable, key_eqb_refl.
Qed.

Lemma decoded_object_values (members : list (string * json)) (acc : array) :
  Forall (fun e => exists j, snd e = decoded j) acc ->
  Forall (fun e => exists j, snd e = decoded j)
         (fold_left (fun acc m => array_set acc (key_of_string (fst m))
                                            (decoded (snd m))) members acc).
Proof.
  revert acc. induction members as [ | [n j] r IH]; intros acc H; cbn; [exact H | ].
  apply IH. apply Forall_forall. intros e He.
  destruct (In_array_set _ _ _ _ He) as [-> | Hin]; [now exists j | ].
  rewrite Forall_forall in H. now apply H.
Qed.

Lemma decoded_php_keys (j : json) (a : array) :
  decoded j = VArray a -> php_keys a = true.
Proof.
  destruct j; try discriminate.
  - cbn [decoded]. intros E. inversion E; subst.
    unfold php_keys, is_list, list_array. now rewrite is_list_list_array_from.
  - rewrite decoded_object. intros E. inversion E; subst. unfold php_keys.
    destruct (decoded_object_keys members [] eq_refl eq_refl) as [Hd Hs].
    rewrite Hd, Hs. apply orb_true_r.
Qed.

Lemma decoded_values (j : json) (a : array) (d : zval) :
  decoded j = VArray a -> In d (array_values a) -> exists j', d = decoded j'.
Proof.
  destruct j; try discriminate.
  - cbn [decoded]. intros E. inversion E; subst. rewrite values_list_array.
    intros H. apply in_map_iff in H as (j' & <- & _). now exists j'.
  - rewrite decoded_object. intros E. inversion E; subst.
    intros H. apply in_map_iff in H as (e & <- & He).
    pose proof (decoded_object_values members (acc := []) (Forall_nil _)) as F.
    rewrite Forall_forall in F. now apply F.
Qed.

(** A table is empty or the array some text is decoded to. *)
Lemma table_of_decoded (fs : filesystem) (path : string) :
  table_of fs path = [] \/ exists j, decoded j = VArray (table_of fs path).
Proof.
  unfold table_of. destruct (file_get_contents fs path) as [[j | raw] | ];
    cbn [decode_content]; try (now left).
  unfold json_decode. destruct (_ && _)%bool; [ | now left].
  destruct (decoded j) eqn:E; try (now left). right. now exists j.
Qed.

Lemma table_php_keys (fs : filesystem) (path : string) :
  php_keys (table_of fs path) = true.
Proof.
  destruct (table_of_decoded fs path) as [-> | [j E]]; [reflexivity | ].
  now apply (decoded_php_keys j).
Qed.

Lemma table_keyed (fs : filesystem) (path : string) :
  forallb keyed (array_values (table_of fs path)) = true.
Proof.
  destruct (table_of_decoded fs path) as [-> | [j E]]; [reflexivity | ].
  apply forallb_forall. intros d Hd.
  destruct (decoded_values j _ E Hd) as [j' ->].
  unfold keyed. destruct (decoded j') eqn:E'; try reflexivity.
  apply php_keys_distinct. now apply (decoded_php_keys j').
Qed.

(** *** Encoding and decoding again *)

(** An array is read back with its keys, each value read back in turn. *)
Lemma reread_array (a : array) :
  php_keys a = true ->
  decoded (encoded (VArray a))
  = VArray (map (fun e => (fst e, decoded (encoded (snd e)))) a).
Proof.
  intros Hk. rewrite encoded_array. destruct (is_list a) eqn:L.
  - cbn [decoded]. f_equal. rewrite map_map. unfold list_array.
    replace (map (fun e : key * zval => decoded (encoded (snd e))) a)
      with (map snd (map (fun e : key * zval => (fst e, decoded (encoded (snd e)))) a))
      by (now rewrite map_map).
    apply list_array_of_list.
    rewrite (is_list_from_keys 0 _ a); [exact L | apply (keys_map_values (fun v => decoded (encoded v)))].
  - unfold php_keys in Hk. rewrite L in Hk. cbn [orb] in Hk.
    apply andb_prop in Hk as [Hd Hs].
    rewrite decoded_object. f_equal. rewrite fold_left_mapped. cbn [fst snd].
    rewrite fold_left_pointwise
      with (g := fun acc e => array_set acc (fst e) (decoded (encoded (snd e)))).
    + transitivity
        (fold_left (fun acc e => array_set acc (fst e) (snd e))
                   (map (fun e : key * zval => (fst e, decoded (encoded (snd e)))) a) []);
        [now rewrite fold_left_mapped | ].
      rewrite assign_all_fresh;
        [reflexivity
        | now rewrite (keys_map_values (fun v => decoded (encoded v)))
        | ].
      apply forallb_forall. intros k _. reflexivity.
    + rewrite forallb_keys in Hs. rewrite forallb_forall in Hs.
      apply Forall_forall. intros e He acc.
      specialize (Hs e He). apply key_eqb_eq in Hs. now rewrite Hs.
Qed.

Lemma garbage_table (fs : filesystem) (path raw : string) :
  table_of (with_file fs path (Garbage raw)) path = [].
Proof.
  rewrite table_of_with_file. now destruct (readable_if_present fs path).
Qed.

(** What is read from a file just written: nothing, or the table with
    each document read back. *)
Lemma written_table (fs : filesystem) (path : string) (data : array) :
  php_keys data = true ->
  let t := table_of (with_file fs path (written (json_encode (VArray data)))) path in
  t = [] \/ t = map (fun e => (fst e, decoded (encoded (snd e)))) data.
Proof.
  intros Hk t. subst t. rewrite table_of_with_file.
  destruct (readable_if_present fs path); [ | now left].
  unfold json_encode. destruct (_ && _)%bool; cbn [written decode_content]; [ | now left].
  unfold json_decode. destruct (_ && _)%bool; [ | now left].
  rewrite (reread_array data Hk). now right.
Qed.

(** *** The field [_id] *)

Lemma int_of_Z_to_string (i : Z) :
  NilZero.int_of_string (Z_to_string i) = Some (Z.to_int i).
Proof.
  unfold Z_to_string. apply NilZero.isi; destruct i; cbn; try discriminate;
    intros E; inversion E as [E']; now apply DecimalPos.Unsigned.to_uint_nonnil in E'.
Qed.

Lemma key_of_string_id (k : key) :
  key_eqb (key_of_string (string_of_key k)) (KStr "_id") = key_eqb k (KStr "_id").
Proof.
  destruct k as [i | n]; cbn [string_of_key].
  - unfold key_of_string. rewrite int_of_Z_to_string.
    destruct (_ && _ && _)%bool; [reflexivity | ]. cbn [key_eqb].
    destruct (String.eqb_spec (Z_to_string i) "_id") as [E | E]; [ | reflexivity].
    pose proof (int_of_Z_to_string i) as H. rewrite E in H. discriminate H.
  - destruct (String.eqb_spec n "_id") as [-> | E].
    + reflexivity.
    + cbn [key_eqb]. apply String.eqb_neq in E. rewrite E.
      unfold key_of_string. destruct (NilZero.int_of_string n); [ | exact E].
      destruct (_ && _ && _)%bool; [reflexivity | exact E].
Qed.

Lemma fold_get_id (a acc : array) :
  distinct key_eqb (map fst a) = true ->
  array_get (fold_left (fun acc e => array_set acc (key_of_string (string_of_key (fst e)))
                                               (decoded (encoded (snd e)))) a acc)
            (KStr "_id")
  = match array_get a (KStr "_id") with
    | Some v => Some (decoded (encoded v))
    | None => array_get acc (KStr "_id")
    end.
Proof.
  revert acc. induction a as [ | [k v] r IH]; intros acc Hd; [reflexivity | ].
  cbn [fold_left fst snd]. cbn in Hd. apply andb_prop in Hd as [Hk Hr].
  rewrite IH by exact Hr. cbn [array_get].
  destruct (key_eqb k (KStr "_id")) eqn:E.
  - apply key_eqb_eq in E. subst k. rewrite (array_get_absent _ _ Hk).
    change (key_of_string (string_of_key (KStr "_id"))) with (KStr "_id").
    apply array_get_set.
  - destruct (array_get r (KStr "_id")); [reflexivity | ].
    apply array_get_set_other. now rewrite key_of_string_id.
Qed.

Lemma id_of_string (d : zval) (s : string) :
  id_of d = Some (VString s) <->
  exists a, d = VArray a /\ array_get a (KStr "_id") = Some (VString s).
Proof.
  unfold id_of, isset. split.
  - destruct d as [ | | | | | a]; try discriminate. intros H. exists a. split; [reflexivity | ].
    destruct (array_get a (KStr "_id")) as [[ ] | ]; try discriminate H; exact H.
  - intros (a & -> & H). now rewrite H.
Qed.

(** A string [_id] is written and read back as it is. *)
Lemma id_reread (d : zval) (s : string) :
  keyed d = true ->
  id_of d = Some (VString s) ->
  id_of (decoded (encoded d)) = Some (VString s).
Proof.
  intros Hk H. apply id_of_string in H as (a & -> & Hg). cbn [keyed] in Hk.
  assert (L : is_list a = false).
  { destruct (is_list a) eqn:L; [ | reflexivity].
    rewrite (string_key_of_list 0 a "_id" L) in Hg. discriminate Hg. }
  apply id_of_string. rewrite encoded_array, L, decoded_object, fold_left_mapped.
  cbn [fst snd]. eexists. split; [reflexivity | ].
  now rewrite (fold_get_id a [] Hk), Hg.
Qed.

Lemma forallb_mapped {A B : Type} (p : B -> bool) (f : A -> B) (l : list A) :
  forallb p (map f l) = forallb (fun x => p (f x)) l.
Proof. induction l as [ | x r IH]; cbn; [reflexivity | now rewrite IH]. Qed.

Lemma distinct_mapped {A B : Type} (same : B -> B -> bool) (f : A -> B) (l : list A) :
  distinct same (map f l) = distinct (fun x y => same (f x) (f y)) l.
Proof.
  induction l as [ | x r IH]; cbn; [reflexivity | ].
  now rewrite forallb_mapped, IH.
Qed.

(** The invariant is one of the [_id]s alone. *)
Lemma ids_ok_same_ids (l1 l2 : list zval) :
  map id_of l1 = map id_of l2 -> ids_ok l1 = ids_ok l2.
Proof.
  intros E. unfold ids_ok, ids_unique.
  set (g := fun o : option zval =>
              match o with
              | Some (VString s) => negb (String.eqb s "")
              | _ => false
              end).
  set (h := fun o1 o2 : option zval =>
              match o1, o2 with
              | Some a, Some b => identical a b
              | _, _ => false
              end).
  change nonempty_id with (fun d => g (id_of d)).
  change same_id with (fun d1 d2 => h (id_of d1) (id_of d2)).
  rewrite <- !(forallb_mapped g id_of), <- !(distinct_mapped h id_of).
  now rewrite E.
Qed.

Lemma nonempty_id_string (d : zval) :
  nonempty_id d = true -> exists s, id_of d = Some (VString s).
Proof.
  unfold nonempty_id. destruct (id_of d) as [[ | | | | s | ] | ]; try discriminate.
  intros _. now exists s.
Qed.

Lemma ids_ok_reread (docs : list zval) :
  forallb keyed docs = true ->
  ids_ok docs = true ->
  ids_ok (map (fun d => decoded (encoded d)) docs) = true.
Proof.
  intros Hk Hok. rewrite (ids_ok_same_ids (map (fun d => decoded (encoded d)) docs) docs);
    [exact Hok | ].
  rewrite map_map. apply map_ext_in. intros d Hd.
  unfold ids_ok in Hok. apply andb_prop in Hok as [Hne _].
  rewrite forallb_forall in Hne, Hk.
  destruct (nonempty_id_string d (Hne d Hd)) as [s Hs].
  rewrite Hs. now apply id_reread; [apply Hk | ].
Qed.

(** The ids of a table with unique string ids are still so once the
    table is written and read back. *)
Lemma written_ids (fs : filesystem) (path : string) (data : array) :
  php_keys data = true ->
  forallb keyed (array_values data) = true ->
  ids_ok (array_values data) = true ->
  ids_ok (array_values
            (table_of (with_file fs path (written (json_encode (VArray data)))) path))
  = true.
Proof.
  intros Hp Hk Hok. destruct (written_table fs path data Hp) as [-> | ->]; [reflexivity | ].
  rewrite (values_map_values (fun v => decoded (encoded v))). now apply ids_ok_reread.
Qed.

End Tables.

Section Identifiers.

Context {rt : php_runtime}.

Variable dbPath : string.

(** ** Appending *)

Lemma array_push_inv (a a' : array) (v : zval) :
  array_push a v = Some a' ->
  a' = (a ++ [(KInt (next_index a), v)])%list
  /\ (largest_index a = None
      \/ exists m, largest_index a = Some m /\ m <> PHP_INT_MAX).
Proof.
  unfold array_push. destruct (largest_index a) as [m | ].
  - destruct (Z.eqb_spec m PHP_INT_MAX) as [E | E]; [discriminate | ].
    intros H. inversion H. split; [reflexivity | right; now exists m].
  - intros H. inversion H. split; [reflexivity | now left].
Qed.

Lemma values_push (data data' : array) (v : zval) :
  array_push data v = Some data' ->
  array_values data' = (array_values data ++ [v])%list.
Proof.
  intros H. apply array_push_inv in H as [-> _].
  unfold array_values. now rewrite map_app.
Qed.

Lemma largest_index_In (a : array) (m : Z) :
  largest_index a = Some m -> In (KInt m) (map fst a).
Proof.
  revert m. induction a as [ | [[i | s] v] r IH]; intros m; cbn; [discriminate | | ].
  - destruct (largest_index r) as [m' | ].
    + intros H. inversion H. destruct (Z.max_spec i m') as [[_ ->] | [_ ->]];
        [right; now apply IH | now left].
    + intros H. inversion H. now left.
  - intros H. right. now apply IH.
Qed.

Lemma largest_index_bound (a : array) (i : Z) :
  In (KInt i) (map fst a) -> exists m, largest_index a = Some m /\ i <= m.
Proof.
  induction a as [ | [[j | s] v] r IH]; cbn; [intros [] | | ].
  - intros [E | H].
    + inversion E; subst. destruct (largest_index r) as [m' | ];
        eexists; split; try reflexivity; lia.
    + destruct (IH H) as (m & -> & Hm). eexists. split; [reflexivity | lia].
  - intros [E | H]; [discriminate E | now apply IH].
Qed.

Lemma largest_index_list (i : Z) (a : array) :
  is_list_from i a = true -> a <> [] ->
  largest_index a = Some (i + Z.of_nat (List.length a) - 1).
Proof.
  revert i. induction a as [ | [[j | s] v] r IH]; intros i; cbn [is_list_from];
    [intros _ H; now elim H | | discriminate].
  intros H _. apply andb_prop in H as [Hj Hr]. apply Z.eqb_eq in Hj. subst j.
  cbn [largest_index]. destruct r as [ | e r'].
  - cbn. f_equal. lia.
  - rewrite (IH (i + 1) Hr) by discriminate. f_equal.
    cbn [List.length] in *. lia.
Qed.

Lemma is_list_from_snoc (i n : Z) (a : array) (v : zval) :
  is_list_from i (a ++ [(KInt n, v)])%list
  = (is_list_from i a && (n =? i + Z.of_nat (List.length a)))%bool.
Proof.
  revert i. induction a as [ | [[j | s] w] r IH]; intros i; cbn [app is_list_from List.length].
  - cbn. rewrite Z.add_0_r. now rewrite andb_true_r.
  - rewrite IH, <- andb_assoc.
    replace (i + 1 + Z.of_nat (List.length r)) with (i + Z.of_nat (S (List.length r)))
      by lia.
    reflexivity.
  - reflexivity.
Qed.

(** An integer key is the key its printed name is read back as when it
    is in the int range. *)
Lemma int_key_stable (i : Z) :
  key_eqb (key_of_string (Z_to_string i)) (KInt i)
  = ((PHP_INT_MIN <=? i) && (i <=? PHP_INT_MAX))%bool.
Proof.
  unfold key_of_string. rewrite int_of_Z_to_string, DecimalZ.of_to, String.eqb_refl.
  cbn [andb]. destruct (_ && _)%bool; cbn; [apply Z.eqb_refl | reflexivity].
Qed.

Lemma next_index_list (a : array) :
  is_list a = true -> next_index a = Z.of_nat (List.length a).
Proof.
  intros L. unfold next_index. destruct a as [ | e r]; [reflexivity | ].
  rewrite (@largest_index_list 0 (e :: r) L) by discriminate.
  destruct append_after_negative; lia.
Qed.

Lemma php_keys_push (a a' : array) (v : zval) :
  php_keys a = true -> array_push a v = Some a' -> php_keys a' = true.
Proof.
  intros Hk Hp. apply array_push_inv in Hp as [-> Hm].
  unfold php_keys in *. destruct (is_list a) eqn:L.
  - unfold is_list in *. rewrite is_list_from_snoc, L.
    rewrite (next_index_list a L). cbn. now rewrite Z.eqb_refl.
  - cbn [orb] in Hk. apply andb_prop in Hk as [Hd Hs].
    assert (Hn : PHP_INT_MIN <= next_index a <= PHP_INT_MAX
                 /\ forall i, In (KInt i) (map fst a) -> i < next_index a).
    { unfold next_index.
      destruct Hm as [E | (m & E & Hne)]; rewrite E.
      - split; [unfold PHP_INT_MIN, PHP_INT_MAX; lia | ].
        intros i Hi. destruct (@largest_index_bound a i Hi) as (m & Hm' & _). congruence.
      - assert (Hr : PHP_INT_MIN <= m <= PHP_INT_MAX).
        { pose proof (@largest_index_In a m E) as Hin.
          rewrite forallb_forall in Hs. specialize (Hs _ Hin).
          cbn [string_of_key] in Hs. rewrite int_key_stable in Hs.
          apply andb_prop in Hs as [H1 H2].
          apply Z.leb_le in H1. apply Z.leb_le in H2. lia. }
        split.
        + unfold PHP_INT_MIN, PHP_INT_MAX in *. destruct append_after_negative; lia.
        + intros i Hi. destruct (@largest_index_bound a i Hi) as (m' & Hm' & Hle).
          assert (m' = m) by congruence. subst m'.
          destruct append_after_negative; lia. }
    destruct Hn as [Hrange Hfresh].
    rewrite map_app. cbn [map fst].
    rewrite distinct_snoc, forallb_app, Hs; [ | exact Hd | ].
    + cbn [forallb string_of_key andb]. rewrite int_key_stable.
      destruct (Z.leb_spec PHP_INT_MIN (next_index a)); [ | lia].
      destruct (Z.leb_spec (next_index a) PHP_INT_MAX); [ | lia].
      apply orb_true_r.
    + apply forallb_forall. intros [i | s] Hy; [ | reflexivity].
      cbn. apply negb_true_iff, Z.eqb_neq. specialize (Hfresh i Hy). lia.
Qed.

(** ** The document [insert] stores *)

Lemma stamped_id (document : array) (entropy : string) :
  isset document (KStr "_id") = false ->
  id_of (VArray (stamped document entropy)) = Some (VString (uniqid "doc_" entropy)).
Proof.
  intros H. unfold id_of. rewrite stamped_isset.
  unfold stamped. rewrite H. cbn [negb]. apply array_get_set.
Qed.

Lemma stamped_keeps (document : array) (entropy : string) :
  isset document (KStr "_id") = true -> stamped document entropy = document.
Proof. intros H. unfold stamped. now rewrite H. Qed.

(** A generated [_id] starts with [doc_]: it is never empty. *)
Lemma generated_nonempty (document : array) (entropy : string) :
  isset document (KStr "_id") = false ->
  nonempty_id (VArray (stamped document entropy)) = true.
Proof.
  intros H. unfold nonempty_id. now rewrite (stamped_id document entropy H).
Qed.

Lemma stamped_keyed (document : array) (entropy : string) :
  distinct key_eqb (map fst document) = true ->
  keyed (VArray (stamped document entropy)) = true.
Proof.
  intros H. cbn [keyed]. unfold stamped. destruct (negb _); [ | exact H].
  now apply distinct_array_set.
Qed.

Lemma ids_ok_push (docs : list zval) (document : array) (entropy : string) :
  isset document (KStr "_id") = false ->
  ids_ok docs = true ->
  unused_id (uniqid "doc_" entropy) docs = true ->
  ids_ok (docs ++ [VArray (stamped document entropy)])%list = true.
Proof.
  intros H Hok Hfresh. unfold ids_ok in *.
  apply andb_prop in Hok as [Hne Hun].
  rewrite forallb_app, Hne. cbn [forallb].
  rewrite (generated_nonempty document entropy H). cbn.
  apply distinct_snoc; [exact Hun | ].
  unfold unused_id in Hfresh.
  rewrite <- Hfresh. apply forallb_pointwise.
  intros d. unfold same_id. rewrite (stamped_id document entropy H).
  destruct (id_of d); reflexivity.
Qed.

Lemma ids_ok_filter (p : zval -> bool) (docs : list zval) :
  ids_ok docs = true -> ids_ok (filter p docs) = true.
Proof.
  unfold ids_ok. intros H. apply andb_prop in H as [Hne Hun].
  rewrite (forallb_filter _ p docs Hne). cbn.
  now apply distinct_filter.
Qed.

(** ** What a write leaves in the file *)

(** Whatever [writeCollection] does with a table whose ids are unique
    non-empty strings, the ids read from the file afterwards are so. *)
Lemma writeCollection_ids (fs fs' : filesystem) (collection path : string)
      (data : array) (r : result unit) :
  getFilePath dbPath collection = Ok path ->
  php_keys data = true ->
  forallb keyed (array_values data) = true ->
  ids_ok (array_values data) = true ->
  ids_ok (array_values (table_of fs path)) = true ->
  writeCollection dbPath fs collection data = (r, fs') ->
  ids_ok (array_values (table_of fs' path)) = true.
Proof.
  intros Hp Hk Hd Hok Hbefore. unfold writeCollection, file_put_contents. rewrite Hp.
  destruct (writable fs path).
  - intros E. inversion E; subst. now apply written_ids.
  - destruct (torn fs path) as [leftover | ]; [ | intros E; inversion E; now subst].
    destruct (written (json_encode (VArray data))) as [j | [ | c raw]];
      intros E; inversion E; subst; now rewrite garbage_table.
Qed.

(** ** [update] and the field [_id] *)

Lemma apply_set_array (a ops : array) :
  apply_set (VArray a) ops
  = Ok (VArray (fold_left (fun a e => array_set a (fst e) (snd e)) ops a)).
Proof.
  revert a. induction ops as [ | [k v] r IH]; intros a; cbn; [reflexivity | apply IH].
Qed.

Lemma apply_unset_array (a ops : array) :
  apply_unset (VArray a) ops
  = Ok (VArray (fold_left (fun a e => array_unset a (fst e)) ops a)).
Proof.
  revert a. induction ops as [ | [k v] r IH]; intros a; cbn; [reflexivity | apply IH].
Qed.

Lemma set_all_keeps_id (ops a : array) :
  names_id ops = false ->
  array_get (fold_left (fun a e => array_set a (fst e) (snd e)) ops a) (KStr "_id")
  = array_get a (KStr "_id").
Proof.
  revert a. induction ops as [ | [k v] r IH]; intros a H; [reflexivity | ].
  cbn in H. apply orb_false_iff in H as [Hk Hr].
  cbn [fold_left fst snd]. rewrite (IH _ Hr). now apply array_get_set_other.
Qed.

Lemma unset_all_keeps_id (ops a : array) :
  names_id ops = false ->
  array_get (fold_left (fun a e => array_unset a (fst e)) ops a) (KStr "_id")
  = array_get a (KStr "_id").
Proof.
  revert a. induction ops as [ | [k v] r IH]; intros a H; [reflexivity | ].
  cbn in H. apply orb_false_iff in H as [Hk Hr].
  cbn [fold_left fst snd]. rewrite (IH _ Hr). now apply array_get_unset_other.
Qed.

Lemma set_all_distinct (ops a : array) :
  distinct key_eqb (map fst a) = true ->
  distinct key_eqb (map fst (fold_left (fun a e => array_set a (fst e) (snd e)) ops a))
  = true.
Proof.
  revert a. induction ops as [ | [k v] r IH]; intros a H; [exact H | ].
  cbn [fold_left]. apply IH. now apply distinct_array_set.
Qed.

Lemma unset_all_distinct (ops a : array) :
  distinct key_eqb (map fst a) = true ->
  distinct key_eqb (map fst (fold_left (fun a e => array_unset a (fst e)) ops a))
  = true.
Proof.
  revert a. induction ops as [ | [k v] r IH]; intros a H; [exact H | ].
  cbn [fold_left]. apply IH. now apply distinct_array_unset.
Qed.

Lemma updated_keeps_id (upd : zval) (a : array) :
  names_id (update_ops upd "$set") = false ->
  names_id (update_ops upd "$unset") = false ->
  id_of (VArray (updated upd a)) = id_of (VArray a).
Proof.
  intros Hs Hu. unfold id_of, isset, updated.
  now rewrite (unset_all_keeps_id _ _ Hu), (set_all_keeps_id _ _ Hs).
Qed.

Lemma updated_keyed (upd : zval) (a : array) :
  distinct key_eqb (map fst a) = true ->
  distinct key_eqb (map fst (updated upd a)) = true.
Proof.
  intros H. unfold updated. now apply unset_all_distinct, set_all_distinct.
Qed.

(** The loop of [update] keeps the keys of the table, and the [_id] of
    every document when the update does not name that field. *)
Lemma update_loop_ids (data data' : array) (query upd : zval) (n : Z) :
  names_id (update_ops upd "$set") = false ->
  names_id (update_ops upd "$unset") = false ->
  forallb nonempty_id (array_values data) = true ->
  forallb keyed (array_values data) = true ->
  update_loop data query upd = Ok (data', n) ->
  map fst data' = map fst data
  /\ map id_of (array_values data') = map id_of (array_values data)
  /\ forallb keyed (array_values data') = true.
Proof.
  intros Hs Hu. revert data' n.
  induction data as [ | [idx doc] rest IH]; intros data' n Hne Hk H.
  - cbn in H. inversion H. auto.
  - cbn in Hne, Hk. apply andb_prop in Hne as [Hne1 Hne]. apply andb_prop in Hk as [Hk1 Hk].
    destruct (nonempty_id_string doc Hne1) as [s Hid].
    pose proof Hid as Hid'. apply id_of_string in Hid' as (a & -> & _).
    cbn [update_loop] in H.
    destruct (match_ (VArray a) query) as [m | e]; [ | discriminate H].
    cbn [bind] in H.
    assert (E : (if m
                 then e <- apply_set (VArray a) (update_ops upd "$set") ;;
                      apply_unset e (update_ops upd "$unset")
                 else Ok (VArray a))
                = Ok (if m then VArray (updated upd a) else VArray a)).
    { destruct m; [ | reflexivity].
      rewrite apply_set_array. cbn [bind]. now rewrite apply_unset_array. }
    rewrite E in H. cbn [bind] in H.
    destruct (update_loop rest query upd) as [[rest' n'] | e]; [ | discriminate H].
    cbn [bind fst snd] in H. inversion H; subst.
    destruct (IH rest' n' Hne Hk eq_refl) as (Hkeys & Hids & Hkd).
    cbn [map fst snd array_values]. fold (array_values rest'). fold (array_values rest).
    rewrite Hkeys, Hids. cbn [forallb]. rewrite Hkd. cbn [keyed] in Hk1.
    destruct m.
    + rewrite (updated_keeps_id upd a Hs Hu). cbn [keyed].
      rewrite (updated_keyed upd a Hk1). auto.
    + cbn [keyed]. rewrite Hk1. auto.
Qed.

(** ** The three operations *)

(** After [insert] of a document without [_id], however the call ends. *)
Lemma insert_keeps_ids (fs fs' : filesystem) (collection path : string)
      (document : array) (entropy : string) (r : result array) :
  getFilePath dbPath collection = Ok path ->
  isset document (KStr "_id") = false ->
  distinct key_eqb (map fst document) = true ->
  ids_ok (array_values (table_of fs path)) = true ->
  unused_id (uniqid "doc_" entropy) (array_values (table_of fs path)) = true ->
  insert dbPath fs collection document entropy = (r, fs') ->
  ids_ok (array_values (table_of fs' path)) = true.
Proof.
  intros Hp Hi Hd Hok Hun. unfold insert.
  rewrite (readCollection_table dbPath fs collection Hp).
  fold (stamped document entropy).
  destruct (array_push (table_of fs path) (VArray (stamped document entropy)))
    as [data' | ] eqn:Ha.
  - destruct (writeCollection dbPath fs collection data') as [w fs1] eqn:W.
    assert (H1 : ids_ok (array_values (table_of fs1 path)) = true).
    { eapply (@writeCollection_ids fs fs1 collection path data' w Hp); try eassumption.
      - eapply php_keys_push; [apply table_php_keys | exact Ha].
      - rewrite (values_push _ _ Ha), forallb_app, table_keyed. cbn [forallb].
        now rewrite stamped_keyed.
      - rewrite (values_push _ _ Ha). now apply ids_ok_push. }
    destruct w; intros E; inversion E; now subst.
  - destruct php8; [intros E; inversion E; now subst | ].
    destruct (writeCollection dbPath fs collection (table_of fs path)) as [w fs1] eqn:W.
    assert (H1 : ids_ok (array_values (table_of fs1 path)) = true).
    { eapply (@writeCollection_ids fs fs1 collection path (table_of fs path) w Hp);
        try eassumption.
      - apply table_php_keys.
      - apply table_keyed. }
    destruct w; intros E; inversion E; now subst.
Qed.

(** After [update] with an update that does not name [_id]. *)
Lemma update_keeps_ids (fs fs' : filesystem) (collection path : string)
      (query upd : zval) (r : result Z) :
  getFilePath dbPath collection = Ok path ->
  names_id (update_ops upd "$set") = false ->
  names_id (update_ops upd "$unset") = false ->
  ids_ok (array_values (table_of fs path)) = true ->
  update dbPath fs collection query upd = (r, fs') ->
  ids_ok (array_values (table_of fs' path)) = true.
Proof.
  intros Hp Hs Hu Hok. unfold update.
  rewrite (readCollection_table dbPath fs collection Hp).
  destruct (update_loop (table_of fs path) query upd) as [[data' n] | e] eqn:L;
    [ | intros E; inversion E; now subst].
  pose proof Hok as Hok'. unfold ids_ok in Hok'. apply andb_prop in Hok' as [Hne _].
  destruct (update_loop_ids _ _ _ Hs Hu Hne (table_keyed fs path) L) as (Hkeys & Hids & Hkd).
  destruct (0 <? n); [ | intros E; inversion E; now subst].
  destruct (writeCollection dbPath fs collection data') as [w fs1] eqn:W.
  assert (H1 : ids_ok (array_values (table_of fs1 path)) = true).
  { eapply (@writeCollection_ids fs fs1 collection path data' w Hp); try eassumption.
    - rewrite (php_keys_same_keys _ _ Hkeys). apply table_php_keys.
    - now rewrite (ids_ok_same_ids _ _ Hids). }
  destruct w; intros E; inversion E; now subst.
Qed.

Lemma delete_loop_inv (data : array) (query : zval) (kept : list zval) :
  delete_loop data query = Ok kept ->
  kept = filter (fun d => negb (satisfies query d)) (array_values data).
Proof.
  revert kept. induction data as [ | [idx doc] rest IH]; intros kept H; cbn in H.
  - now inversion H.
  - cbn [array_values map snd filter]. unfold satisfies at 1.
    destruct (match_ doc query) as [m | e]; [ | discriminate H]. cbn [bind] in H.
    destruct (delete_loop rest query) as [k' | e]; [ | discriminate H].
    cbn [bind] in H. inversion H; subst.
    rewrite (IH k' eq_refl). reflexivity.
Qed.

(** After [delete]. *)
Lemma delete_keeps_ids (fs fs' : filesystem) (collection path : string)
      (query : zval) (r : result Z) :
  getFilePath dbPath collection = Ok path ->
  ids_ok (array_values (table_of fs path)) = true ->
  delete dbPath fs collection query = (r, fs') ->
  ids_ok (array_values (table_of fs' path)) = true.
Proof.
  intros Hp Hok. unfold delete.
  rewrite (readCollection_table dbPath fs collection Hp).
  destruct (delete_loop (table_of fs path) query) as [kept | e] eqn:L;
    [ | intros E; inversion E; now subst].
  destruct (0 <? _); [ | intros E; inversion E; now subst].
  destruct (writeCollection dbPath fs collection (list_array kept)) as [w fs1] eqn:W.
  assert (H1 : ids_ok (array_values (table_of fs1 path)) = true).
  { eapply (@writeCollection_ids fs fs1 collection path (list_array kept) w Hp);
      try eassumption.
    - unfold php_keys, is_list, list_array. now rewrite is_list_list_array_from.
    - rewrite values_list_array, (delete_loop_inv _ _ L).
      apply forallb_filter, table_keyed.
    - rewrite values_list_array, (delete_loop_inv _ _ L). now apply ids_ok_filter. }
  destruct w; intros E; inversion E; now subst.
Qed.

End Identifiers.

End JsonDBFacts.

(* ================================================================== *)
(** * Facts about the simulator *)

Module SimulatorFacts.

Import DbSimulator Spec.

Section Matching.

Context {rt : js_runtime}.

Lemma number_lt_nan_r (x : number) : number_lt x NaN = None.
Proof. destruct x; reflexivity. Qed.

Lemma IsLessThan_undefined_r (x : jsval) : IsLessThan x JsUndefined = None.
Proof.
  unfold IsLessThan. destruct x as [ | | [ | ] | | | | ]; cbn;
    auto using number_lt_nan_r.
Qed.

Lemma IsLessThan_undefined_l (y : jsval) : IsLessThan JsUndefined y = None.
Proof. unfold IsLessThan. destruct y; reflexivity. Qed.

(** A scalar is its own primitive. *)
Lemma ToPrimitive_scalar (v : jsval) :
  isArray v = false -> is_plain_object v = false -> ToPrimitive v = Ok v.
Proof. destruct v; cbn; intros; try reflexivity; discriminate. Qed.

Lemma js_le_undefined (e : jsval) :
  js_le JsUndefined e = (p <- ToPrimitive e ;; Ok false).
Proof.
  unfold js_le. cbn [lookup_primitive ToPrimitive bind].
  destruct (ToPrimitive e) as [p | x]; [ | reflexivity].
  cbn [bind]. now rewrite IsLessThan_undefined_r.
Qed.

Lemma js_ge_undefined (e : jsval) :
  js_ge JsUndefined e = (p <- ToPrimitive e ;; Ok false).
Proof.
  unfold js_ge. cbn [lookup_primitive ToPrimitive bind].
  destruct (ToPrimitive e) as [p | x]; [ | reflexivity].
  cbn [bind]. now rewrite IsLessThan_undefined_l.
Qed.

Lemma js_le_null (e : jsval) :
  js_le JsNull e = (p <- ToPrimitive e ;; Ok (nonneg (ToNumber p))).
Proof.
  unfold js_le. cbn [lookup_primitive ToPrimitive bind].
  destruct (ToPrimitive e) as [p | x]; [ | reflexivity].
  cbn [bind]. f_equal. unfold IsLessThan.
  destruct p as [ | | b | n | s | l items | l props]; cbn.
  - reflexivity.
  - reflexivity.
  - destruct b; reflexivity.
  - destruct (Qltb n 0); reflexivity.
  - destruct (StringToNumber s) as [ | q | neg]; cbn;
      [reflexivity | destruct (Qltb q 0); reflexivity | destruct neg; reflexivity].
  - reflexivity.
  - reflexivity.
Qed.

Lemma js_ge_null (e : jsval) :
  js_ge JsNull e = (p <- ToPrimitive e ;; Ok (nonpos (ToNumber p))).
Proof.
  unfold js_ge. cbn [lookup_primitive ToPrimitive bind].
  destruct (ToPrimitive e) as [p | x]; [ | reflexivity].
  cbn [bind]. f_equal. unfold IsLessThan.
  destruct p as [ | | b | n | s | l items | l props]; cbn.
  - reflexivity.
  - reflexivity.
  - destruct b; reflexivity.
  - destruct (Qltb 0 n); reflexivity.
  - destruct (StringToNumber s) as [ | q | neg]; cbn;
      [reflexivity | destruct (Qltb 0 q); reflexivity | destruct neg; reflexivity].
  - reflexivity.
  - reflexivity.
Qed.

Lemma sim_match_gt_clause (doc : Document) (l1 l2 : loc) (k : string) (e : jsval) :
  match_ doc (jclause l1 l2 k "$gt" e)
  = (le <- js_le (get_prop (doc_props doc) k) e ;; Ok (negb le)).
Proof.
  cbn. destruct (js_le (get_prop (doc_props doc) k) e) as [[ | ] | x]; reflexivity.
Qed.

Lemma sim_match_lt_clause (doc : Document) (l1 l2 : loc) (k : string) (e : jsval) :
  match_ doc (jclause l1 l2 k "$lt" e)
  = (ge <- js_ge (get_prop (doc_props doc) k) e ;; Ok (negb ge)).
Proof.
  cbn. destruct (js_ge (get_prop (doc_props doc) k) e) as [[ | ] | x]; reflexivity.
Qed.

(** A criteria that is no plain object is compared with [!==]. *)
Lemma sim_match_plain_criteria (doc : Document) (l : loc) (k : string) (criteria : jsval) :
  is_plain_object criteria = false ->
  match_ doc (JsObject l [(k, criteria)])
  = Ok (strict_equal (get_prop (doc_props doc) k) criteria).
Proof.
  intros H. cbn. rewrite H.
  destruct (strict_equal (get_prop (doc_props doc) k) criteria); reflexivity.
Qed.

Lemma strict_equal_same_value (a : lookup) (c : jsval) :
  is_plain_object c = false ->
  strict_equal a c = true <-> same_value a c.
Proof.
  intros H. destruct a as [a | name].
  - destruct c as [ | | b | n | s | l items | l props]; try discriminate H;
      destruct a as [ | | b' | n' | s' | l' items' | l' props']; cbn;
      try (split; [discriminate | intros E; inversion E]);
      try (split; reflexivity).
    + rewrite Bool.eqb_true_iff. split; [intros ->; reflexivity | intros E; now inversion E].
    + apply Qeq_bool_iff.
    + rewrite String.eqb_eq. split; [intros ->; reflexivity | intros E; now inversion E].
    + apply Nat.eqb_eq.
  - cbn. split; [discriminate | intros []].
Qed.

(** ** [$regex] *)

Lemma sim_match_regex_clause (doc : Document) (l1 l2 : loc) (k : string) (p : string) :
  match_ doc (jclause l1 l2 k "$regex" (JsString p))
  = match RegExpCreate p "i" with
    | None => Throw (SyntaxError "Invalid regular expression")
    | Some test =>
        subject <- lookup_string (get_prop (doc_props doc) k) ;; Ok (test subject)
    end.
Proof.
  cbn. destruct (RegExpCreate p "i") as [test | ]; [ | reflexivity].
  destruct (lookup_string _) as [subject | x]; [ | reflexivity].
  cbn. destruct (test _); reflexivity.
Qed.

(** One document on which [match] throws makes [filter] throw. *)
Lemma filter_docs_throws (keep : bool -> bool) (d : Document) (r : list Document)
      (query : jsval) (e : exn) :
  match_ d query = Throw e ->
  filter_docs keep (d :: r) query = Throw e.
Proof. intros H. cbn. now rewrite H. Qed.

(** ** [$in] *)

Lemma sim_match_in_clause (doc : Document) (l1 l2 : loc) (k : string) (operand : jsval) :
  match_ doc (jclause l1 l2 k "$in" operand)
  = Ok (isArray operand && includes operand (get_prop (doc_props doc) k))%bool.
Proof.
  cbn.
  destruct (isArray operand); cbn; [ | reflexivity].
  destruct (includes operand (get_prop (doc_props doc) k)); reflexivity.
Qed.

Lemma includes_spec (operand : jsval) (v : lookup) :
  (isArray operand && includes operand v)%bool = true
  <-> exists l items, operand = JsArray l items
                      /\ exists e : jsval, In e items /\ strict_equal e v = true.
Proof.
  destruct operand as [ | | b | n | s | l items | l props]; cbn;
    try (split; [discriminate | intros (l0 & items0 & E & _); discriminate E]).
  rewrite existsb_exists. split.
  - intros H. exists l, items. split; [reflexivity | exact H].
  - intros (l0 & items0 & E & H). now inversion E; subst.
Qed.

Lemma sim_match_empty_query (doc : Document) (l : loc) :
  match_ doc (JsObject l []) = Ok true.
Proof. reflexivity. Qed.

End Matching.

Section Store.

Context {rt : js_runtime}.

Lemma find_set_documents (cs : list Collection) (n : string) (c : Collection)
      (docs : list Document) :
  find_collection cs n = Some c ->
  find_collection (set_documents cs n docs) n
  = Some {| name := name c; documents := docs; createdAt := createdAt c |}.
Proof.
  induction cs as [ | c' r IH]; cbn; [discriminate | ].
  destruct (String.eqb (name c') n) eqn:E; cbn.
  - intros H. inversion H; subst. now rewrite E.
  - intros H. rewrite E. now apply IH.
Qed.

Lemma filter_docs_filter (keep : bool -> bool) (docs : list Document) (query : jsval) :
  Forall (fun d => returns (match_ d query)) docs ->
  filter_docs keep docs query
  = Ok (filter (fun d => keep (jsatisfies query d)) docs).
Proof.
  induction docs as [ | d r IH]; intros H; cbn; [reflexivity | ].
  inversion H as [ | ? ? [b Hb] Hrest]; subst.
  assert (Hs : jsatisfies query d = b) by (unfold jsatisfies; now rewrite Hb).
  rewrite IH by assumption. rewrite Hb, Hs. reflexivity.
Qed.

Lemma filter_docs_inv (keep : bool -> bool) (docs kept : list Document) (query : jsval) :
  filter_docs keep docs query = Ok kept ->
  kept = filter (fun d => keep (jsatisfies query d)) docs.
Proof.
  revert kept. induction docs as [ | d r IH]; intros kept H; cbn in H.
  - now inversion H.
  - cbn [filter]. unfold jsatisfies at 1.
    destruct (match_ d query) as [m | e]; [ | discriminate H]. cbn [bind] in H.
    destruct (filter_docs keep r query) as [k' | e]; [ | discriminate H].
    cbn [bind] in H. inversion H; subst. now rewrite (IH k' eq_refl).
Qed.

(** ** [save] *)

(** [save] either stores the text of the state, or throws and changes
    nothing. *)
Lemma save_cases (s : simulator) :
  (fits s (stringify_state (state s)) = true
   /\ save s = (Ok tt, {| state := state s;
                          storage := Some (stringify_state (state s));
                          next_loc := next_loc s; fits := fits s |}))
  \/ (fits s (stringify_state (state s)) = false
      /\ save s = (Throw (QuotaExceededError "Setting the value exceeded the quota"), s)).
Proof.
  unfold save. destruct (fits s (stringify_state (state s))); [left | right]; auto.
Qed.

(** A method that ends with [save]: the state is the one handed to
    [save], whether it throws or not. *)
Lemma save_and_return_cases {A : Type} (s : simulator) (a : A) :
  exists r s',
    save_and_return s a = (r, s')
    /\ state s' = state s
    /\ next_loc s' = next_loc s
    /\ fits s' = fits s
    /\ ((fits s (stringify_state (state s)) = true
         /\ r = Ok a /\ storage s' = Some (stringify_state (state s)))
        \/ (fits s (stringify_state (state s)) = false
            /\ r = Throw (QuotaExceededError "Setting the value exceeded the quota")
            /\ s' = s)).
Proof.
  unfold save_and_return.
  destruct (save_cases s) as [[F ->] | [F ->]]; eexists; eexists;
    (split; [reflexivity | ]); cbn; repeat split; auto.
Qed.

Lemma sim_delete_spec (s : simulator) (n : string) (query : jsval) (coll : Collection) :
  find_collection (collections (state s)) n = Some coll ->
  Forall (fun d => returns (match_ d query)) (documents coll) ->
  let kept := filter (fun d => negb (jsatisfies query d)) (documents coll) in
  let deleted := Z.of_nat (List.length (documents coll)) - Z.of_nat (List.length kept) in
  exists r s',
    delete s n query = (r, s')
    /\ documents_of s' n = kept
    /\ state s'
       = {| collections := set_documents (collections (state s)) n kept |}
    /\ ((fits s (stringify_state (state s')) = true
         /\ r = Ok deleted /\ storage s' = Some (stringify_state (state s')))
        \/ (fits s (stringify_state (state s')) = false
            /\ r = Throw (QuotaExceededError "Setting the value exceeded the quota")
            /\ storage s' = storage s)).
Proof.
  intros Hf Hm kept deleted. unfold delete. rewrite Hf.
  rewrite filter_docs_filter by exact Hm. fold kept. fold deleted.
  destruct (save_and_return_cases
              (with_state s {| collections := set_documents (collections (state s)) n kept |}
                          (next_loc s)) deleted)
    as (r & s' & -> & Hst & _ & _ & Hcases).
  exists r, s'. split; [reflexivity | ].
  cbn [with_state state] in Hst.
  split; [unfold documents_of; rewrite Hst; cbn; now rewrite (find_set_documents _ _ kept Hf) | ].
  split; [exact Hst | ]. rewrite Hst.
  cbn [with_state state fits] in Hcases.
  destruct Hcases as [(F & -> & Hs) | (F & -> & ->)]; [left | right]; auto.
Qed.

Lemma sim_delete_missing (s : simulator) (n : string) (query : jsval) :
  find_collection (collections (state s)) n = None ->
  delete s n query = (Ok 0, s).
Proof. intros H. unfold delete. now rewrite H. Qed.

Lemma sim_find_missing (s : simulator) (n : string) (query : jsval) :
  find_collection (collections (state s)) n = None ->
  find s n query = Ok [].
Proof. intros H. unfold find. rewrite H. destruct query; reflexivity. Qed.


(** ** [insert] *)

Lemma own_set_prop (props : list (string * jsval)) (k : string) (v : jsval) :
  own_prop (set_prop props k v) k = Some v.
Proof.
  induction props as [ | [k' v'] r IH]; cbn.
  - now rewrite String.eqb_refl.
  - destruct (String.eqb k' k) eqn:E; cbn; rewrite E; [reflexivity | exact IH].
Qed.

Lemma get_set_prop (props : list (string * jsval)) (k : string) (v : jsval) :
  get_prop (set_prop props k v) k = v.
Proof. unfold get_prop. now rewrite own_set_prop. Qed.

(** The document [insert] builds: always with a generated [_id]. *)
Lemma sim_insert_spec (s : simulator) (n : string) (doc : jsval) (random : string)
      (coll : Collection) :
  find_collection (collections (state s)) n = Some coll ->
  let d := {| doc_loc := next_loc s;
              doc_props := set_prop (enumerate doc) "_id" (JsString ("doc_" ++ random)) |} in
  exists r s',
    insert s n doc random = (r, s')
    /\ jid_of d = JsString ("doc_" ++ random)
    /\ documents_of s' n = (documents coll ++ [d])%list
    /\ state s'
       = {| collections := set_documents (collections (state s)) n
                                         (documents coll ++ [d])%list |}
    /\ next_loc s' = S (next_loc s)
    /\ ((fits s (stringify_state (state s')) = true
         /\ r = Ok d /\ storage s' = Some (stringify_state (state s')))
        \/ (fits s (stringify_state (state s')) = false
            /\ r = Throw (QuotaExceededError "Setting the value exceeded the quota")
            /\ storage s' = storage s)).
Proof.
  intros Hf d. unfold insert. rewrite Hf. fold d.
  destruct (save_and_return_cases
              (with_state s {| collections := set_documents (collections (state s)) n
                                                            (documents coll ++ [d])%list |}
                          (S (next_loc s))) d)
    as (r & s' & -> & Hst & Hnl & _ & Hcases).
  exists r, s'. split; [reflexivity | ].
  split; [apply get_set_prop | ].
  cbn [with_state state next_loc] in Hst, Hnl.
  split; [unfold documents_of; rewrite Hst; cbn; now rewrite (find_set_documents _ _ _ Hf) | ].
  split; [exact Hst | ]. split; [exact Hnl | ]. rewrite Hst.
  cbn [with_state state fits] in Hcases.
  destruct Hcases as [(F & -> & Hs) | (F & -> & ->)]; [left | right]; auto.
Qed.

Lemma sim_insert_missing (s : simulator) (n : string) (doc : jsval) (random : string) :
  find_collection (collections (state s)) n = None ->
  insert s n doc random = (Throw (Exception "Collection not found"), s).
Proof. intros H. unfold insert. now rewrite H. Qed.

Lemma jids_ok_snoc (docs : list Document) (d : Document) (random : string) :
  jid_of d = JsString ("doc_" ++ random) ->
  jids_ok docs = true ->
  junused_id ("doc_" ++ random) docs = true ->
  jids_ok (docs ++ [d])%list = true.
Proof.
  intros Hid Hok Hfresh. unfold jids_ok in *.
  apply andb_prop in Hok as [Hne Hun].
  rewrite forallb_app, Hne. cbn [forallb].
  unfold jnonempty_id at 1. rewrite Hid. cbn.
  apply distinct_snoc; [exact Hun | ].
  rewrite <- Hfresh. apply forallb_pointwise.
  intros d'. unfold jsame_id. now rewrite Hid.
Qed.

Lemma jids_ok_filter (p : Document -> bool) (docs : list Document) :
  jids_ok docs = true -> jids_ok (filter p docs) = true.
Proof.
  unfold jids_ok. intros H. apply andb_prop in H as [Hne Hun].
  rewrite (forallb_filter _ p docs Hne). cbn.
  now apply distinct_filter.
Qed.

End Store.

(** ** Looking a collection up by name *)

Lemma find_collection_none (cs : list Collection) (n : string) :
  find_collection cs n = None
  <-> forallb (fun m => negb (String.eqb m n)) (map name cs) = true.
Proof.
  induction cs as [ | c r IH]; cbn; [tauto | ].
  destruct (String.eqb (name c) n); cbn; [split; discriminate | exact IH].
Qed.

Lemma find_collection_snoc (cs : list Collection) (c : Collection) (n : string) :
  find_collection (cs ++ [c])%list n
  = match find_collection cs n with
    | Some c' => Some c'
    | None => if String.eqb (name c) n then Some c else None
    end.
Proof.
  induction cs as [ | c' r IH]; cbn; [reflexivity | ].
  destruct (String.eqb (name c') n); [reflexivity | exact IH].
Qed.

Lemma find_collection_filter (cs : list Collection) (n m : string) :
  find_collection (filter (fun c => negb (String.eqb (name c) n)) cs) m
  = if String.eqb m n then None else find_collection cs m.
Proof.
  induction cs as [ | c r IH]; cbn; [now destruct (String.eqb m n) | ].
  destruct (String.eqb (name c) n) eqn:E; cbn.
  - rewrite IH. destruct (String.eqb m n) eqn:F; [reflexivity | ].
    apply String.eqb_eq in E. rewrite E, (String.eqb_sym n m), F. reflexivity.
  - destruct (String.eqb (name c) m) eqn:F; [ | exact IH].
    apply String.eqb_eq in F. rewrite <- F, E. reflexivity.
Qed.

(** [save] leaves the state as it is, whether [setItem] throws or not. *)
Lemma save_state (s : simulator) : state (snd (save s)) = state s.
Proof. unfold save. now destruct (fits s (stringify_state (state s))). Qed.

End SimulatorFacts.

(* ================================================================== *)
(** * The engine against its specification *)

Import JsonDB DbSimulator Spec Notions.
Import JsonDBFacts SimulatorFacts.

Lemma Forall_returns {A B : Type} (f : A -> result B) (l : list A) :
  forallb (fun x => match f x with Ok _ => true | Throw _ => false end) l = true ->
  Forall (fun x => returns (f x)) l.
Proof.
  induction l as [ | x r IH]; cbn; intros H; constructor.
  - apply andb_prop in H as [H _]. unfold returns.
    destruct (f x) as [b | e]; [eauto | discriminate H].
  - apply IH. now apply andb_prop in H as [_ H].
Qed.

(** ** Insert *)

(** The PHP engine does what the specification of insert says: the
    document stored and returned is the input with a generated [_id]
    added when none was set, and the caller's own [_id] otherwise; the
    file receives what [json_encode] makes of the whole table with that
    document appended. *)
Lemma insert_returns_stored_document
      (rt : php_runtime) (dbPath : string) (fs : filesystem)
      (collection path : string) (document data' : JsonDB.array) (entropy : string) :
  getFilePath dbPath collection = Ok path ->
  writable fs path = true ->
  array_push (table_of fs path) (VArray (stamped document entropy)) = Some data' ->
  exists fs',
    JsonDB.insert dbPath fs collection document entropy
    = (Ok (stamped document entropy), fs')
    /\ stored fs' path = Some (written (json_encode (VArray data')))
    /\ array_values data'
       = (array_values (table_of fs path) ++ [VArray (stamped document entropy)])%list
    /\ isset (stamped document entropy) (KStr "_id") = true
    /\ (isset document (KStr "_id") = true -> stamped document entropy = document)
    /\ (isset document (KStr "_id") = false ->
        stamped document entropy
        = array_set document (KStr "_id") (VString ("doc_" ++ entropy))).
Proof.
  intros Hp Hw Ha.
  destruct (insert_spec dbPath fs collection document entropy Hp Hw Ha)
    as (fs' & Hi & _ & Hs).
  exists fs'. split; [exact Hi | ]. split; [exact Hs | ].
  split; [now apply values_push | ].
  split; [apply stamped_isset | ].
  split; intros H; unfold stamped; rewrite H; reflexivity.
Qed.

(** C1, simulator side.  [DbSimulator.insert] spreads the input and then
    sets [_id] to a generated value unconditionally: here the caller's
    [_id], "abc", is replaced by the generated "doc_k3x9q2m1z" in the
    returned and stored document. *)
Theorem simulator_insert_overwrites_supplied_id :
  let doc := JsObject 7 [("_id", JsString "abc"); ("name", JsString "Ann")] in
  let r := DbSimulator.insert Sample.browser "users" doc "k3x9q2m1z" in
  fst r = Ok {| doc_loc := 3;
                doc_props := [("_id", JsString "doc_k3x9q2m1z"); ("name", JsString "Ann")] |}
  /\ documents_of (snd r) "users"
     = [Sample.jjohn; Sample.jjane;
        {| doc_loc := 3;
           doc_props := [("_id", JsString "doc_k3x9q2m1z"); ("name", JsString "Ann")] |}].
Proof. split; reflexivity. Qed.

(** ** [$gt] and [$lt] on an absent or null field *)

(** C2 as amended.  In the PHP engine evaluating a [$gt] or [$lt] clause
    on a document whose field is absent or null never throws; such a
    document fails [$gt] for every operand, and fails [$lt] exactly for
    the operands null, false, 0, 0.0, the empty string and the empty
    array; for any other operand the [$lt] clause is satisfied.  In the
    simulator [doc[key]] is undefined when the document has no property
    of that name and [Object.prototype] has no member of that name, or
    when the property holds undefined.  The operand is then made a
    primitive, which returns the operand itself when it is a scalar and
    throws a [TypeError] on an object with a property [toString] of its
    own; when it returns, an undefined field satisfies both clauses, and
    a null field is compared as the number 0. *)
Theorem null_field_gt_lt
        (rt : php_runtime) (jrt : js_runtime)
        (doc : zval) (k : key) (operand : zval)
        (jdoc : Document) (jk : string) (l1 l2 : loc) (joperand : jsval) :
  field_value doc k = VNull ->
  JsonDB.match_ doc (clause k "$gt" operand) = Ok false
  /\ JsonDB.match_ doc (clause k "$lt" operand) = Ok (negb (null_ge operand))
  /\ (get_prop (doc_props jdoc) jk = JsUndefined <->
      (own_prop (doc_props jdoc) jk = None /\ inherited jk = false)
      \/ own_prop (doc_props jdoc) jk = Some JsUndefined)
  /\ (get_prop (doc_props jdoc) jk = JsUndefined ->
      DbSimulator.match_ jdoc (jclause l1 l2 jk "$gt" joperand)
      = (p <- ToPrimitive joperand ;; Ok true)
      /\ DbSimulator.match_ jdoc (jclause l1 l2 jk "$lt" joperand)
         = (p <- ToPrimitive joperand ;; Ok true))
  /\ (get_prop (doc_props jdoc) jk = JsNull ->
      DbSimulator.match_ jdoc (jclause l1 l2 jk "$gt" joperand)
      = (p <- ToPrimitive joperand ;; Ok (negb (nonneg (ToNumber p))))
      /\ DbSimulator.match_ jdoc (jclause l1 l2 jk "$lt" joperand)
         = (p <- ToPrimitive joperand ;; Ok (negb (nonpos (ToNumber p)))))
  /\ (isArray joperand = false -> is_plain_object joperand = false ->
      ToPrimitive joperand = Ok joperand)
  /\ (forall l props,
         joperand = JsObject l props ->
         ToPrimitive joperand
         = match own_prop props "toString" with
           | Some _ => Throw (TypeError "Cannot convert object to primitive value")
           | None => Ok (JsString "[object Object]")
           end).
Proof.
  intros H.
  split; [now rewrite match_gt_clause, H, null_le_any | ].
  split; [now rewrite match_lt_clause, H, null_ge_spec | ].
  split.
  { unfold get_prop. destruct (own_prop (doc_props jdoc) jk) as [v | ].
    - split.
      + intros E. inversion E. now right.
      + intros [[E _] | E]; [discriminate E | now inversion E].
    - destruct (inherited jk).
      + split; [discriminate | intros [[_ E] | E]; discriminate E].
      + split; [intros _; now left | reflexivity]. }
  split; [ | split; [ | split; [apply ToPrimitive_scalar | ]]].
  3: { intros l props ->. cbn. now destruct (own_prop props "toString"). }
  all: intros J; split.
  - rewrite sim_match_gt_clause, J, js_le_undefined.
    now destruct (ToPrimitive joperand).
  - rewrite sim_match_lt_clause, J, js_ge_undefined.
    now destruct (ToPrimitive joperand).
  - rewrite sim_match_gt_clause, J, js_le_null.
    now destruct (ToPrimitive joperand).
  - rewrite sim_match_lt_clause, J, js_ge_null.
    now destruct (ToPrimitive joperand).
Qed.

Lemma null_field_gt_lt_witness :
  let bob := VArray [(KStr "name", VString "Bob"); (KStr "age", VNull)] in
  let jbob := {| doc_loc := 4; doc_props := [("name", JsString "Bob")] |} in
  @field_value Reference.php5 bob (KStr "age") = VNull
  /\ @JsonDB.match_ Reference.php5 bob (clause (KStr "age") "$gt" (VLong 25)) = Ok false
  /\ @JsonDB.match_ Reference.php5 bob (clause (KStr "age") "$lt" (VLong 25)) = Ok true
  /\ @DbSimulator.match_ Reference.js jbob (jclause 8 9 "age" "$gt" (JsNumber 25)) = Ok true.
Proof.
  intros bob jbob.
  assert (H : @field_value Reference.php5 bob (KStr "age") = VNull) by reflexivity.
  destruct (@null_field_gt_lt Reference.php5 Reference.js bob (KStr "age") (VLong 25)
              jbob "age" 8%nat 9%nat (JsNumber 25) H) as (H1 & H2 & _ & H3 & _).
  split; [exact H | ]. split; [exact H1 | ]. split; [exact H2 | ].
  exact (proj1 (H3 eq_refl)).
Defined.

(** C2 as stated fails: a user without [age] satisfies [{age: {$lt: 25}}]
    in the PHP engine (null < 25 in PHP), under either version of the
    juggling rules, and satisfies [{age: {$gt: 25}}] in the simulator
    (undefined <= 25 is false in JavaScript). *)
Lemma absent_field_satisfies_lt :
  let bob := VArray [(KStr "name", VString "Bob")] in
  let jbob := {| doc_loc := 4; doc_props := [("name", JsString "Bob")] |} in
  @JsonDB.match_ Reference.php5 bob (clause (KStr "age") "$lt" (VLong 25)) = Ok true
  /\ @JsonDB.match_ Reference.php8 bob (clause (KStr "age") "$lt" (VLong 25)) = Ok true
  /\ @DbSimulator.match_ Reference.js jbob (jclause 8 9 "age" "$gt" (JsNumber 25)) = Ok true
  /\ @DbSimulator.match_ Reference.js jbob (jclause 8 9 "age" "$lt" (JsNumber 25)) = Ok true.
Proof. repeat split. Qed.

(** In the simulator a field the document does not have but
    [Object.prototype] has is not undefined: [doc["toString"]] is a
    function, compared by its source text, which is below "z".  And an
    operand object with a property [toString] of its own cannot be made
    a primitive: the comparison throws a [TypeError]. *)
Lemma simulator_inherited_field_and_operand_object :
  let jbob := {| doc_loc := 4; doc_props := [("name", JsString "Bob")] |} in
  get_prop (doc_props jbob) "toString" = Builtin "toString"
  /\ @DbSimulator.match_ Reference.js jbob (jclause 8 9 "toString" "$gt" (JsString "z"))
     = Ok false
  /\ @DbSimulator.match_ Reference.js jbob (jclause 8 9 "toString" "$lt" (JsString "z"))
     = Ok true
  /\ (forall jrt : js_runtime,
         DbSimulator.match_ jbob
           (jclause 8 9 "age" "$gt" (JsObject 10 [("toString", JsNumber 1)]))
         = Throw (TypeError "Cannot convert object to primitive value"))
  /\ (forall jrt : js_runtime,
         DbSimulator.match_ jbob (jclause 8 9 "age" "$gt" (JsObject 10 []))
         = Ok true).
Proof.
  intros jbob. repeat split.
  intros jrt. now rewrite sim_match_gt_clause, js_le_undefined.
Qed.

(** ** [$regex] *)

(** C3, PHP side.  [JsonDB::match] hands the operand to [preg_match] as
    it is.  The text "EXAMPLE" has no delimiters ([preg_match] wants
    "/EXAMPLE/i"), so [preg_match] fails, silenced by [@], and the clause
    rejects the document whose email is "john@example.com" -- and every
    other document: under no runtime does the query of the specification
    find it. *)
Theorem php_regex_without_delimiters_never_matches :
  forall rt : php_runtime,
    JsonDB.match_ (VArray Sample.john)
                  (clause (KStr "email") "$regex" (VString "EXAMPLE"))
    = Ok false.
Proof.
  intros rt. now apply regex_undelimited_fails.
Qed.

(** The engine matches case-insensitively only when the caller writes
    the modifier, and then it does. *)
Lemma php_regex_with_delimiters :
  @JsonDB.match_ Reference.php5 (VArray Sample.john)
                 (clause (KStr "email") "$regex" (VString "/EXAMPLE/i")) = Ok true
  /\ @JsonDB.match_ Reference.php5 (VArray Sample.john)
                    (clause (KStr "email") "$regex" (VString "/EXAMPLE/")) = Ok false.
Proof. split; reflexivity. Qed.

(** The simulator does what C3 says: the operand is compiled with the
    flag [i] and tested against [String(val)]. *)
Lemma simulator_regex_ignores_case :
  forall (jrt : js_runtime) (doc : Document) (l1 l2 : loc) (k p : string)
         (test : string -> bool),
    RegExpCreate p "i" = Some test ->
    DbSimulator.match_ doc (jclause l1 l2 k "$regex" (JsString p))
    = (subject <- lookup_string (get_prop (doc_props doc) k) ;; Ok (test subject)).
Proof.
  intros jrt doc l1 l2 k p test H. now rewrite sim_match_regex_clause, H.
Qed.

Lemma simulator_regex_example :
  @DbSimulator.match_ Reference.js Sample.jjohn
                      (jclause 8 9 "email" "$regex" (JsString "EXAMPLE")) = Ok true
  /\ @DbSimulator.match_ Reference.js Sample.jjohn
                         (jclause 8 9 "age" "$regex" (JsString "3")) = Ok true.
Proof. split; reflexivity. Qed.

(** In the PHP engine a pattern [preg_match] cannot use -- no
    delimiters, no closing delimiter, or a body PCRE rejects -- is a
    clause that fails, and no pattern string makes [match] throw. *)
Lemma php_regex_malformed_is_no_match
      (rt : php_runtime) (doc : zval) (k : key) (p : string) :
  (exists b, JsonDB.match_ doc (clause k "$regex" (VString p)) = Ok b)
  /\ (match split_pattern p with
      | None => True
      | Some (body, modifiers) =>
          pcre_match body modifiers (strval (field_value doc k)) = None
      end ->
      JsonDB.match_ doc (clause k "$regex" (VString p)) = Ok false).
Proof.
  split; [apply regex_string_returns | apply regex_malformed_fails].
Qed.

(** C6, simulator side.  [new RegExp(expected, 'i')] throws a
    [SyntaxError] on a pattern that does not compile; [match] does not
    catch it, and neither does [find]: the request fails instead of
    finding nothing. *)
Theorem simulator_regex_malformed_throws
        (jrt : js_runtime) (s : simulator) (n : string) (coll : Collection)
        (d : Document) (ds : list Document) (l1 l2 : loc) (k p : string) :
  RegExpCreate p "i" = None ->
  find_collection (collections (state s)) n = Some coll ->
  documents coll = d :: ds ->
  DbSimulator.match_ d (jclause l1 l2 k "$regex" (JsString p))
  = Throw (SyntaxError "Invalid regular expression")
  /\ DbSimulator.find s n (jclause l1 l2 k "$regex" (JsString p))
     = Throw (SyntaxError "Invalid regular expression").
Proof.
  intros Hp Hf Hd.
  assert (Hm : DbSimulator.match_ d (jclause l1 l2 k "$regex" (JsString p))
               = Throw (SyntaxError "Invalid regular expression"))
    by now rewrite sim_match_regex_clause, Hp.
  split; [exact Hm | ].
  unfold DbSimulator.find. rewrite Hf, Hd. cbn [jclause enumerate List.length Nat.eqb].
  now apply filter_docs_throws.
Qed.

Lemma simulator_regex_malformed_throws_witness :
  @RegExpCreate Reference.js "(" "i" = None
  /\ @DbSimulator.find Reference.js Sample.browser "users"
                       (jclause 8 9 "email" "$regex" (JsString "("))
     = Throw (SyntaxError "Invalid regular expression").
Proof.
  split; [reflexivity | ].
  exact (proj2 (@simulator_regex_malformed_throws Reference.js Sample.browser "users"
                  {| name := "users"; documents := [Sample.jjohn; Sample.jjane];
                     createdAt := 0 |}
                  Sample.jjohn [Sample.jjane] 8%nat 9%nat "email" "("
                  eq_refl eq_refl eq_refl)).
Defined.

(** ** [$in] *)

(** C4, PHP side.  [in_array] is called without its strict flag, so the
    field is compared with [==]: the boolean [true] is found in
    ["admin"], although [true === "admin"] is false.  And [is_array]
    cannot tell a decoded JSON object from a decoded JSON array: the
    operand [{"who": "admin"}], no sequence, is searched all the same. *)
Theorem php_in_compares_loosely :
  forall rt : php_runtime,
    JsonDB.match_ (VArray [(KStr "role", VBool true)])
                  (clause (KStr "role") "$in" (json_decode (JArray [JString "admin"])))
    = Ok true
    /\ identical (VBool true) (VString "admin") = false
    /\ JsonDB.match_ (VArray Sample.john)
                     (clause (KStr "role") "$in"
                             (json_decode (JObject [("who", JString "admin")])))
       = Ok true.
Proof.
  intros rt. repeat split.
Qed.

(** The same with numbers: the string "30" is found in [30]. *)
Lemma php_in_string_number :
  @JsonDB.match_ Reference.php5 (VArray [(KStr "age", VString "30")])
                 (clause (KStr "age") "$in" (VArray [(KInt 0, VLong 30)])) = Ok true
  /\ @JsonDB.match_ Reference.php8 (VArray [(KStr "age", VString "30")])
                    (clause (KStr "age") "$in" (VArray [(KInt 0, VLong 30)])) = Ok true.
Proof. split; reflexivity. Qed.

(** The simulator does what C4 says: the clause holds exactly when the
    operand is an array with an entry [===] to the field value. *)
Lemma simulator_in_is_strict
      (jrt : js_runtime) (doc : Document) (l1 l2 : loc) (k : string) (operand : jsval) :
  (exists b, DbSimulator.match_ doc (jclause l1 l2 k "$in" operand) = Ok b)
  /\ (DbSimulator.match_ doc (jclause l1 l2 k "$in" operand) = Ok true
      <-> exists l items,
          operand = JsArray l items
          /\ exists e : jsval, In e items
                       /\ strict_equal e (get_prop (doc_props doc) k) = true).
Proof.
  rewrite sim_match_in_clause. split; [eauto | ].
  rewrite <- includes_spec. split; intros H; [now inversion H | now rewrite H].
Qed.

(** ** Plain criteria *)

(** C5 as amended.  For a criteria that is a scalar -- null, a boolean, a
    number or a string -- the document satisfies the entry exactly when
    its field value is identical to the criteria, type and value, an
    absent field reading as null in PHP and as undefined in the
    simulator; and evaluation returns.  An array as criteria is not
    compared by value: the simulator compares arrays by object identity. *)
Theorem plain_criteria_identity
        (rt : php_runtime) (jrt : js_runtime)
        (doc : zval) (k : key) (criteria : zval)
        (jdoc : Document) (l : loc) (jk : string) (jcriteria : jsval) :
  is_array criteria = false ->
  is_plain_object jcriteria = false ->
  (exists b, JsonDB.match_ doc (VArray [(k, criteria)]) = Ok b
             /\ (b = true <-> same_scalar (field_value doc k) criteria))
  /\ (exists b, DbSimulator.match_ jdoc (JsObject l [(jk, jcriteria)]) = Ok b
                /\ (b = true <-> same_value (get_prop (doc_props jdoc) jk) jcriteria)).
Proof.
  intros H J. split.
  - exists (identical (field_value doc k) criteria).
    split; [now apply match_plain_criteria | now apply identical_scalar].
  - exists (strict_equal (get_prop (doc_props jdoc) jk) jcriteria).
    split; [now apply sim_match_plain_criteria | now apply strict_equal_same_value].
Qed.

Lemma plain_criteria_identity_witness :
  is_array (VLong 5) = false
  /\ is_plain_object (JsNumber 30) = false
  /\ @JsonDB.match_ Reference.php5 (VArray [(KStr "n", VString "5")])
                    (VArray [(KStr "n", VLong 5)]) = Ok false
  /\ @DbSimulator.match_ Reference.js Sample.jjohn (JsObject 8 [("age", JsNumber 30)])
     = Ok true.
Proof.
  split; [reflexivity | ]. split; [reflexivity | ].
  destruct (@plain_criteria_identity Reference.php5 Reference.js
              (VArray [(KStr "n", VString "5")]) (KStr "n") (VLong 5)
              Sample.jjohn 8%nat "age" (JsNumber 30) eq_refl eq_refl)
    as [(b & Hb & Hiff) (jb & Hjb & Hjiff)].
  split.
  - destruct b; [discriminate (proj1 Hiff eq_refl) | exact Hb].
  - rewrite Hjb. f_equal. apply Hjiff. reflexivity.
Defined.

(** C5 as stated fails on array criteria.  PHP decodes the sequence
    literal [[]] to an array, which [match] runs as an operator mapping
    with no clause: the document with tags "x" satisfies [{tags: []}].
    Under PHP 5 and 7 the index 0 of [["a","b"]] equals '$eq', so
    [{tags: ["a","b"]}] rejects the document whose tags are that very
    list.  The simulator compares an array criteria by identity and
    rejects the document whose tags have the same elements. *)
Lemma array_criteria_are_not_compared_by_value :
  (forall rt : php_runtime,
      JsonDB.match_ (VArray [(KStr "tags", VString "x")])
                    (json_decode (JObject [("tags", JArray [])])) = Ok true)
  /\ identical (VString "x") (json_decode (JArray [])) = false
  /\ @JsonDB.match_ Reference.php5
                    (json_decode (JObject [("tags", JArray [JString "a"; JString "b"])]))
                    (json_decode (JObject [("tags", JArray [JString "a"; JString "b"])]))
     = Ok false
  /\ identical (json_decode (JArray [JString "a"; JString "b"]))
               (json_decode (JArray [JString "a"; JString "b"])) = true
  /\ @DbSimulator.match_ Reference.js
                         {| doc_loc := 4;
                            doc_props := [("tags", JsArray 5 [JsString "a"; JsString "b"])] |}
                         (JsObject 8 [("tags", JsArray 9 [JsString "a"; JsString "b"])])
     = Ok false.
Proof. repeat split. Qed.

(** ** Delete *)



(** C10.  When no document matches, [update] and [delete] of the PHP
    engine return 0 and do not call [writeCollection]: the file system
    after the call is the one before it. *)
Theorem no_match_no_write
        (rt : php_runtime) (dbPath : string) (fs : filesystem)
        (collection : string) (data : JsonDB.array) (query upd : zval) :
  readCollection dbPath fs collection = Ok data ->
  (forall d, In d (array_values data) -> JsonDB.match_ d query = Ok false) ->
  JsonDB.update dbPath fs collection query upd = (Ok 0, fs)
  /\ JsonDB.delete dbPath fs collection query = (Ok 0, fs).
Proof.
  intros Hr Hm. split; [now apply update_no_match with data | now apply delete_no_match with data].
Qed.

Lemma no_match_no_write_witness :
  let centenarian := clause (KStr "age") "$gt" (VLong 100) in
  let birthday := VArray [(KStr "$set", VArray [(KStr "age", VLong 101)])] in
  readCollection "db/" Sample.users_disk "users" = Ok Sample.users
  /\ @JsonDB.update Reference.php5 "db/" Sample.users_disk "users" centenarian birthday
     = (Ok 0, Sample.users_disk)
  /\ @JsonDB.delete Reference.php5 "db/" Sample.users_disk "users" centenarian
     = (Ok 0, Sample.users_disk).
Proof.
  intros centenarian birthday.
  assert (Hr : readCollection "db/" Sample.users_disk "users" = Ok Sample.users)
    by reflexivity.
  split; [exact Hr | ].
  apply (@no_match_no_write Reference.php5 "db/" Sample.users_disk "users" Sample.users
           centenarian birthday Hr).
  intros d [<- | [<- | []]]; reflexivity.
Defined.

(** ** Reading a collection *)

(** C8 as amended.  Once the collection name is accepted (its sanitized
    form is neither empty nor "0"), reading never throws, whatever the
    file system holds; and a file that is missing, unreadable, no JSON
    text, or a JSON text that is neither an array nor an object, reads
    as the empty sequence, which is then all [find] returns.  The
    simulator returns the empty sequence for a collection it does not
    have. *)
Theorem unusable_file_reads_empty
        (rt : php_runtime) (dbPath : string) (fs : filesystem)
        (collection path : string) (query : zval)
        (jrt : js_runtime) (s : simulator) (n : string) (jquery : jsval) :
  getFilePath dbPath collection = Ok path ->
  (files fs path = None
   \/ exists f, files fs path = Some f
                /\ (readable f = false \/ no_table (body f) = true)) ->
  find_collection (collections (state s)) n = None ->
  (forall fs0, returns (readCollection dbPath fs0 collection))
  /\ readCollection dbPath fs collection = Ok []
  /\ JsonDB.find dbPath fs collection query = Ok []
  /\ DbSimulator.find s n jquery = Ok [].
Proof.
  intros Hp Hfile Hmissing.
  pose proof (table_of_soft fs path Hfile) as Ht.
  split; [intros fs0; exists (table_of fs0 path); now apply readCollection_table | ].
  split; [now rewrite (readCollection_table dbPath fs collection Hp), Ht | ].
  split; [now apply find_empty_table with path | now apply sim_find_missing].
Qed.

Lemma unusable_file_reads_empty_witness :
  let scribble := Sample.disk "db/users.json" (Garbage "not json {") in
  getFilePath "db/" "users" = Ok "db/users.json"
  /\ readCollection "db/" scribble "users" = Ok []
  /\ @JsonDB.find Reference.php5 "db/" scribble "users" (VArray []) = Ok []
  /\ @DbSimulator.find Reference.js Sample.browser "orders" (JsObject 8 []) = Ok [].
Proof.
  intros scribble.
  assert (Hp : getFilePath "db/" "users" = Ok "db/users.json") by reflexivity.
  split; [exact Hp | ].
  apply (@unusable_file_reads_empty Reference.php5 "db/" scribble "users" "db/users.json"
           (VArray []) Reference.js Sample.browser "orders" (JsObject 8 []) Hp).
  - right. eexists. split; [reflexivity | right; reflexivity].
  - reflexivity.
Defined.

(** C8 as stated fails: a file holding a JSON object does not decode to
    a JSON array, yet [json_decode(..., true)] turns it into a PHP array
    and [readCollection] returns it, one entry per member; and for a name
    that sanitizes to nothing, reading throws. *)
Lemma object_file_is_not_empty :
  let members := JObject [("first", JObject [("name", JString "Ann")])] in
  no_table (Text members) = false
  /\ readCollection "db/" (Sample.disk "db/users.json" (Text members)) "users"
     = Ok [(KStr "first", VArray [(KStr "name", VString "Ann")])]
  /\ readCollection "db/" (Sample.disk "db/users.json" (Text members)) "!?"
     = Throw (Exception "Invalid collection name").
Proof. repeat split. Qed.

(** ** Identifiers *)

Lemma sim_insert_keeps_ids
      (jrt : js_runtime) (s : simulator) (n : string) (jdoc : jsval) (random : string) :
  jids_ok (documents_of s n) = true ->
  junused_id ("doc_" ++ random) (documents_of s n) = true ->
  jids_ok (documents_of (snd (DbSimulator.insert s n jdoc random)) n) = true.
Proof.
  intros Hok Hun. unfold documents_of in Hok, Hun.
  destruct (find_collection (collections (state s)) n) as [coll | ] eqn:Hf.
  - destruct (sim_insert_spec s n jdoc random Hf) as (r & s' & -> & Hid & Hdocs & _).
    cbn [snd]. rewrite Hdocs. now apply jids_ok_snoc with random.
  - rewrite (sim_insert_missing s n jdoc random Hf). cbn [snd].
    unfold documents_of. now rewrite Hf.
Qed.

Lemma sim_delete_keeps_ids
      (jrt : js_runtime) (s : simulator) (n : string) (jquery : jsval) :
  jids_ok (documents_of s n) = true ->
  jids_ok (documents_of (snd (DbSimulator.delete s n jquery)) n) = true.
Proof.
  intros Hok. unfold DbSimulator.delete.
  destruct (find_collection (collections (state s)) n) as [coll | ] eqn:Hf; [ | exact Hok].
  destruct (filter_docs negb (documents coll) jquery) as [kept | e] eqn:Hk; [ | exact Hok].
  destruct (save_and_return_cases
              (with_state s {| collections := set_documents (collections (state s)) n kept |}
                          (next_loc s))
              (Z.of_nat (List.length (documents coll)) - Z.of_nat (List.length kept)))
    as (r & s' & -> & Hst & _).
  cbn [snd]. unfold documents_of in *. rewrite Hst. cbn [with_state state collections].
  rewrite (find_set_documents _ _ kept Hf). cbn [documents].
  rewrite Hf in Hok. rewrite (filter_docs_inv _ _ _ Hk). now apply jids_ok_filter.
Qed.

(** A call of the simulator that returns leaves in [localStorage] the
    text of the state, unless it had nothing to store. *)
Lemma sim_returns_saved
      (A : Type) (s s' : simulator) (a b : A) :
  save_and_return s a = (Ok b, s') ->
  storage s' = Some (stringify_state (state s')).
Proof.
  unfold save_and_return, save.
  destruct (fits s (stringify_state (state s))); intros E; inversion E; reflexivity.
Qed.

(** A write to another file leaves the table of this one alone. *)
Lemma table_of_other_file (fs : filesystem) (file path : string) (c : content) :
  file <> path -> table_of (with_file fs file c) path = table_of fs path.
Proof.
  intros H. unfold table_of, file_get_contents.
  rewrite files_with_file; [reflexivity | congruence].
Qed.

(** [writeCollection] touches the file of its collection at most. *)
Lemma writeCollection_touches
      (rt : php_runtime) (dbPath : string) (fs fs' : filesystem) (collection : string)
      (data : JsonDB.array) (r : result unit) :
  writeCollection dbPath fs collection data = (r, fs') ->
  fs' = fs
  \/ exists file c, getFilePath dbPath collection = Ok file /\ fs' = with_file fs file c.
Proof.
  unfold writeCollection, file_put_contents.
  destruct (getFilePath dbPath collection) as [file | e];
    [ | intros E; inversion E; now left].
  destruct (writable fs file).
  - intros E; inversion E. right. eauto.
  - destruct (torn fs file) as [leftover | ]; [ | intros E; inversion E; now left].
    destruct (written (json_encode (VArray data))) as [j | [ | ch raw]];
      intros E; inversion E; right; eauto.
Qed.

Lemma createCollection_keeps_ids
      (rt : php_runtime) (dbPath : string) (fs : filesystem) (path other : string) :
  ids_ok (array_values (table_of fs path)) = true ->
  ids_ok (array_values
            (table_of (snd (Collections.createCollection dbPath fs other)) path)) = true.
Proof.
  intros Hok. unfold Collections.createCollection.
  destruct (empty (VString other)); [exact Hok | ].
  destruct (getFilePath dbPath other) as [file | e] eqn:Hp; [ | exact Hok].
  destruct (file_exists fs file); [exact Hok | ]. cbn [negb].
  destruct (writeCollection dbPath fs other []) as [[u | e] fs'] eqn:W; cbn [snd].
  all: destruct (String.eqb file path) eqn:E;
    [ apply String.eqb_eq in E; subst file;
      eapply (@writeCollection_ids rt dbPath fs fs' other path [] _ Hp);
        [reflexivity | reflexivity | reflexivity | exact Hok | exact W]
    | apply String.eqb_neq in E;
      destruct (@writeCollection_touches _ _ _ _ _ _ _ W) as [-> | (f & c & Hf & ->)];
      [exact Hok | ];
      rewrite Hp in Hf; inversion Hf; subst f;
      now rewrite table_of_other_file ].
Qed.

Lemma drop_keeps_ids
      (rt : php_runtime) (dbPath : string) (may_unlink : string -> bool)
      (fs : filesystem) (path other : string) :
  ids_ok (array_values (table_of fs path)) = true ->
  ids_ok (array_values
            (table_of (snd (Collections.drop dbPath may_unlink fs other)) path)) = true.
Proof.
  intros Hok. unfold Collections.drop, Collections.unlink.
  destruct (getFilePath dbPath other) as [file | e]; [ | exact Hok].
  destruct (file_exists fs file); [ | exact Hok].
  destruct (may_unlink file); [ | exact Hok].
  cbn [snd]. unfold table_of, file_get_contents in *. cbn [files].
  destruct (String.eqb path file); [reflexivity | exact Hok].
Qed.

Lemma sim_createCollection_keeps_ids
      (s : simulator) (n other : string) (now : Q) :
  jids_ok (documents_of s n) = true ->
  jids_ok (documents_of (snd (SimulatorCollections.createCollection s other now)) n)
  = true.
Proof.
  intros Hok. unfold SimulatorCollections.createCollection.
  destruct (find_collection (collections (state s)) other); [exact Hok | ].
  unfold documents_of in *. rewrite save_state. cbn [with_state state collections].
  rewrite find_collection_snoc.
  destruct (find_collection (collections (state s)) n); [exact Hok | ].
  cbn [name]. now destruct (String.eqb other n).
Qed.

Lemma sim_deleteCollection_keeps_ids (s : simulator) (n other : string) :
  jids_ok (documents_of s n) = true ->
  jids_ok (documents_of (snd (SimulatorCollections.deleteCollection s other)) n) = true.
Proof.
  intros Hok. unfold SimulatorCollections.deleteCollection.
  unfold documents_of in *. rewrite save_state. cbn [with_state state collections].
  rewrite find_collection_filter.
  now destruct (String.eqb n other).
Qed.

(** C9 as amended.  Take a collection in which every persisted document
    has an [_id] that is a non-empty string, no two the same.  In the
    PHP engine this is still so of the documents read from the file
    after an [insert] of a document that has no [_id] set (and, as
    every PHP array, no key twice), when the generated id is not yet
    used in the collection; after an [update] whose [$set] and
    [$unset] do not name [_id]; after any [delete]; and after a
    [createCollection] or [drop] of any collection -- however the call
    ends, returning or throwing.  An [insert] that returns gave the
    document the generated id, which starts with "doc_".  In the
    simulator it is still so of the collection after any [insert]
    whose generated id is not yet used, after any [delete], and after
    a [createCollection] or [deleteCollection] of any name; a document
    [insert] returns carries the generated id, and [localStorage] then
    holds the text of that state.  (The PHP engine stores a caller's
    own [_id] as it is given, and [update] sets or removes [_id] like
    any other field.) *)
Theorem generated_ids_keep_invariant
        (rt : php_runtime) (dbPath : string) (fs : filesystem)
        (collection path : string) (document : JsonDB.array) (entropy : string)
        (query upd : zval)
        (other : string) (may_unlink : string -> bool)
        (jrt : js_runtime) (s : simulator) (n : string)
        (jdoc : jsval) (random : string) (jquery : jsval)
        (jother : string) (now : Q) :
  getFilePath dbPath collection = Ok path ->
  ids_ok (array_values (table_of fs path)) = true ->
  jids_ok (documents_of s n) = true ->
  (isset document (KStr "_id") = false ->
   distinct key_eqb (map fst document) = true ->
   unused_id (uniqid "doc_" entropy) (array_values (table_of fs path)) = true ->
   ids_ok (array_values
             (table_of (snd (JsonDB.insert dbPath fs collection document entropy)) path))
   = true
   /\ forall d, fst (JsonDB.insert dbPath fs collection document entropy) = Ok d ->
                id_of (VArray d) = Some (VString ("doc_" ++ entropy)))
  /\ (names_id (update_ops upd "$set") = false ->
      names_id (update_ops upd "$unset") = false ->
      ids_ok (array_values
                (table_of (snd (JsonDB.update dbPath fs collection query upd)) path))
      = true)
  /\ ids_ok (array_values
               (table_of (snd (JsonDB.delete dbPath fs collection query)) path))
     = true
  /\ ids_ok (array_values
               (table_of (snd (Collections.createCollection dbPath fs other)) path))
     = true
  /\ ids_ok (array_values
               (table_of (snd (Collections.drop dbPath may_unlink fs other)) path))
     = true
  /\ (junused_id ("doc_" ++ random) (documents_of s n) = true ->
      jids_ok (documents_of (snd (DbSimulator.insert s n jdoc random)) n) = true
      /\ forall d, fst (DbSimulator.insert s n jdoc random) = Ok d ->
                   jid_of d = JsString ("doc_" ++ random)
                   /\ storage (snd (DbSimulator.insert s n jdoc random))
                      = Some (stringify_state
                                (state (snd (DbSimulator.insert s n jdoc random)))))
  /\ jids_ok (documents_of (snd (DbSimulator.delete s n jquery)) n) = true
  /\ jids_ok (documents_of
                (snd (SimulatorCollections.createCollection s jother now)) n) = true
  /\ jids_ok (documents_of
                (snd (SimulatorCollections.deleteCollection s jother)) n) = true.
Proof.
  intros Hp Hok Hjok.
  split; [ | split; [ | split; [ | split; [ | split; [ | split; [ | split; [ | split]]]]]]].
  - intros Hno Hd Hfresh. split.
    + destruct (JsonDB.insert dbPath fs collection document entropy) as [r fs'] eqn:E.
      cbn [snd]. eapply insert_keeps_ids; eassumption.
    + intros d. unfold JsonDB.insert.
      rewrite (readCollection_table dbPath fs collection Hp).
      fold (stamped document entropy).
      destruct (array_push _ _) as [data' | ].
      * destruct (writeCollection dbPath fs collection data') as [[u | e] fs'];
          cbn [fst]; intros E; inversion E; subst. now apply stamped_id.
      * destruct php8; [discriminate | ].
        destruct (writeCollection dbPath fs collection (table_of fs path))
          as [[u | e] fs']; cbn [fst]; intros E; inversion E; subst.
        now apply stamped_id.
  - intros Hs Hu.
    destruct (JsonDB.update dbPath fs collection query upd) as [r fs'] eqn:E.
    cbn [snd]. eapply update_keeps_ids; eassumption.
  - destruct (JsonDB.delete dbPath fs collection query) as [r fs'] eqn:E.
    cbn [snd]. eapply delete_keeps_ids; eassumption.
  - now apply createCollection_keeps_ids.
  - now apply drop_keeps_ids.
  - intros Hfresh. split; [now apply sim_insert_keeps_ids | ].
    intros d. unfold DbSimulator.insert.
    destruct (find_collection (collections (state s)) n) as [coll | ]; [ | discriminate].
    match goal with
    | |- context [save_and_return ?x ?y] =>
        destruct (save_and_return x y) as [[b | e] s'] eqn:S
    end; cbn [fst snd]; intros E; inversion E; subst.
    split; [ | eapply sim_returns_saved; exact S].
    unfold save_and_return, save in S.
    destruct (fits _ _); inversion S; subst. apply get_set_prop.
  - now apply sim_delete_keeps_ids.
  - now apply sim_createCollection_keeps_ids.
  - now apply sim_deleteCollection_keeps_ids.
Qed.

Lemma generated_ids_keep_invariant_witness :
  let eve := [(KStr "name", VString "Eve")] in
  let birthday := VArray [(KStr "$set", VArray [(KStr "age", VLong 31)])] in
  let after_insert :=
    snd (@JsonDB.insert Reference.php5 "db/" Sample.users_disk "users" eve
                        "65f1c2e4a7b3d9.12345678") in
  let after_update :=
    snd (@JsonDB.update Reference.php5 "db/" Sample.users_disk "users" (VArray [])
                        birthday) in
  let after_delete :=
    snd (@JsonDB.delete Reference.php5 "db/" Sample.users_disk "users"
                        (clause (KStr "age") "$gt" (VLong 26))) in
  ids_ok (array_values (table_of Sample.users_disk "db/users.json")) = true
  /\ ids_ok (array_values (table_of after_insert "db/users.json")) = true
  /\ List.length (table_of after_insert "db/users.json") = 3%nat
  /\ ids_ok (array_values (table_of after_update "db/users.json")) = true
  /\ ids_ok (array_values (table_of after_delete "db/users.json")) = true
  /\ List.length (table_of after_delete "db/users.json") = 1%nat
  /\ jids_ok (documents_of
                (snd (DbSimulator.insert Sample.browser "users"
                        (JsObject 7 [("name", JsString "Eve")]) "k3x9q2m1z"))
                "users") = true.
Proof.
  intros eve birthday after_insert after_update after_delete.
  assert (Hok : ids_ok (array_values (table_of Sample.users_disk "db/users.json")) = true)
    by reflexivity.
  destruct (@generated_ids_keep_invariant Reference.php5 "db/" Sample.users_disk "users"
              "db/users.json" eve "65f1c2e4a7b3d9.12345678"
              (clause (KStr "age") "$gt" (VLong 26)) birthday
              "orders" (fun _ => true)
              Reference.js Sample.browser "users"
              (JsObject 7 [("name", JsString "Eve")]) "k3x9q2m1z" (JsObject 8 [])
              "orders" 1700000000000
              eq_refl Hok eq_refl)
    as (Hi & _ & Hd & _ & _ & Hji & _).
  destruct (@generated_ids_keep_invariant Reference.php5 "db/" Sample.users_disk "users"
              "db/users.json" eve "65f1c2e4a7b3d9.12345678"
              (VArray []) birthday
              "users" (fun _ => true)
              Reference.js Sample.browser "users"
              (JsObject 7 [("name", JsString "Eve")]) "k3x9q2m1z" (JsObject 8 [])
              "users" 1700000000000
              eq_refl Hok eq_refl)
    as (_ & Hu & _).
  split; [exact Hok | ].
  split; [exact (proj1 (Hi eq_refl eq_refl eq_refl)) | ].
  split; [reflexivity | ].
  split; [exact (Hu eq_refl eq_refl) | ].
  split; [exact Hd | ].
  split; [reflexivity | ].
  exact (proj1 (Hji eq_refl)).
Defined.

(** C9 as stated fails in the PHP engine: [insert] keeps an [_id] that is
    set and checks nothing about it, and [update] treats [_id] like any
    other field.  Inserting a document whose [_id] is that of a stored
    one gives a collection with the id twice; inserting one whose [_id]
    is the empty string stores an empty id; an update that sets [_id]
    gives every matching document the same id; an update that unsets
    [_id] leaves documents without one. *)
Lemma supplied_id_is_not_checked :
  let twin := [(KStr "_id", VString "doc_a1"); (KStr "name", VString "Eve")] in
  let blank := [(KStr "_id", VString ""); (KStr "name", VString "Eve")] in
  let after doc := snd (@JsonDB.insert Reference.php5 "db/" Sample.users_disk "users" doc "x") in
  let rename := VArray [(KStr "$set", VArray [(KStr "_id", VString "same")])] in
  let strip := VArray [(KStr "$unset", VArray [(KStr "_id", VString "")])] in
  let updated_with upd :=
    @JsonDB.update Reference.php5 "db/" Sample.users_disk "users" (VArray []) upd in
  ids_ok (array_values (table_of Sample.users_disk "db/users.json")) = true
  /\ fst (@JsonDB.insert Reference.php5 "db/" Sample.users_disk "users" twin "x") = Ok twin
  /\ ids_unique (array_values (table_of (after twin) "db/users.json")) = false
  /\ fst (@JsonDB.insert Reference.php5 "db/" Sample.users_disk "users" blank "x") = Ok blank
  /\ forallb nonempty_id (array_values (table_of (after blank) "db/users.json")) = false
  /\ fst (updated_with rename) = Ok 2
  /\ ids_unique (array_values (table_of (snd (updated_with rename)) "db/users.json")) = false
  /\ fst (updated_with strip) = Ok 2
  /\ forallb nonempty_id
             (array_values (table_of (snd (updated_with strip)) "db/users.json")) = false.
Proof. repeat split. Qed.

(* ================================================================== *)
(** * Beyond the specification: what the code shows of itself *)


Module CollectionsFacts.

Import JsonDB Spec Collections Notions JsonDBFacts.

(** ** Paths *)

Lemma filter_forallb (p : ascii -> bool) (s : string) :
  string_forallb p (string_filter p s) = true.
Proof.
  induction s as [ | c r IH]; cbn; [reflexivity | ].
  destruct (p c) eqn:E; cbn; [now rewrite E | exact IH].
Qed.

Lemma filter_fixed (p : ascii -> bool) (s : string) :
  string_forallb p s = true -> string_filter p s = s.
Proof.
  induction s as [ | c r IH]; cbn; [reflexivity | ].
  intros H. apply andb_prop in H as [Hc Hr]. rewrite Hc. now rewrite IH.
Qed.

Lemma filter_idempotent (p : ascii -> bool) (s : string) :
  string_filter p (string_filter p s) = string_filter p s.
Proof. apply filter_fixed, filter_forallb. Qed.

Lemma getFilePath_inv (dbPath collection path : string) :
  getFilePath dbPath collection = Ok path ->
  path = dbPath ++ string_filter safe_char collection ++ ".json"
  /\ empty (VString (string_filter safe_char collection)) = false.
Proof.
  unfold getFilePath.
  destruct (empty (VString (string_filter safe_char collection))); [discriminate | ].
  intros H. inversion H. split; reflexivity.
Qed.

(** The file of a collection is named by the letters, digits and
    underscores of the collection name and by nothing else: whatever
    the name, the path stays inside the database directory, and two
    names with the same such characters are one collection. *)
Theorem collection_path_is_sanitized (dbPath collection path : string) :
  getFilePath dbPath collection = Ok path ->
  exists safeName,
    path = dbPath ++ safeName ++ ".json"
    /\ string_forallb (fun c => is_alnum c || Ascii.eqb c "_")%bool safeName = true
    /\ safeName <> "" /\ safeName <> "0"
    /\ (forall other,
           string_filter safe_char other = safeName ->
           getFilePath dbPath other = Ok path)
    /\ getFilePath dbPath safeName = Ok path.
Proof.
  intros H. destruct (getFilePath_inv dbPath collection H) as [-> He].
  exists (string_filter safe_char collection).
  split; [reflexivity | ]. split; [apply (filter_forallb safe_char) | ].
  split; [intros E; rewrite E in He; discriminate He | ].
  split; [intros E; rewrite E in He; discriminate He | ].
  split.
  - intros other E. unfold getFilePath. rewrite E, He. reflexivity.
  - unfold getFilePath. rewrite filter_idempotent, He. reflexivity.
Qed.

Lemma collection_path_is_sanitized_witness :
  getFilePath "db/" "../etc/pass wd" = Ok "db/etcpasswd.json"
  /\ getFilePath "db/" "etc_passwd!" = Ok "db/etc_passwd.json"
  /\ exists safeName, "db/etcpasswd.json" = "db/" ++ safeName ++ ".json"
                      /\ getFilePath "db/" safeName = Ok "db/etcpasswd.json".
Proof.
  split; [reflexivity | ]. split; [reflexivity | ].
  destruct (@collection_path_is_sanitized "db/" "../etc/pass wd" "db/etcpasswd.json" eq_refl)
    as (safeName & Hp & _ & _ & _ & _ & Hs).
  exists safeName. split; [exact Hp | exact Hs].
Defined.

Lemma getFilePath_refuses (dbPath collection : string) :
  string_filter safe_char collection = "" \/ string_filter safe_char collection = "0" ->
  getFilePath dbPath collection = Throw (Exception "Invalid collection name").
Proof. intros [H | H]; unfold getFilePath; rewrite H; reflexivity. Qed.

(** A name is refused exactly when nothing, or just "0", is left of
    it. *)
Theorem collection_name_refused (dbPath collection : string) :
  getFilePath dbPath collection = Throw (Exception "Invalid collection name")
  <-> (string_filter safe_char collection = ""
       \/ string_filter safe_char collection = "0").
Proof.
  unfold getFilePath, empty. cbn [zval_is_true].
  rewrite Bool.negb_involutive.
  destruct (String.eqb_spec (string_filter safe_char collection) "") as [E | E];
    [rewrite E; cbn; split; [now left | reflexivity] | ].
  destruct (String.eqb_spec (string_filter safe_char collection) "0") as [E0 | E0];
    [rewrite E0; cbn; split; [now right | reflexivity] | ].
  cbn. split; [discriminate | intros [H | H]; contradiction].
Qed.

Lemma collection_name_refused_witness :
  string_filter safe_char "0!" = "0"
  /\ getFilePath "db/" "0!" = Throw (Exception "Invalid collection name").
Proof.
  assert (H : string_filter safe_char "0!" = "0") by reflexivity.
  split; [exact H | ].
  exact (proj2 (collection_name_refused "db/" "0!") (or_intror H)).
Defined.

Section Admin.

Context {rt : php_runtime}.

Variable dbPath : string.

(** ** Failed operations *)

Lemma after_failed_write (fs fs' : filesystem) (collection : string)
      (data : JsonDB.array) (e : exn) :
  writeCollection dbPath fs collection data = (Throw e, fs') ->
  after_failure dbPath fs fs' collection /\ (fs' = fs \/ exists msg, e = Exception msg).
Proof.
  intros H. destruct (writeCollection_throw dbPath fs collection data H)
    as [-> | (path & leftover & Hp & Hw & Ht & -> & ->)].
  - split; now left.
  - split; [right; exists path, leftover; auto | right; eauto].
Qed.

Lemma insert_throw (fs fs' : filesystem) (collection : string)
      (document : JsonDB.array) (entropy : string) (e : exn) :
  insert dbPath fs collection document entropy = (Throw e, fs') ->
  after_failure dbPath fs fs' collection /\ (fs' = fs \/ exists msg, e = Exception msg).
Proof.
  unfold insert. destruct (readCollection dbPath fs collection); [ | inversion 1; split; now left].
  destruct (array_push _ _) as [data' | ].
  - destruct (writeCollection dbPath fs collection _) as [[[] | e0] fs0] eqn:W;
      inversion 1; subst; now apply after_failed_write in W.
  - destruct php8; [inversion 1; split; now left | ].
    destruct (writeCollection dbPath fs collection _) as [[[] | e0] fs0] eqn:W;
      inversion 1; subst; now apply after_failed_write in W.
Qed.

Lemma update_throw (fs fs' : filesystem) (collection : string) (query upd : zval)
      (e : exn) :
  update dbPath fs collection query upd = (Throw e, fs') ->
  after_failure dbPath fs fs' collection /\ (fs' = fs \/ exists msg, e = Exception msg).
Proof.
  unfold update. destruct (readCollection dbPath fs collection); [ | inversion 1; split; now left].
  destruct (update_loop a query upd) as [[data' n] | e0]; [ | inversion 1; split; now left].
  destruct (0 <? n); [ | now inversion 1].
  destruct (writeCollection dbPath fs collection _) as [[[] | e0] fs0] eqn:W;
    inversion 1; subst; now apply after_failed_write in W.
Qed.

Lemma delete_throw (fs fs' : filesystem) (collection : string) (query : zval) (e : exn) :
  delete dbPath fs collection query = (Throw e, fs') ->
  after_failure dbPath fs fs' collection /\ (fs' = fs \/ exists msg, e = Exception msg).
Proof.
  unfold delete. destruct (readCollection dbPath fs collection); [ | inversion 1; split; now left].
  destruct (delete_loop a query) as [kept | e0]; [ | inversion 1; split; now left].
  destruct (0 <? _); [ | now inversion 1].
  destruct (writeCollection dbPath fs collection _) as [[[] | e0] fs0] eqn:W;
    inversion 1; subst; now apply after_failed_write in W.
Qed.

Lemma createCollection_throw (fs fs' : filesystem) (collection : string) (e : exn) :
  createCollection dbPath fs collection = (Throw e, fs') ->
  after_failure dbPath fs fs' collection /\ (fs' = fs \/ exists msg, e = Exception msg).
Proof.
  unfold createCollection. destruct (empty _); [inversion 1; split; now left | ].
  destruct (getFilePath dbPath collection) as [file | e0] eqn:Hp; [ | inversion 1; split; now left].
  destruct (negb _); [ | now inversion 1].
  destruct (writeCollection dbPath fs collection _) as [[[] | e0] fs0] eqn:W;
    inversion 1; subst; now apply after_failed_write in W.
Qed.

Lemma drop_throw (may_unlink : string -> bool) (fs fs' : filesystem)
      (collection : string) (e : exn) :
  drop dbPath may_unlink fs collection = (Throw e, fs') -> fs' = fs.
Proof.
  unfold drop, unlink.
  destruct (getFilePath dbPath collection) as [file | e0]; [ | now inversion 1].
  destruct (file_exists fs file); [ | now inversion 1].
  destruct (may_unlink file); now inversion 1.
Qed.

(** What [after_failure] allows: where no write can fail part-way the
    file system is unchanged; in any case every file but the one of the
    collection is as it was, and that one is as it was or holds no
    table any more. *)
Lemma after_failure_frame (fs fs' : filesystem) (collection : string) :
  after_failure dbPath fs fs' collection ->
  ((forall p, torn fs p = None) -> fs' = fs)
  /\ (forall p, getFilePath dbPath collection <> Ok p -> files fs' p = files fs p)
  /\ (forall p, getFilePath dbPath collection = Ok p ->
                files fs' p = files fs p \/ table_of fs' p = []).
Proof.
  intros [-> | (path & leftover & Hp & Hw & Ht & ->)].
  - repeat split; auto.
  - split; [intros Hn; rewrite Hn in Ht; discriminate Ht | ].
    split.
    + intros p Hne. apply files_with_file. intros ->. now elim Hne.
    + intros p Hp'. right. rewrite Hp in Hp'. inversion Hp'; subst.
      apply garbage_table.
Qed.

(** An operation of the store that throws has left the file system as
    it was -- unless what failed is the write of [writeCollection] after
    the file of the collection was opened, as on a full disk: then that
    file holds what the failed write left of it, it reads as the empty
    collection, and every other file is as it was.  A [drop] that
    throws has changed nothing. *)
Theorem failed_operation_effect
        (may_unlink : string -> bool) (fs fs' : filesystem) (collection : string)
        (document : JsonDB.array) (entropy : string) (query upd : zval) (e : exn) :
  (insert dbPath fs collection document entropy = (Throw e, fs')
   \/ update dbPath fs collection query upd = (Throw e, fs')
   \/ delete dbPath fs collection query = (Throw e, fs')
   \/ createCollection dbPath fs collection = (Throw e, fs') ->
   after_failure dbPath fs fs' collection
   /\ ((forall p, torn fs p = None) -> fs' = fs)
   /\ (forall p, getFilePath dbPath collection <> Ok p -> files fs' p = files fs p)
   /\ (forall p, getFilePath dbPath collection = Ok p ->
                 files fs' p = files fs p \/ table_of fs' p = []))
  /\ (drop dbPath may_unlink fs collection = (Throw e, fs') -> fs' = fs).
Proof.
  split; [ | apply drop_throw].
  intros H.
  assert (A : after_failure dbPath fs fs' collection).
  { destruct H as [H | [H | [H | H]]];
      [apply insert_throw in H | apply update_throw in H
      | apply delete_throw in H | apply createCollection_throw in H];
      exact (proj1 H). }
  split; [exact A | now apply after_failure_frame].
Qed.


(** ** [createCollection] *)

(** Creating a collection never changes what is read from it: a missing
    file is written as the empty array, a file that is there is left as
    it is, no other file is touched, and creating again changes
    nothing. *)
Theorem createCollection_keeps_documents
        (fs : filesystem) (collection path : string) :
  empty (VString collection) = false ->
  getFilePath dbPath collection = Ok path ->
  (file_exists fs path = false -> writable fs path = true) ->
  exists fs',
    createCollection dbPath fs collection = (Ok true, fs')
    /\ file_exists fs' path = true
    /\ (file_exists fs path = true -> fs' = fs)
    /\ (file_exists fs path = false -> stored fs' path = Some (Text (JArray [])))
    /\ (forall p, p <> path -> files fs' p = files fs p)
    /\ table_of fs' path = table_of fs path
    /\ createCollection dbPath fs' collection = (Ok true, fs').
Proof.
  intros He Hp Hw. unfold createCollection. rewrite He, Hp.
  destruct (file_exists fs path) eqn:Ex; cbn [negb].
  - exists fs. rewrite Ex. cbn [negb]. repeat split; auto. discriminate.
  - destruct (writeCollection_ok dbPath fs collection [] Hp (Hw eq_refl))
      as (fs' & Hwr & Hfs & Hst & Hother).
    assert (Hnone : files fs path = None)
      by (unfold file_exists in Ex; destruct (files fs path); [discriminate | reflexivity]).
    assert (Ex' : file_exists fs' path = true).
    { unfold file_exists. unfold stored in Hst.
      destruct (files fs' path); [reflexivity | discriminate Hst]. }
    exists fs'. rewrite Hwr, Ex'. cbn [negb].
    split; [reflexivity | ]. split; [reflexivity | ]. split; [discriminate | ].
    split; [intros _; exact Hst | ]. split; [exact Hother | ]. split; [ | reflexivity].
    rewrite Hfs, table_of_with_file. unfold readable_if_present, table_of, file_get_contents.
    now rewrite Hnone.
Qed.

(** The two refusals of [createCollection] are told apart by their
    messages: a name that is empty or "0" is said to be empty, a name
    with characters but none of them usable is said to be invalid --
    so "0" can be neither created nor used, and "0!" is called
    invalid. *)
Theorem createCollection_refusals (fs : filesystem) (collection : string) :
  (collection = "" \/ collection = "0" ->
   createCollection dbPath fs collection
   = (Throw (Exception "Collection name cannot be empty"), fs))
  /\ (collection <> "" -> collection <> "0" ->
      (string_filter safe_char collection = ""
       \/ string_filter safe_char collection = "0") ->
      createCollection dbPath fs collection
      = (Throw (Exception "Invalid collection name"), fs)).
Proof.
  split.
  - intros [-> | ->]; reflexivity.
  - intros H1 H2 Hs. unfold createCollection.
    assert (He : empty (VString collection) = false).
    { unfold empty. cbn [zval_is_true]. rewrite Bool.negb_involutive.
      apply String.eqb_neq in H1, H2. now rewrite H1, H2. }
    rewrite He.
    now rewrite (getFilePath_refuses dbPath collection Hs).
Qed.

(** ** [drop] *)

(** Dropping a collection that has no file returns [false] and changes
    nothing.  Dropping one that has a file removes that file and no
    other and returns [true]; the collection then reads as empty, and
    dropping it again returns [false].  When the file cannot be removed,
    [drop] throws. *)
Theorem drop_removes_the_file
        (may_unlink : string -> bool) (fs : filesystem) (collection path : string)
        (query : zval) :
  getFilePath dbPath collection = Ok path ->
  (file_exists fs path = false ->
   drop dbPath may_unlink fs collection = (Ok false, fs))
  /\ (file_exists fs path = true -> may_unlink path = true ->
      exists fs',
        drop dbPath may_unlink fs collection = (Ok true, fs')
        /\ file_exists fs' path = false
        /\ (forall p, p <> path -> files fs' p = files fs p)
        /\ find dbPath fs' collection query = Ok []
        /\ drop dbPath may_unlink fs' collection = (Ok false, fs'))
  /\ (file_exists fs path = true -> may_unlink path = false ->
      drop dbPath may_unlink fs collection
      = (Throw (Exception ("Failed to delete " ++ path)), fs)).
Proof.
  intros Hp. unfold drop, unlink. rewrite Hp. repeat split.
  - intros ->. reflexivity.
  - intros -> ->. eexists. split; [reflexivity | ].
    assert (Hgone : forall w l,
               file_exists {| files := fun p => if String.eqb p path then None else files fs p;
                              writable := w; torn := torn fs; last_error := l |} path
               = false).
    { intros w l. unfold file_exists. cbn. now rewrite String.eqb_refl. }
    split; [apply Hgone | ]. split; [ | split].
    + intros p Hne. cbn. apply String.eqb_neq in Hne. now rewrite Hne.
    + apply find_empty_table with path; [exact Hp | ].
      apply table_of_soft. left. cbn. now rewrite String.eqb_refl.
    + now rewrite Hgone.
  - intros -> ->. reflexivity.
Qed.


(** ** [find] *)

(** [find] with the null or an empty query returns the table as it is
    read; with any other query it returns, in their order and numbered
    from 0, exactly the documents that satisfy the query. *)
Theorem find_selects_in_order
        (fs : filesystem) (collection path : string) (query : zval) :
  getFilePath dbPath collection = Ok path ->
  Forall (fun d => returns (match_ d query)) (array_values (table_of fs path)) ->
  (query = VNull \/ empty query = true ->
   find dbPath fs collection query = Ok (table_of fs path))
  /\ (query <> VNull -> empty query = false ->
      find dbPath fs collection query
      = Ok (list_array (filter (satisfies query) (array_values (table_of fs path))))).
Proof.
  intros Hp Hm. unfold find. rewrite (readCollection_table dbPath fs collection Hp).
  cbn [bind]. split.
  - intros [-> | He]; [reflexivity | ].
    destruct (identical query VNull); [reflexivity | now rewrite He].
  - intros Hn He.
    assert (Hi : identical query VNull = false)
      by (destruct query; [now elim Hn | reflexivity ..]).
    rewrite Hi, He. now rewrite find_loop_filter by exact Hm.
Qed.

(** ** [update] *)



Lemma array_get_unset_set (a : JsonDB.array) (k : key) (v : zval) :
  distinct key_eqb (map fst a) = true ->
  array_get (array_unset (array_set a k v) k) k = None.
Proof.
  induction a as [ | [k0 v0] r IH]; cbn.
  - now rewrite key_eqb_refl.
  - intros H. apply andb_prop in H as [H0 Hr].
    destruct (key_eqb k0 k) eqn:E; cbn; rewrite E.
    + apply key_eqb_eq in E. subst k0. now apply array_get_absent.
    + cbn. rewrite E. now apply IH.
Qed.

(** What an update does to a document: [$set] assigns the field and
    leaves the others alone -- [_id] like any other field, nothing
    protects it -- and a field that is both set and unset in one update
    ends up removed, because [$unset] runs second. *)
Theorem update_edits_fields (doc : JsonDB.array) (k : key) (v w : zval) :
  distinct key_eqb (map fst doc) = true ->
  let set_only := VArray [(KStr "$set", VArray [(k, v)])] in
  let both := VArray [(KStr "$set", VArray [(k, v)]); (KStr "$unset", VArray [(k, w)])] in
  (e <- apply_set (VArray doc) (update_ops set_only "$set") ;;
   apply_unset e (update_ops set_only "$unset")) = Ok (VArray (array_set doc k v))
  /\ array_get (array_set doc k v) k = Some v
  /\ (forall k', key_eqb k k' = false ->
                 array_get (array_set doc k v) k' = array_get doc k')
  /\ (e <- apply_set (VArray doc) (update_ops both "$set") ;;
      apply_unset e (update_ops both "$unset"))
     = Ok (VArray (array_unset (array_set doc k v) k))
  /\ array_get (array_unset (array_set doc k v) k) k = None.
Proof.
  intros Hd set_only both.
  split; [reflexivity | ]. split; [apply array_get_set | ].
  split; [intros k' H; now apply array_get_set_other | ].
  split; [reflexivity | now apply array_get_unset_set].
Qed.

(** ** JSON round trip *)

Lemma canonical_array (a : JsonDB.array) :
  canonical (VArray a)
  = ((is_list a
      || (distinct key_eqb (map fst a)
          && forallb (fun k => key_eqb (key_of_string (string_of_key k)) k) (map fst a)))
     && forallb (fun e => canonical (snd e)) a)%bool.
Proof.
  cbn [canonical]. f_equal.
  induction a as [ | [k v] r IH]; [reflexivity | ]. rewrite IH. reflexivity.
Qed.

Lemma canonical_php_keys (a : JsonDB.array) :
  canonical (VArray a) = true -> php_keys a = true.
Proof. rewrite canonical_array. intros H. now apply andb_prop in H as [H _]. Qed.

(** A canonical value is what encoding and decoding it gives back. *)
Lemma json_round_trip (v : zval) :
  canonical v = true -> decoded (encoded v) = v.
Proof.
  induction v as [ | b | i | d | s | a IH] using zval_nested_ind; intros Hc;
    try reflexivity.
  - cbn in Hc |- *. destruct (json_of_double d) as [ | | | d' | | | ]; try discriminate Hc.
    unfold Q_same in Hc. apply andb_prop in Hc as [Hn Hd].
    apply Z.eqb_eq in Hn. apply Pos.eqb_eq in Hd.
    destruct d, d'; cbn in *; now subst.
  - rewrite (reread_array a (canonical_php_keys a Hc)). f_equal.
    rewrite canonical_array in Hc. apply andb_prop in Hc as [_ Hall].
    rewrite forallb_forall in Hall. rewrite Forall_forall in IH.
    rewrite <- (map_id a) at 2. apply map_ext_in. intros [k v] Hin. cbn [fst snd].
    f_equal. apply (IH (k, v) Hin). now apply (Hall (k, v)).
Qed.

(** The printed name of an integer is ASCII. *)
Lemma ascii_utf8 (s : string) :
  string_forallb (in_range 0 127) s = true -> valid_utf8 s = true.
Proof.
  induction s as [ | c r IH]; [reflexivity | ].
  cbn [string_forallb]. intros H. apply andb_prop in H as [Hc Hr].
  cbn [valid_utf8]. rewrite Hc. now apply IH.
Qed.

Lemma string_of_uint_ascii (d : Decimal.uint) :
  string_forallb (in_range 0 127) (NilEmpty.string_of_uint d) = true.
Proof. induction d; cbn; auto. Qed.

Lemma Z_to_string_utf8 (i : Z) : valid_utf8 (Z_to_string i) = true.
Proof.
  apply ascii_utf8. unfold Z_to_string, NilZero.string_of_int, NilZero.string_of_uint.
  destruct (Z.to_int i) as [d | d]; [ | cbn [string_forallb]; apply andb_true_intro; split;
                                        [reflexivity | ]];
    destruct d; try reflexivity; apply string_of_uint_ascii.
Qed.

(** The text of a canonical value that can be encoded is one the parser
    takes. *)
Lemma encoded_parses (v : zval) :
  canonical v = true ->
  zval_strings v = true ->
  json_strings (encoded v) = true /\ json_depth (encoded v) = zval_depth v.
Proof.
  induction v as [ | b | i | d | s | a IH] using zval_nested_ind; intros Hc Hs;
    try (split; [exact Hs || reflexivity | reflexivity]).
  - cbn in Hc |- *. destruct (json_of_double d); try discriminate Hc. now split.
  - rewrite canonical_array in Hc. apply andb_prop in Hc as [_ Hall].
    rewrite zval_strings_array in Hs.
    rewrite forallb_forall in Hall, Hs. rewrite Forall_forall in IH.
    assert (Hin : forall e, In e a ->
                    json_strings (encoded (snd e)) = true
                    /\ json_depth (encoded (snd e)) = zval_depth (snd e)).
    { intros e He. specialize (Hs e He). apply andb_prop in Hs as [_ Hs].
      apply (IH e He); [now apply Hall | exact Hs]. }
    rewrite encoded_array, zval_depth_array. destruct (is_list a).
    + rewrite json_strings_array, json_depth_array, forallb_mapped, map_map. split.
      * apply forallb_forall. intros e He. now apply Hin.
      * f_equal. f_equal. apply map_ext_in. intros e He. now apply Hin.
    + rewrite json_strings_object, json_depth_object, forallb_mapped, map_map. split.
      * apply forallb_forall. intros e He. cbn [fst snd].
        rewrite (proj1 (Hin e He)), andb_true_r.
        specialize (Hs e He). apply andb_prop in Hs as [Hk _].
        destruct (fst e) as [i | name]; [apply Z_to_string_utf8 | exact Hk].
      * f_equal. f_equal. apply map_ext_in. intros e He. now apply Hin.
Qed.

(** What [json_encode] printed of a canonical value, [json_decode] reads
    as that value. *)
Lemma json_decode_encode (v : zval) (j : json) :
  canonical v = true -> json_encode v = Some j -> json_decode j = v.
Proof.
  intros Hc He. apply json_encode_spec in He as (Hs & Hd & ->).
  destruct (encoded_parses v Hc Hs) as [Hjs Hjd].
  unfold json_decode. rewrite Hjs, Hjd.
  destruct (Nat.leb_spec (zval_depth v) JSON_DEPTH) as [_ | L]; [ | lia].
  now apply json_round_trip.
Qed.

(** ** Writing and reading back *)

Lemma written_reads_back (fs : filesystem) (path : string) (data : JsonDB.array) :
  canonical (VArray data) = true ->
  readable_if_present fs path = true ->
  json_encode (VArray data) <> None ->
  table_of (with_file fs path (written (json_encode (VArray data)))) path = data.
Proof.
  intros Hc Hr He. rewrite table_of_with_file, Hr.
  destruct (json_encode (VArray data)) as [j | ] eqn:E; [ | now elim He].
  cbn [written decode_content]. now rewrite (json_decode_encode (VArray data) Hc E).
Qed.

Lemma unwritten_reads_empty (fs : filesystem) (path : string) (data : JsonDB.array) :
  readable_if_present fs path = false \/ json_encode (VArray data) = None ->
  table_of (with_file fs path (written (json_encode (VArray data)))) path = [].
Proof.
  intros H. rewrite table_of_with_file.
  destruct (readable_if_present fs path); [ | reflexivity].
  destruct H as [H | H]; [discriminate H | now rewrite H].
Qed.

(** What an [insert] that appends leaves to read. *)
Lemma insert_then_read
      (fs : filesystem) (collection path : string) (document data' : JsonDB.array)
      (entropy : string) :
  getFilePath dbPath collection = Ok path ->
  writable fs path = true ->
  array_push (table_of fs path) (VArray (stamped document entropy)) = Some data' ->
  exists fs',
    insert dbPath fs collection document entropy = (Ok (stamped document entropy), fs')
    /\ (canonical (VArray data') = true ->
        readable_if_present fs path = true ->
        json_encode (VArray data') <> None ->
        readCollection dbPath fs' collection = Ok data')
    /\ (readable_if_present fs path = false \/ json_encode (VArray data') = None ->
        readCollection dbPath fs' collection = Ok []).
Proof.
  intros Hp Hw Ha.
  destruct (insert_spec dbPath fs collection document entropy Hp Hw Ha)
    as (fs' & Hi & -> & _).
  eexists. split; [exact Hi | ].
  rewrite (readCollection_table dbPath _ collection Hp). split.
  - intros Hc Hr He. now rewrite written_reads_back.
  - intros H. now rewrite unwritten_reads_empty.
Qed.

(** What [writeCollection] writes of a table of canonical values,
    [readCollection] reads back as it was -- unless the table cannot be
    encoded, a string in it not being UTF-8 or its nesting too deep, or
    the file is there but unreadable: then the write succeeds all the
    same and the read gives the empty collection. *)
Theorem write_then_read
        (fs : filesystem) (collection path : string) (data : JsonDB.array) :
  getFilePath dbPath collection = Ok path ->
  writable fs path = true ->
  canonical (VArray data) = true ->
  exists fs',
    writeCollection dbPath fs collection data = (Ok tt, fs')
    /\ (readable_if_present fs path = true ->
        zval_strings (VArray data) = true ->
        (zval_depth (VArray data) <= JSON_DEPTH)%nat ->
        readCollection dbPath fs' collection = Ok data)
    /\ (readable_if_present fs path = false
        \/ zval_strings (VArray data) = false
        \/ (JSON_DEPTH < zval_depth (VArray data))%nat ->
        readCollection dbPath fs' collection = Ok []).
Proof.
  intros Hp Hw Hc.
  destruct (writeCollection_ok dbPath fs collection data Hp Hw) as (fs' & Hwr & -> & _).
  eexists. split; [exact Hwr | ].
  rewrite (readCollection_table dbPath _ collection Hp). split.
  - intros Hr Hs Hd. rewrite written_reads_back; auto.
    now rewrite (proj2 (json_encode_spec (VArray data) _) (conj Hs (conj Hd eq_refl))).
  - intros H. rewrite unwritten_reads_empty; [reflexivity | ].
    destruct H as [H | H]; [now left | right]. now apply json_encode_none.
Qed.

(** After an insert the collection reads as before with the stored
    document appended, so that [find] with the empty query returns the
    documents in insertion order -- when the table with the new document
    can be encoded.  When it cannot, a string of the document not being
    UTF-8 or its nesting too deep, [insert] returns the document all the
    same and the collection reads as empty afterwards. *)
Theorem insert_then_find_all
        (fs : filesystem) (collection path : string) (document data' : JsonDB.array)
        (entropy : string) :
  getFilePath dbPath collection = Ok path ->
  writable fs path = true ->
  readable_if_present fs path = true ->
  array_push (table_of fs path) (VArray (stamped document entropy)) = Some data' ->
  canonical (VArray data') = true ->
  exists fs',
    insert dbPath fs collection document entropy = (Ok (stamped document entropy), fs')
    /\ array_values data'
       = (array_values (table_of fs path) ++ [VArray (stamped document entropy)])%list
    /\ (zval_strings (VArray data') = true ->
        (zval_depth (VArray data') <= JSON_DEPTH)%nat ->
        find dbPath fs' collection (VArray []) = Ok data')
    /\ (zval_strings (VArray data') = false
        \/ (JSON_DEPTH < zval_depth (VArray data'))%nat ->
        find dbPath fs' collection (VArray []) = Ok []).
Proof.
  intros Hp Hw Hr Ha Hc.
  destruct (insert_then_read fs collection document entropy Hp Hw Ha)
    as (fs' & Hins & Hread & Hempty).
  exists fs'. split; [exact Hins | ]. split; [now apply values_push | ].
  unfold find. cbn [identical]. split.
  - intros Hs Hd. rewrite Hread; auto.
    now rewrite (proj2 (json_encode_spec (VArray data') _) (conj Hs (conj Hd eq_refl))).
  - intros H. rewrite Hempty; [reflexivity | ]. right. now apply json_encode_none.
Qed.

Lemma satisfies_id (doc : zval) (id : string) :
  is_array doc = true ->
  satisfies (VArray [(KStr "_id", VString id)]) doc
  = match id_of doc with
    | Some v => identical v (VString id)
    | None => false
    end.
Proof.
  intros Ha. destruct doc as [ | | | | | a]; try discriminate Ha.
  unfold satisfies. rewrite match_plain_criteria by reflexivity.
  unfold id_of, isset, field_value.
  destruct (array_get a (KStr "_id")) as [[ | | | | | ] | ]; reflexivity.
Qed.

(** A document inserted under an [_id] no stored document has is what
    [find] by that [_id] returns, alone and as it was stored -- when the
    table with the new document can be encoded; when it cannot, [find]
    returns nothing. *)
Theorem insert_then_find_by_id
        (fs : filesystem) (collection path : string) (document data' : JsonDB.array)
        (entropy id : string) :
  getFilePath dbPath collection = Ok path ->
  writable fs path = true ->
  readable_if_present fs path = true ->
  array_push (table_of fs path) (VArray (stamped document entropy)) = Some data' ->
  canonical (VArray data') = true ->
  forallb is_array (array_values (table_of fs path)) = true ->
  id_of (VArray (stamped document entropy)) = Some (VString id) ->
  unused_id id (array_values (table_of fs path)) = true ->
  exists fs',
    insert dbPath fs collection document entropy = (Ok (stamped document entropy), fs')
    /\ (zval_strings (VArray data') = true ->
        (zval_depth (VArray data') <= JSON_DEPTH)%nat ->
        find dbPath fs' collection (VArray [(KStr "_id", VString id)])
        = Ok [(KInt 0, VArray (stamped document entropy))])
    /\ (zval_strings (VArray data') = false
        \/ (JSON_DEPTH < zval_depth (VArray data'))%nat ->
        find dbPath fs' collection (VArray [(KStr "_id", VString id)]) = Ok []).
Proof.
  intros Hp Hw Hr Hpush Hc Ha Hid Hun.
  destruct (insert_then_read fs collection document entropy Hp Hw Hpush)
    as (fs' & Hins & Hread & Hempty).
  exists fs'. split; [exact Hins | ]. split.
  - intros Hs Hd. unfold find. cbn [identical].
    rewrite Hread; auto;
      [ | now rewrite (proj2 (json_encode_spec (VArray data') _)
                         (conj Hs (conj Hd eq_refl)))].
    cbn [bind empty zval_is_true negb].
    rewrite find_loop_filter
      by (apply Forall_forall; intros d _; eexists;
          apply match_plain_criteria; reflexivity).
    rewrite (values_push _ _ Hpush), filter_app. cbn [filter].
    rewrite satisfies_id by reflexivity. rewrite Hid. cbn [identical].
    rewrite String.eqb_refl.
    rewrite filter_none; [reflexivity | ].
    intros d Hd'. unfold unused_id in Hun.
    pose proof (proj1 (forallb_forall _ _) Ha d Hd') as Had.
    pose proof (proj1 (forallb_forall _ _) Hun d Hd') as Hud. cbn beta in Hud.
    rewrite satisfies_id by exact Had.
    destruct (id_of d); [now apply negb_true_iff in Hud | reflexivity].
  - intros H. unfold find. cbn [identical]. rewrite Hempty; [reflexivity | ].
    right. now apply json_encode_none.
Qed.

(** ** [match] *)

Lemma string_compare_refl (s : string) : String.compare s s = Eq.
Proof.
  induction s as [ | c r IH]; cbn; [reflexivity | ].
  unfold Ascii.compare. now rewrite N.compare_refl.
Qed.

Lemma op_is_string (s name : string) :
  numeric_lead name = false ->
  op_is (KStr s) name = String.eqb s name.
Proof.
  intros H. unfold op_is, loose_eq. cbn [zval_of_key zend_compare].
  unfold compare_strings, is_numeric_string. rewrite H.
  assert (E : (match String.compare s name with Eq => true | _ => false end)
              = String.eqb s name).
  { destruct (String.eqb_spec s name) as [-> | Hne].
    - now rewrite string_compare_refl.
    - destruct (String.compare s name) eqn:C; try reflexivity.
      apply String.compare_eq_iff in C. contradiction. }
  destruct (if numeric_lead s then numeric_value s else None); exact E.
Qed.

(** An operator key that is a string and none of the six names is
    skipped: the clause neither fails nor throws, so a misspelt
    operator selects every document. *)
Theorem unknown_operator_is_ignored
        (value : zval) (op : string) (operand : zval) (rest : JsonDB.array)
        (doc : zval) (k : key) :
  ~ In op operator_names ->
  match_criteria value ((KStr op, operand) :: rest) = match_criteria value rest
  /\ match_ doc (clause k op operand) = Ok true.
Proof.
  intros Hn.
  assert (H : forall name, In name operator_names -> op_is (KStr op) name = false).
  { intros name Hin. rewrite op_is_string.
    - apply String.eqb_neq. intros ->. contradiction.
    - cbn in Hin. repeat destruct Hin as [<- | Hin]; try reflexivity. contradiction. }
  assert (E : forall value rest,
             match_criteria value ((KStr op, operand) :: rest) = match_criteria value rest).
  { intros value0 rest0. cbn [match_criteria].
    rewrite !H by (cbn; tauto). reflexivity. }
  split; [apply E | ].
  unfold clause, match_. cbn [match_entries]. rewrite E. reflexivity.
Qed.

Lemma match_criteria_app (value : zval) (ops1 ops2 : JsonDB.array) :
  match_criteria value (ops1 ++ ops2)%list
  = (ok <- match_criteria value ops1 ;;
     if ok then match_criteria value ops2 else Ok false).
Proof.
  induction ops1 as [ | [op e] r IH]; cbn [app match_criteria].
  - reflexivity.
  - repeat match goal with
           | |- context [if ?c then _ else _] =>
               lazymatch c with
               | op_is _ _ => destruct c
               | negb _ => destruct c
               | identical _ _ => destruct c
               | loose_le _ _ => destruct c
               | loose_ge _ _ => destruct c
               | orb _ _ => destruct c
               end
           end; try reflexivity; try exact IH.
    destruct (preg_match e (strval value)) as [x | ex]; cbn [bind]; [ | reflexivity].
    destruct (negb (zval_is_true x)); [reflexivity | exact IH].
Qed.

Lemma match_entries_app (doc : zval) (q1 q2 : JsonDB.array) :
  match_entries doc (q1 ++ q2)%list
  = (ok <- match_entries doc q1 ;;
     if ok then match_entries doc q2 else Ok false).
Proof.
  induction q1 as [ | [k c] r IH]; cbn [app match_entries].
  - reflexivity.
  - destruct c as [ | | | | | ops];
      try (destruct (negb (identical _ _)); [reflexivity | exact IH]).
    destruct (match_criteria (field_value doc k) ops) as [[ | ] | ex]; cbn [bind];
      [exact IH | reflexivity | reflexivity].
Qed.

(** The fields of a query, and the operators under one field, are
    conjoined from left to right, and evaluation stops at the first
    clause that fails: what comes after it is not evaluated, so it
    cannot throw. *)
Theorem query_is_a_conjunction
        (doc : zval) (q1 q2 : JsonDB.array) (k : key) (ops1 ops2 : JsonDB.array) :
  satisfies (VArray (q1 ++ q2)%list) doc
  = (satisfies (VArray q1) doc && satisfies (VArray q2) doc)%bool
  /\ (match_ doc (VArray q1) = Ok false -> match_ doc (VArray (q1 ++ q2)%list) = Ok false)
  /\ satisfies (VArray [(k, VArray (ops1 ++ ops2)%list)]) doc
     = (satisfies (VArray [(k, VArray ops1)]) doc
        && satisfies (VArray [(k, VArray ops2)]) doc)%bool.
Proof.
  unfold satisfies, match_. split; [ | split].
  - rewrite match_entries_app.
    destruct (match_entries doc q1) as [[ | ] | ]; reflexivity.
  - intros H. now rewrite match_entries_app, H.
  - cbn [match_entries]. rewrite match_criteria_app.
    destruct (match_criteria (field_value doc k) ops1) as [[ | ] | ]; reflexivity.
Qed.

(** On an integer field with integer operands, [$gt] and [$lt] are the
    strict orders, and the two together select an open interval. *)
Theorem range_operators_on_integers (doc : zval) (k : key) (v lo hi : Z) :
  field_value doc k = VLong v ->
  match_ doc (clause k "$gt" (VLong lo)) = Ok (lo <? v)
  /\ match_ doc (clause k "$lt" (VLong hi)) = Ok (v <? hi)
  /\ match_ doc (VArray [(k, VArray [(KStr "$gt", VLong lo); (KStr "$lt", VLong hi)])])
     = Ok ((lo <? v) && (v <? hi))%bool.
Proof.
  intros H.
  assert (Hgt : negb (loose_le (VLong v) (VLong lo)) = (lo <? v)).
  { unfold loose_le. cbn [zend_compare].
    destruct (Z.compare_spec v lo); destruct (Z.ltb_spec lo v); try reflexivity; lia. }
  assert (Hlt : negb (loose_ge (VLong v) (VLong hi)) = (v <? hi)).
  { unfold loose_ge, loose_le. cbn [zend_compare].
    destruct (Z.compare_spec hi v); destruct (Z.ltb_spec v hi); try reflexivity; lia. }
  split; [now rewrite match_gt_clause, H, Hgt | ].
  split; [now rewrite match_lt_clause, H, Hlt | ].
  cbn. rewrite H. rewrite <- Hgt, <- Hlt.
  destruct (loose_le (VLong v) (VLong lo)); [reflexivity | ].
  destruct (loose_ge (VLong v) (VLong hi)); reflexivity.
Qed.

End Admin.

(** ** [listCollections] *)

Lemma existsb_eqb_In (n : string) (l : list string) :
  existsb (String.eqb n) l = true <-> In n l.
Proof.
  rewrite existsb_exists. split.
  - intros (x & Hx & E). apply String.eqb_eq in E. now subst.
  - intros H. exists n. split; [exact H | apply String.eqb_refl].
Qed.

Lemma array_unique_In (names seen : list string) (n : string) :
  In n (array_unique seen names) <-> In n names /\ ~ In n seen.
Proof.
  revert seen. induction names as [ | x r IH]; intros seen; cbn.
  - tauto.
  - destruct (existsb (String.eqb x) seen) eqn:E.
    + apply existsb_eqb_In in E. rewrite IH. split.
      * intros [H1 H2]. tauto.
      * intros [[-> | H1] H2]; [contradiction | tauto].
    + assert (Hx : ~ In x seen)
        by (intros H; apply existsb_eqb_In in H; rewrite H in E; discriminate E).
      cbn. rewrite IH. cbn. split.
      * intros [<- | [H1 H2]]; [tauto | tauto].
      * intros [[<- | H1] H2]; [now left | ].
        destruct (String.eqb_spec x n) as [-> | Hne]; [now left | right; tauto].
Qed.

Lemma array_unique_NoDup (names seen : list string) : NoDup (array_unique seen names).
Proof.
  revert seen. induction names as [ | x r IH]; intros seen; cbn; [constructor | ].
  destruct (existsb (String.eqb x) seen); [apply IH | ].
  constructor; [ | apply IH].
  rewrite array_unique_In. cbn. tauto.
Qed.

Lemma array_unique_fixed (names seen : list string) :
  NoDup names -> (forall n, In n names -> ~ In n seen) ->
  array_unique seen names = names.
Proof.
  intros Hn. revert seen. induction Hn as [ | x r Hx Hr IH]; intros seen Hs; cbn;
    [reflexivity | ].
  destruct (existsb (String.eqb x) seen) eqn:E.
  - apply existsb_eqb_In in E. exfalso. apply (Hs x); [now left | exact E].
  - f_equal. apply IH. intros n Hin [<- | H]; [contradiction | ].
    apply (Hs n); [now right | exact H].
Qed.


Lemma last_component_plain (s acc : string) :
  string_forallb (fun c => negb (Ascii.eqb c "/")) s = true ->
  last_component acc s = acc ++ s.
Proof.
  revert acc. induction s as [ | c r IH]; intros acc; cbn.
  - intros _. induction acc as [ | a t IHt]; cbn; [reflexivity | now rewrite <- IHt].
  - intros H. apply andb_prop in H as [Hc Hr]. apply negb_true_iff in Hc. rewrite Hc.
    rewrite IH by exact Hr.
    clear. induction acc as [ | a t IHt]; cbn; [reflexivity | now rewrite IHt].
Qed.

Lemma last_component_after_slash (d rest acc : string) :
  string_forallb (fun c => negb (Ascii.eqb c "/")) rest = true ->
  last_component acc (d ++ String "/" rest) = rest.
Proof.
  intros H. revert acc. induction d as [ | c r IH]; intros acc; cbn.
  - now rewrite last_component_plain.
  - destruct (Ascii.eqb c "/"); apply IH.
Qed.

Lemma forallb_append (p : ascii -> bool) (s t : string) :
  string_forallb p (s ++ t) = (string_forallb p s && string_forallb p t)%bool.
Proof.
  induction s as [ | c r IH]; cbn; [reflexivity | ].
  now rewrite IH, andb_assoc.
Qed.

Lemma ends_with_append (n suffix : string) : ends_with suffix (n ++ suffix) = true.
Proof.
  induction n as [ | c r IH]; cbn [append].
  - destruct suffix; cbn [ends_with]; now rewrite String.eqb_refl.
  - cbn [ends_with]. rewrite IH. apply orb_true_r.
Qed.

Lemma length_append (s t : string) :
  String.length (s ++ t) = (String.length s + String.length t)%nat.
Proof. induction s as [ | c r IH]; cbn; [reflexivity | now rewrite IH]. Qed.

Lemma substring_prefix (s t : string) :
  String.substring 0 (String.length s) (s ++ t) = s.
Proof.
  induction s as [ | c r IH]; cbn.
  - destruct t; reflexivity.
  - now rewrite IH.
Qed.

Lemma basename_of_collection_file (d n : string) :
  file_name n = true ->
  basename ((d ++ "/") ++ n ++ ".json") ".json" = n.
Proof.
  unfold file_name. intros H. apply andb_prop in H as [Hne Hs].
  apply negb_true_iff, String.eqb_neq in Hne.
  unfold basename.
  assert (E : (d ++ "/") ++ n ++ ".json" = d ++ String "/" (n ++ ".json")).
  { clear. induction d as [ | c r IH]; cbn; [reflexivity | now rewrite IH]. }
  rewrite E, last_component_after_slash
    by (rewrite forallb_append, Hs; reflexivity).
  rewrite ends_with_append.
  assert (Hd : String.eqb (n ++ ".json") ".json" = false).
  { apply String.eqb_neq. intros C. apply Hne.
    apply (f_equal String.length) in C. rewrite length_append in C. cbn in C.
    destruct n; [reflexivity | cbn in C; lia]. }
  rewrite Hd. cbn [andb negb].
  rewrite length_append. cbn [String.length].
  replace (String.length n + 5 - 5)%nat with (String.length n) by lia.
  apply substring_prefix.
Qed.

(** [listCollections] names each file of the directory once: for the
    files of collections, which are the directory, a file name and
    [.json], it gives back the file names, and it returns nothing when
    [glob] fails. *)
Theorem listCollections_names_each_once (d : string) (names : list string) :
  Forall (fun n => file_name n = true) names ->
  let globbed := Some (map (fun n => (d ++ "/") ++ n ++ ".json") names) in
  NoDup (listCollections globbed)
  /\ (forall n, In n (listCollections globbed) <-> In n names)
  /\ (NoDup names -> listCollections globbed = names)
  /\ listCollections None = [].
Proof.
  intros H globbed. unfold globbed, listCollections. rewrite map_map.
  assert (E : map (fun n => basename ((d ++ "/") ++ n ++ ".json") ".json") names = names).
  { induction H as [ | n r Hn Hr IH]; [reflexivity | ]. cbn [map].
    now rewrite basename_of_collection_file, IH. }
  rewrite E. split; [apply array_unique_NoDup | ].
  split; [intros n; rewrite array_unique_In; cbn; tauto | ].
  split; [intros Hn; apply array_unique_fixed; [exact Hn | intros n _ []] | reflexivity].
Qed.

(** ** The constructor *)

Lemma rtrim_snoc (c : ascii) (s : string) :
  rtrim_char c (s ++ String c EmptyString) = rtrim_char c s.
Proof.
  induction s as [ | x r IH]; cbn.
  - now rewrite Ascii.eqb_refl.
  - now rewrite IH.
Qed.

Lemma ltrim_snoc (c : ascii) (s : string) :
  ltrim_char c (s ++ String c EmptyString)
  = match ltrim_char c s with
    | EmptyString => EmptyString
    | t => t ++ String c EmptyString
    end.
Proof.
  unfold ltrim_char. induction s as [ | x r IH]; cbn.
  - now rewrite Ascii.eqb_refl.
  - destruct (Ascii.eqb c x); [exact IH | reflexivity].
Qed.

Lemma trim_ignores_separators (c : ascii) (s : string) :
  trim_char c (String c s) = trim_char c s
  /\ trim_char c (s ++ String c EmptyString) = trim_char c s.
Proof.
  unfold trim_char. split.
  - unfold ltrim_char. cbn. now rewrite Ascii.eqb_refl.
  - rewrite ltrim_snoc. destruct (ltrim_char c s) eqn:E; [reflexivity | ].
    rewrite <- E at 1. rewrite E. apply rtrim_snoc.
Qed.

(** The constructor does not care for separators around the relative
    path: with or without them it names the same directory, and the
    path it keeps always ends in one separator; no path at all means
    [db]. *)
Theorem construct_ignores_surrounding_separators
        (baseDir : string) (separator : ascii) (os : directories) (p dbPath : string) :
  construct baseDir separator os (Some p) = Ok dbPath ->
  construct baseDir separator os (Some (String separator p)) = Ok dbPath
  /\ construct baseDir separator os (Some (p ++ String separator EmptyString)) = Ok dbPath
  /\ dbPath = (baseDir ++ String separator (trim_char separator p))
              ++ String separator EmptyString
  /\ is_writable os (baseDir ++ String separator (trim_char separator p)) = true
  /\ construct baseDir separator os None = construct baseDir separator os (Some "db").
Proof.
  intros H. destruct (trim_ignores_separators separator p) as [E1 E2].
  unfold construct in *. rewrite E1, E2.
  split; [exact H | ]. split; [exact H | ].
  destruct (negb (is_dir os _) && negb (mkdir os _))%bool; [discriminate H | ].
  destruct (is_writable os _); [ | discriminate H].
  inversion H. repeat split.
Qed.

Lemma failed_operation_effect_witness :
  let eve := [(KStr "name", VString "Eve")] in
  @insert Reference.php5 "db/" Fixtures.locked_disk "users" eve "x"
  = (Throw (Exception "Failed to write to data store: Permission denied"),
     Fixtures.locked_disk)
  /\ fst (@insert Reference.php5 "db/" Fixtures.full_disk "users" eve "x")
     = Throw (Exception ("Failed to write to data store: "
                         ++ "file_put_contents(): Only 0 of 262 bytes written, "
                         ++ "possibly out of free disk space"))
  /\ stored (snd (@insert Reference.php5 "db/" Fixtures.full_disk "users" eve "x"))
            "db/users.json" = Some (Garbage "")
  /\ stored Fixtures.full_disk "db/users.json"
     = Some (written (@json_encode Reference.php5 (VArray Sample.users))).
Proof.
  intros eve. split; [ | repeat split].
  destruct (@insert Reference.php5 "db/" Fixtures.locked_disk "users" eve "x")
    as [r fs'] eqn:E.
  assert (Hr : r = Throw (Exception "Failed to write to data store: Permission denied"))
    by (apply (f_equal fst) in E; exact (eq_sym E)).
  subst r.
  destruct (proj1 (@failed_operation_effect Reference.php5 "db/" (fun _ => true)
                     Fixtures.locked_disk fs' "users" eve "x" VNull VNull _)
                  (or_introl E)) as (_ & Hsame & _).
  rewrite (Hsame (fun _ => eq_refl)). reflexivity.
Defined.

Lemma createCollection_keeps_documents_witness :
  (exists fs', @createCollection Reference.php5 "db/" Sample.users_disk "users" = (Ok true, fs')
               /\ table_of fs' "db/users.json" = Sample.users)
  /\ (exists fs', @createCollection Reference.php5 "db/" Fixtures.empty_disk "orders" = (Ok true, fs')
                  /\ table_of fs' "db/orders.json" = []).
Proof.
  split.
  - destruct (@createCollection_keeps_documents Reference.php5 "db/" Sample.users_disk
                "users" "db/users.json" eq_refl eq_refl (fun _ => eq_refl))
      as (fs' & Hc & _ & _ & _ & _ & Ht & _).
    exists fs'. split; [exact Hc | ]. rewrite Ht. reflexivity.
  - destruct (@createCollection_keeps_documents Reference.php5 "db/" Fixtures.empty_disk
                "orders" "db/orders.json" eq_refl eq_refl (fun _ => eq_refl))
      as (fs' & Hc & _ & _ & _ & _ & Ht & _).
    exists fs'. split; [exact Hc | ]. rewrite Ht. reflexivity.
Defined.

Lemma createCollection_refusals_witness :
  @createCollection Reference.php5 "db/" Fixtures.empty_disk "0"
  = (Throw (Exception "Collection name cannot be empty"), Fixtures.empty_disk)
  /\ @createCollection Reference.php5 "db/" Fixtures.empty_disk "0!"
     = (Throw (Exception "Invalid collection name"), Fixtures.empty_disk).
Proof.
  split.
  - apply (proj1 (@createCollection_refusals Reference.php5 "db/" Fixtures.empty_disk "0")).
    right. reflexivity.
  - apply (proj2 (@createCollection_refusals Reference.php5 "db/" Fixtures.empty_disk "0!"));
      [discriminate | discriminate | right; reflexivity].
Defined.

Lemma drop_removes_the_file_witness :
  exists fs',
    @drop "db/" (fun _ => true) Sample.users_disk "users" = (Ok true, fs')
    /\ @find Reference.php5 "db/" fs' "users" (VArray []) = Ok [].
Proof.
  destruct (proj1 (proj2 (@drop_removes_the_file Reference.php5 "db/" (fun _ => true)
                             Sample.users_disk "users" "db/users.json" (VArray []) eq_refl))
              eq_refl eq_refl) as (fs' & Hd & _ & _ & Hf & _).
  exists fs'. split; [exact Hd | exact Hf].
Defined.

Lemma find_selects_in_order_witness :
  @find Reference.php5 "db/" Sample.users_disk "users"
        (clause (KStr "age") "$gt" (VLong 26))
  = Ok [(KInt 0, VArray (Sample.with_id "doc_a1" Sample.john))].
Proof.
  assert (Hm : Forall (fun d => returns (@match_ Reference.php5 d
                                           (clause (KStr "age") "$gt" (VLong 26))))
                      (array_values (table_of Sample.users_disk "db/users.json")))
    by (apply Forall_returns; reflexivity).
  apply (proj2 (@find_selects_in_order Reference.php5 "db/" Sample.users_disk "users"
                  "db/users.json" (clause (KStr "age") "$gt" (VLong 26)) eq_refl Hm));
    [discriminate | reflexivity].
Defined.


Lemma update_edits_fields_witness :
  let doc := Sample.with_id "doc_a1" Sample.john in
  distinct key_eqb (map fst doc) = true
  /\ array_get (array_set doc (KStr "_id") (VString "mine")) (KStr "_id")
     = Some (VString "mine")
  /\ array_get (array_unset (array_set doc (KStr "age") (VLong 31)) (KStr "age")) (KStr "age")
     = None.
Proof.
  intros doc.
  assert (Hd : distinct key_eqb (map fst doc) = true) by reflexivity.
  split; [exact Hd | ]. split.
  - exact (proj1 (proj2 (@update_edits_fields Reference.php5 doc (KStr "_id")
                           (VString "mine") VNull Hd))).
  - exact (proj2 (proj2 (proj2 (proj2 (@update_edits_fields Reference.php5 doc (KStr "age")
                                         (VLong 31) (VLong 1) Hd))))).
Defined.

Lemma write_then_read_witness :
  canonical (rt := Reference.php5) (VArray Sample.users) = true
  /\ exists fs',
      @writeCollection Reference.php5 "db/" Fixtures.empty_disk "users" Sample.users
      = (Ok tt, fs')
      /\ readCollection "db/" fs' "users" = Ok Sample.users.
Proof.
  assert (Hc : canonical (rt := Reference.php5) (VArray Sample.users) = true) by reflexivity.
  split; [exact Hc | ].
  destruct (@write_then_read Reference.php5 "db/" Fixtures.empty_disk "users"
              "db/users.json" Sample.users eq_refl eq_refl Hc) as (fs' & Hw & Hr & _).
  exists fs'. split; [exact Hw | ].
  apply (Hr eq_refl eq_refl). apply Nat.leb_le. reflexivity.
Defined.

Lemma insert_then_find_all_witness :
  let eve := [(KStr "name", VString "Eve")] in
  let users' := (Sample.users ++ [(KInt 2, VArray (stamped eve "e1"))])%list in
  @array_push Reference.php5 Sample.users (VArray (stamped eve "e1")) = Some users'
  /\ exists fs',
      @insert Reference.php5 "db/" Sample.users_disk "users" eve "e1"
      = (Ok (stamped eve "e1"), fs')
      /\ @find Reference.php5 "db/" fs' "users" (VArray []) = Ok users'.
Proof.
  intros eve users'. split; [reflexivity | ].
  destruct (@insert_then_find_all Reference.php5 "db/" Sample.users_disk "users"
              "db/users.json" eve users' "e1" eq_refl eq_refl eq_refl eq_refl eq_refl)
    as (fs' & Hi & _ & Hf & _).
  exists fs'. split; [exact Hi | ].
  apply (Hf eq_refl). apply Nat.leb_le. reflexivity.
Defined.

Lemma insert_then_find_by_id_witness :
  let eve := [(KStr "name", VString "Eve")] in
  exists fs',
    @insert Reference.php5 "db/" Sample.users_disk "users" eve "e1"
    = (Ok (stamped eve "e1"), fs')
    /\ @find Reference.php5 "db/" fs' "users" (VArray [(KStr "_id", VString "doc_e1")])
       = Ok [(KInt 0, VArray (stamped eve "e1"))].
Proof.
  intros eve.
  destruct (@insert_then_find_by_id Reference.php5 "db/" Sample.users_disk "users"
              "db/users.json" eve
              (Sample.users ++ [(KInt 2, VArray (stamped eve "e1"))])%list
              "e1" "doc_e1"
              eq_refl eq_refl eq_refl eq_refl eq_refl eq_refl eq_refl eq_refl)
    as (fs' & Hi & Hf & _).
  exists fs'. split; [exact Hi | ].
  apply (Hf eq_refl). apply Nat.leb_le. reflexivity.
Defined.

Lemma unknown_operator_is_ignored_witness :
  ~ In "$gte" operator_names
  /\ @match_ Reference.php5 (VArray Sample.jane) (clause (KStr "age") "$gte" (VLong 99))
     = Ok true.
Proof.
  assert (H : ~ In "$gte" operator_names)
    by (cbn; intros [E | [E | [E | [E | [E | [E | []]]]]]]; discriminate E).
  split; [exact H | ].
  exact (proj2 (@unknown_operator_is_ignored Reference.php5 VNull "$gte" (VLong 99) []
                  (VArray Sample.jane) (KStr "age") H)).
Defined.

Lemma query_is_a_conjunction_witness :
  @match_ Reference.php8 (VArray Sample.jane)
          (VArray ([(KStr "role", VString "admin")]
                   ++ [(KStr "name", VArray [(KStr "$regex", VArray [])])])%list)
  = Ok false.
Proof.
  apply (proj1 (proj2 (@query_is_a_conjunction Reference.php8 (VArray Sample.jane)
                         [(KStr "role", VString "admin")]
                         [(KStr "name", VArray [(KStr "$regex", VArray [])])]
                         (KStr "x") [] []))).
  reflexivity.
Defined.

Lemma range_operators_on_integers_witness :
  @match_ Reference.php5 (VArray Sample.john)
          (VArray [(KStr "age", VArray [(KStr "$gt", VLong 25); (KStr "$lt", VLong 40)])])
  = Ok true.
Proof.
  exact (proj2 (proj2 (@range_operators_on_integers Reference.php5 (VArray Sample.john)
                         (KStr "age") 30 25 40 eq_refl))).
Defined.

Lemma listCollections_names_each_once_witness :
  listCollections (Some ["/srv/db/users.json"; "/srv/db/products.json"])
  = ["users"; "products"].
Proof.
  assert (H : Forall (fun n => file_name n = true) ["users"; "products"])
    by (repeat constructor).
  apply (proj1 (proj2 (proj2 (@listCollections_names_each_once "/srv/db"
                                ["users"; "products"] H)))).
  repeat constructor; cbn; intuition discriminate.
Defined.

Lemma construct_ignores_surrounding_separators_witness :
  let os := {| is_dir := fun _ => true; mkdir := fun _ => false;
               mkdir_error := None; is_writable := fun _ => true |} in
  construct "/srv" "/" os (Some "db") = Ok "/srv/db/"
  /\ construct "/srv" "/" os (Some "/db") = Ok "/srv/db/"
  /\ construct "/srv" "/" os (Some "db/") = Ok "/srv/db/".
Proof.
  intros os.
  assert (H : construct "/srv" "/" os (Some "db") = Ok "/srv/db/") by reflexivity.
  destruct (@construct_ignores_surrounding_separators "/srv" "/"%char os "db" "/srv/db/" H)
    as (H1 & H2 & _).
  split; [exact H | ]. split; [exact H1 | exact H2].
Defined.

End CollectionsFacts.

(* ================================================================== *)
(** * The request handler *)

Module ApiFacts.

Import JsonDB Spec Collections Notions Api JsonDBFacts CollectionsFacts.

Section Handler.

Context {rt : php_runtime}.

Lemma loose_eq_strings (a b : string) :
  numeric_lead b = false ->
  loose_eq (VString a) (VString b) = String.eqb a b.
Proof. exact (op_is_string a b). Qed.

(** What [dispatch] does once the core file is there and the
    constructor has returned, by action. *)
Lemma dispatch_known (env : environment) (fs : filesystem) (req : request)
      (dbPath : string) :
  core_present env = true ->
  construct (baseDir env) (separator env) (os env) (Some "db") = Ok dbPath ->
  let a := match action req with Some a => a | None => "ping" end in
  let c := match collection req with Some c => c | None => "" end in
  let input := match decode_content (input req) with VArray i => i | _ => [] end in
  dispatch env fs req
  = if String.eqb a "ping" then
      (Ok (success [(KStr "message", VString "API is online");
                    (KStr "php", VString (PHP_VERSION env))]), fs)
    else if String.eqb a "upload" then (upload env, fs)
    else if String.eqb a "list" then
      (Ok (success [(KStr "data",
                     VArray (list_array
                               (map VString
                                    (listCollections (glob env (dbPath ++ "*.json"))))))]),
       fs)
    else if String.eqb a "create" then
      if empty (VString c) then (Throw (Exception "Collection name required"), fs)
      else match createCollection dbPath fs c with
           | (Throw e, fs') => (Throw e, fs')
           | (Ok _, fs') => (Ok (success [(KStr "message", VString ("Created " ++ c))]), fs')
           end
    else if String.eqb a "insert" then
      if empty (VString c) then (Throw (Exception "Collection name required"), fs)
      else match insert dbPath fs c input (entropy env) with
           | (Throw e, fs') => (Throw e, fs')
           | (Ok res, fs') => (Ok (success [(KStr "data", VArray res)]), fs')
           end
    else if String.eqb a "find" then
      if empty (VString c) then (Throw (Exception "Collection name required"), fs)
      else match find dbPath fs c (VArray input) with
           | Throw e => (Throw e, fs)
           | Ok res => (Ok (success [(KStr "data", VArray res)]), fs)
           end
    else if String.eqb a "update" then
      match update dbPath fs c (input_field input "query") (input_field input "update") with
      | (Throw e, fs') => (Throw e, fs')
      | (Ok n, fs') => (Ok (success [(KStr "modified", VLong n)]), fs')
      end
    else if String.eqb a "delete" then
      match delete dbPath fs c (VArray input) with
      | (Throw e, fs') => (Throw e, fs')
      | (Ok n, fs') => (Ok (success [(KStr "deleted", VLong n)]), fs')
      end
    else if String.eqb a "drop" then
      match drop dbPath (may_unlink env) fs c with
      | (Throw e, fs') => (Throw e, fs')
      | (Ok _, fs') => (Ok (success []), fs')
      end
    else (Throw (Exception ("Invalid action: " ++ a)), fs).
Proof.
  intros Hc Hk a c input0. unfold dispatch. rewrite Hc, Hk. cbn [negb].
  fold a c input0. rewrite !loose_eq_strings by reflexivity. reflexivity.
Qed.

Lemma not_options (req : request) :
  method req <> "OPTIONS" ->
  loose_eq (VString (method req)) (VString "OPTIONS") = false.
Proof.
  intros H. rewrite loose_eq_strings by reflexivity. now apply String.eqb_neq.
Qed.

(** What the [try] block leaves when it throws: the files as they were,
    or the file of the collection as a failed write of the store left
    it, in which case what is thrown is an [Exception]. *)
Lemma dispatch_throw (env : environment) (fs fs' : filesystem) (req : request) (e : exn) :
  dispatch env fs req = (Throw e, fs') ->
  fs' = fs
  \/ exists dbPath msg,
      construct (baseDir env) (separator env) (os env) (Some "db") = Ok dbPath
      /\ after_failure dbPath fs fs'
                       (match collection req with Some c => c | None => "" end)
      /\ e = Exception msg.
Proof.
  unfold dispatch.
  destruct (negb (core_present env)); [inversion 1; now left | ].
  destruct (construct _ _ _ _) as [dbPath | e0]; [ | inversion 1; now left].
  set (c := match collection req with Some c => c | None => "" end).
  set (i := match decode_content (input req) with VArray a => a | _ => [] end).
  assert (K : forall fs0 : filesystem,
             after_failure dbPath fs fs0 c /\ (fs0 = fs \/ exists msg, e = Exception msg) ->
             fs0 = fs
             \/ exists dbPath0 msg,
                 Ok dbPath = Ok dbPath0 /\ after_failure dbPath0 fs fs0 c
                 /\ e = Exception msg).
  { intros fs0 [A [-> | [msg ->]]]; [now left | right]. exists dbPath, msg. auto. }
  repeat (destruct (loose_eq _ _); [ | ]); try (inversion 1; now left).
  - destruct (empty _); [inversion 1; now left | ].
    destruct (createCollection dbPath fs c) as [[b | e0] fs0] eqn:E; inversion 1; subst.
    now apply K, createCollection_throw.
  - destruct (empty _); [inversion 1; now left | ].
    destruct (insert dbPath fs c i (entropy env)) as [[b | e0] fs0] eqn:E;
      inversion 1; subst.
    now apply K, (insert_throw _ _ _ _ _ E).
  - destruct (empty _); [inversion 1; now left | ].
    destruct (find dbPath fs c (VArray i)); inversion 1; now left.
  - destruct (update dbPath fs c _ _) as [[b | e0] fs0] eqn:E; inversion 1; subst.
    now apply K, (update_throw _ _ _ _ _ E).
  - destruct (delete dbPath fs c _) as [[b | e0] fs0] eqn:E; inversion 1; subst.
    now apply K, (delete_throw _ _ _ _ E).
  - destruct (drop dbPath (may_unlink env) fs c) as [[b | e0] fs0] eqn:E;
      inversion 1; subst.
    apply drop_throw in E. now left.
Qed.

(** A request is answered with status 200, or with status 500 and the
    message of the exception.  An answer of status 500 has left the
    files as they were -- unless what failed is a write of the store
    after the file of the collection was opened: the answer is then
    "Failed to write to data store", with that file holding what the
    failed write left of it.  A request that ends in an error nobody
    catches has changed nothing. *)
Theorem api_error_effect
        (env : environment) (fs fs' : filesystem) (req : request) :
  (forall r, api env fs req = (Ok r, fs') ->
             status r = 200
             \/ exists msg,
                 r = send_api_error_response msg
                 /\ (fs' = fs
                     \/ exists dbPath,
                         construct (baseDir env) (separator env) (os env) (Some "db")
                         = Ok dbPath
                         /\ after_failure dbPath fs fs'
                                          (match collection req with
                                           | Some c => c
                                           | None => ""
                                           end))
                 /\ ((forall p, torn fs p = None) -> fs' = fs))
  /\ (forall e, api env fs req = (Throw e, fs') ->
                fs' = fs /\ forall msg, e <> Exception msg).
Proof.
  unfold api. destruct (loose_eq _ _).
  - split; [intros r H; inversion H; now left | intros e H; discriminate H].
  - destruct (dispatch env fs req) as [[fields | e0] fs0] eqn:D.
    + split; [intros r H; inversion H; now left | intros e H; discriminate H].
    + apply dispatch_throw in D.
      destruct e0 as [msg | msg | msg | msg | msg].
      * split; [ | intros e H; discriminate H].
        intros r H. inversion H; subst. right. exists msg. split; [reflexivity | ].
        destruct D as [-> | (dbPath & msg' & Hk & A & _)]; [split; auto | ].
        split; [right; eauto | ].
        exact (proj1 (after_failure_frame A)).
      * split; [intros r H; discriminate H | ]. intros e H. inversion H; subst.
        destruct D as [-> | (_ & ? & _ & _ & E)]; [ | discriminate E].
        split; [reflexivity | discriminate].
      * split; [intros r H; discriminate H | ]. intros e H. inversion H; subst.
        destruct D as [-> | (_ & ? & _ & _ & E)]; [ | discriminate E].
        split; [reflexivity | discriminate].
      * split; [intros r H; discriminate H | ]. intros e H. inversion H; subst.
        destruct D as [-> | (_ & ? & _ & _ & E)]; [ | discriminate E].
        split; [reflexivity | discriminate].
      * split; [intros r H; discriminate H | ]. intros e H. inversion H; subst.
        destruct D as [-> | (_ & ? & _ & _ & E)]; [ | discriminate E].
        split; [reflexivity | discriminate].
Qed.

(** A body that is no JSON array or object stands for the empty array:
    [find] then returns the whole collection, [insert] stores a
    document that has nothing but its generated [_id], and [delete]
    removes every document.  What [insert] stores is what [json_encode]
    makes of the table with that document appended; where nothing can
    be appended, the largest index being the last there is,
    [insert] fails with an error the script does not catch (PHP 8), or
    answers with the document although it stored the table as it was
    (before PHP 8). *)
Theorem body_defaults_to_empty
        (env : environment) (fs : filesystem) (req : request)
        (dbPath c path : string) :
  method req <> "OPTIONS" ->
  core_present env = true ->
  construct (baseDir env) (separator env) (os env) (Some "db") = Ok dbPath ->
  collection req = Some c ->
  empty (VString c) = false ->
  getFilePath dbPath c = Ok path ->
  writable fs path = true ->
  no_table (input req) = true ->
  let generated := [(KStr "_id", VString ("doc_" ++ entropy env))] in
  (action req = Some "find" ->
   api env fs req = (Ok (echo (success [(KStr "data", VArray (table_of fs path))])), fs))
  /\ (action req = Some "insert" ->
      forall data',
        array_push (table_of fs path) (VArray generated) = Some data' ->
        exists fs',
          api env fs req = (Ok (echo (success [(KStr "data", VArray generated)])), fs')
          /\ stored fs' path = Some (written (json_encode (VArray data')))
          /\ array_values data'
             = (array_values (table_of fs path) ++ [VArray generated])%list)
  /\ (action req = Some "insert" ->
      array_push (table_of fs path) (VArray generated) = None ->
      (php8 = true ->
       api env fs req
       = (Throw (Fatal "Cannot add element to the array as the next element is already occupied"),
          fs))
      /\ (php8 = false ->
          exists fs',
            api env fs req = (Ok (echo (success [(KStr "data", VArray generated)])), fs')
            /\ stored fs' path
               = Some (written (json_encode (VArray (table_of fs path))))))
  /\ (action req = Some "delete" ->
      exists fs',
        api env fs req
        = (Ok (echo (success [(KStr "deleted", VLong (count (table_of fs path)))])), fs')
        /\ readCollection dbPath fs' c = Ok []).
Proof.
  intros Hm Hc Hk Hcol He Hp Hw Hb generated.
  assert (Hi : match decode_content (input req) with VArray i => i | _ => [] end = [])
    by now apply no_table_decodes_empty.
  unfold api. rewrite (not_options req Hm).
  rewrite (dispatch_known env fs req Hc Hk). rewrite Hcol, Hi.
  split; [ | split; [ | split]]; intros ->; cbn [String.eqb Ascii.eqb Bool.eqb]; rewrite ?He.
  - now rewrite (find_all dbPath fs c Hp).
  - intros data' Ha.
    destruct (insert_spec dbPath fs c [] (entropy env) Hp Hw Ha) as (fs' & Hins & _ & Hst).
    exists fs'. rewrite Hins. split; [reflexivity | ]. split; [exact Hst | ].
    now apply values_push.
  - intros Ha. rewrite (insert_full dbPath fs c [] (entropy env) Hp Ha). split.
    + intros ->. reflexivity.
    + intros ->.
      destruct (writeCollection_ok dbPath fs c (table_of fs path) Hp Hw)
        as (fs' & Hwr & _ & Hst & _).
      exists fs'. rewrite Hwr. split; [reflexivity | exact Hst].
  - destruct (delete_all_then_find dbPath fs c Hp Hw) as (fs' & Hdel & Hfind).
    exists fs'. rewrite Hdel. split; [reflexivity | ].
    rewrite (find_all dbPath fs' c Hp) in Hfind.
    rewrite (readCollection_table dbPath fs' c Hp). exact Hfind.
Qed.

(** ** What a request body can make of the table *)


Lemma encodable_entry_deeper (d d' : nat) (e : key * zval) :
  (d <= d')%nat -> encodable_entry d e = true -> encodable_entry d' e = true.
Proof.
  unfold encodable_entry. intros L H.
  apply andb_prop in H as [H Hd]. rewrite H. cbn.
  apply Nat.leb_le in Hd. apply Nat.leb_le. lia.
Qed.






(** The collection name is checked by three actions only.  With no name,
    the empty name or "0", [create], [insert] and [find] answer
    "Collection name required", while [update], [delete] and [drop] go
    on to the store and answer "Invalid collection name".  An action
    that is none of the nine is refused by name, and no action at all
    is a ping. *)
Theorem api_refusals
        (env : environment) (fs : filesystem) (req : request) (dbPath : string) :
  method req <> "OPTIONS" ->
  core_present env = true ->
  construct (baseDir env) (separator env) (os env) (Some "db") = Ok dbPath ->
  let c := match collection req with Some c => c | None => "" end in
  let a := match action req with Some a => a | None => "ping" end in
  (c = "" \/ c = "0" ->
   (In a ["create"; "insert"; "find"] ->
    api env fs req = (Ok (send_api_error_response "Collection name required"), fs))
   /\ (In a ["update"; "delete"; "drop"] ->
       api env fs req = (Ok (send_api_error_response "Invalid collection name"), fs)))
  /\ (~ In a ["ping"; "upload"; "list"; "create"; "insert"; "find"; "update"; "delete";
              "drop"] ->
      api env fs req = (Ok (send_api_error_response ("Invalid action: " ++ a)), fs))
  /\ (action req = None ->
      api env fs req
      = (Ok (echo (success [(KStr "message", VString "API is online");
                            (KStr "php", VString (PHP_VERSION env))])), fs)).
Proof.
  intros Hm Hc Hk c a.
  unfold api. rewrite (not_options req Hm).
  rewrite (dispatch_known env fs req Hc Hk). fold c a.
  split; [ | split].
  - intros Hcn.
    assert (He : empty (VString c) = true) by (destruct Hcn as [-> | ->]; reflexivity).
    assert (Hg : getFilePath dbPath c = Throw (Exception "Invalid collection name"))
      by (destruct Hcn as [-> | ->]; reflexivity).
    split; intros Hin; cbn in Hin.
    + destruct Hin as [<- | [<- | [<- | []]]]; cbn [String.eqb Ascii.eqb Bool.eqb];
        rewrite He; reflexivity.
    + destruct Hin as [<- | [<- | [<- | []]]]; cbn [String.eqb Ascii.eqb Bool.eqb].
      * unfold update, readCollection. rewrite Hg. reflexivity.
      * unfold delete, readCollection. rewrite Hg. reflexivity.
      * unfold drop. rewrite Hg. reflexivity.
  - intros Hn. cbn in Hn.
    repeat match goal with
           | |- context [String.eqb a ?s] =>
               let E := fresh in
               destruct (String.eqb_spec a s) as [E | E];
               [exfalso; apply Hn; rewrite E; tauto | ]
           end.
    reflexivity.
  - intros Hnone. unfold a. rewrite Hnone. reflexivity.
Qed.

End Handler.

Lemma api_error_effect_witness :
  let req := Fixtures.post "drop" None (Garbage "") in
  let r := @send_api_error_response Reference.php5 "Invalid collection name" in
  let eve := Fixtures.post "insert" (Some "users")
                           (Text (JObject [("name", JString "Eve")])) in
  @api Reference.php5 Fixtures.server Fixtures.served_disk req
  = (Ok r, Fixtures.served_disk)
  /\ status r = 500
  /\ fst (@api Reference.php5 Fixtures.server Fixtures.served_full_disk eve)
     = Ok (@send_api_error_response Reference.php5
             ("Failed to write to data store: "
              ++ "file_put_contents(): Only 0 of 262 bytes written, "
              ++ "possibly out of free disk space"))
  /\ stored (snd (@api Reference.php5 Fixtures.server Fixtures.served_full_disk eve))
            "/srv/www/db/users.json" = Some (Garbage "").
Proof.
  intros req r eve. split; [ | repeat split].
  destruct (@api Reference.php5 Fixtures.server Fixtures.served_disk req)
    as [a fs'] eqn:E.
  assert (Ha : a = Ok r) by (apply (f_equal fst) in E; exact (eq_sym E)).
  subst a.
  destruct (proj1 (@api_error_effect Reference.php5 Fixtures.server
                     Fixtures.served_disk fs' req) r E)
    as [H | (msg & _ & _ & Hsame)]; [discriminate H | ].
  rewrite (Hsame (fun _ => eq_refl)). reflexivity.
Defined.

Lemma body_defaults_to_empty_witness :
  exists fs',
    @api Reference.php5 Fixtures.server Fixtures.served_disk
         (Fixtures.post "delete" (Some "users") (Garbage "not json"))
    = (Ok (@echo Reference.php5 (success [(KStr "deleted", VLong 2)])), fs')
    /\ readCollection "/srv/www/db/" fs' "users" = Ok [].
Proof.
  exact (proj2 (proj2 (proj2 (@body_defaults_to_empty Reference.php5 Fixtures.server
                         Fixtures.served_disk
                         (Fixtures.post "delete" (Some "users") (Garbage "not json"))
                         "/srv/www/db/" "users" "/srv/www/db/users.json"
                         ltac:(discriminate) eq_refl eq_refl eq_refl eq_refl eq_refl
                         eq_refl eq_refl)))
               eq_refl).
Defined.


Lemma api_refusals_witness :
  @api Reference.php5 Fixtures.server Fixtures.served_disk
       (Fixtures.post "find" (Some "0") (Garbage ""))
  = (Ok (@send_api_error_response Reference.php5 "Collection name required"),
     Fixtures.served_disk)
  /\ @api Reference.php5 Fixtures.server Fixtures.served_disk
          (Fixtures.post "delete" (Some "0") (Garbage ""))
     = (Ok (@send_api_error_response Reference.php5 "Invalid collection name"),
        Fixtures.served_disk)
  /\ @api Reference.php5 Fixtures.server Fixtures.served_disk
          (Fixtures.post "Ping" None (Garbage ""))
     = (Ok (@send_api_error_response Reference.php5 "Invalid action: Ping"),
        Fixtures.served_disk).
Proof.
  split; [ | split].
  - apply (proj1 (proj1 (@api_refusals Reference.php5 Fixtures.server Fixtures.served_disk
                           (Fixtures.post "find" (Some "0") (Garbage ""))
                           "/srv/www/db/" ltac:(discriminate) eq_refl eq_refl)
                        (or_intror eq_refl))).
    cbn. tauto.
  - apply (proj2 (proj1 (@api_refusals Reference.php5 Fixtures.server Fixtures.served_disk
                           (Fixtures.post "delete" (Some "0") (Garbage ""))
                           "/srv/www/db/" ltac:(discriminate) eq_refl eq_refl)
                        (or_intror eq_refl))).
    cbn. tauto.
  - apply (proj1 (proj2 (@api_refusals Reference.php5 Fixtures.server Fixtures.served_disk
                           (Fixtures.post "Ping" None (Garbage ""))
                           "/srv/www/db/" ltac:(discriminate) eq_refl eq_refl))).
    cbn. intros H.
    repeat (destruct H as [H | H]; [discriminate H | ]). exact H.
Defined.

End ApiFacts.

(* ================================================================== *)
(** * The simulator's collections *)

Module SimulatorCollectionsFacts.

Import DbSimulator Spec SimulatorCollections Notions SimulatorFacts.

Lemma names_set_documents (cs : list Collection) (n : string) (docs : list Document) :
  map name (set_documents cs n docs) = map name cs.
Proof.
  induction cs as [ | c r IH]; cbn; [reflexivity | ].
  destruct (String.eqb (name c) n); cbn; [reflexivity | now rewrite IH].
Qed.

Lemma names_filter (q : string -> bool) (cs : list Collection) :
  map name (filter (fun c => q (name c)) cs) = filter q (map name cs).
Proof.
  induction cs as [ | c r IH]; cbn; [reflexivity | ].
  destruct (q (name c)); cbn; now rewrite IH.
Qed.

Lemma find_set_documents_other (cs : list Collection) (n m : string)
      (docs : list Document) :
  m <> n ->
  find_collection (set_documents cs n docs) m = find_collection cs m.
Proof.
  intros Hm. induction cs as [ | c r IH]; cbn; [reflexivity | ].
  destruct (String.eqb (name c) n) eqn:E; cbn.
  - apply String.eqb_eq in E. rewrite E.
    destruct (String.eqb n m) eqn:F; [ | reflexivity].
    apply String.eqb_eq in F. now elim Hm.
  - destruct (String.eqb (name c) m); [reflexivity | exact IH].
Qed.

Lemma own_set_prop_other (props : list (string * jsval)) (k k' : string) (v : jsval) :
  k' <> k -> own_prop (set_prop props k v) k' = own_prop props k'.
Proof.
  intros Hk. induction props as [ | [k0 v0] r IH]; cbn [own_prop set_prop].
  - destruct (String.eqb k k') eqn:E; [ | reflexivity].
    apply String.eqb_eq in E. now elim Hk.
  - destruct (String.eqb k0 k) eqn:E; cbn [own_prop].
    + destruct (String.eqb k0 k') eqn:F; [ | reflexivity].
      apply String.eqb_eq in E, F. subst. now elim Hk.
    + destruct (String.eqb k0 k'); [reflexivity | exact IH].
Qed.

Lemma get_set_prop_other (props : list (string * jsval)) (k k' : string) (v : jsval) :
  k' <> k -> get_prop (set_prop props k v) k' = get_prop props k'.
Proof. intros Hk. unfold get_prop. now rewrite own_set_prop_other. Qed.

(** ** [save] *)

(** A method that gives [save] a state of its own making. *)
Lemma saved_state_outcome {A : Type} (s : simulator) (st : DatabaseState) (next : loc)
      (a : A) :
  saved_or_refused s (save_and_return (with_state s st next) a).
Proof.
  unfold saved_or_refused.
  destruct (save_and_return_cases (with_state s st next) a)
    as (r & s' & -> & Hst & _ & _ & [(F & -> & Hs) | (F & -> & ->)]); cbn [fst snd].
  - intros _. unfold synced. now rewrite Hs, Hst.
  - cbn [with_state storage state fits] in *. auto.
Qed.

Lemma save_state_outcome (s : simulator) (st : DatabaseState) (next : loc) :
  saved_or_refused s (save (with_state s st next)).
Proof.
  pose proof (saved_state_outcome s st next tt) as H.
  unfold save_and_return in H.
  destruct (save (with_state s st next)) as [[[] | e] s']; exact H.
Qed.

Lemma unchanged_outcome {A : Type} (s : simulator) (a : A) :
  saved_or_refused s (Ok a, s).
Proof. unfold saved_or_refused. cbn. auto. Qed.

(** Every method that changes the state saves it.  A call that returns
    has left in [localStorage] the text [JSON.stringify] makes of the
    new state, provided it held the text of the state before, and after
    [deleteCollection] in any case.  A call whose text [setItem]
    refuses throws a [QuotaExceededError] with the state already
    changed and [localStorage] as it was, so that the two differ from
    then on.  A call that throws anything else has changed nothing. *)
Theorem simulator_storage_follows_state
        {rt : js_runtime} (s : simulator) (n : string) (doc query : jsval)
        (random : string) (now : Q) :
  saved_or_refused s (createCollection s n now)
  /\ saved_or_refused s (deleteCollection s n)
  /\ (fst (deleteCollection s n) = Ok tt -> synced (snd (deleteCollection s n)))
  /\ saved_or_refused s (insert s n doc random)
  /\ saved_or_refused s (delete s n query).
Proof.
  split; [ | split; [ | split; [ | split]]].
  - unfold createCollection. destruct (find_collection _ n);
      [apply unchanged_outcome | apply save_state_outcome].
  - apply save_state_outcome.
  - unfold deleteCollection, save.
    destruct (fits _ _); cbn [fst snd]; [reflexivity | discriminate].
  - unfold insert. destruct (find_collection _ n);
      [apply saved_state_outcome | unfold saved_or_refused; cbn; auto].
  - unfold delete. destruct (find_collection _ n); [ | apply unchanged_outcome].
    destruct (filter_docs negb _ query) as [kept | e].
    + apply saved_state_outcome.
    + unfold saved_or_refused. cbn [fst snd]. auto.
Qed.

(** ** The constructor *)

(** Seeding does not look at what [localStorage] held. *)
Lemma seeding_ignores_storage
      (l : loc) (seed : seeding) (room : jtext -> bool) (held held' : option jtext)
      (k : simulator -> result simulator) :
  and_then (createCollection {| state := {| collections := [] |}; storage := held;
                                next_loc := l; fits := room |}
                             "users" (users_now seed)) k
  = and_then (createCollection {| state := {| collections := [] |}; storage := held';
                                  next_loc := l; fits := room |}
                               "users" (users_now seed)) k.
Proof.
  unfold createCollection, save. cbn [find_collection collections state with_state fits].
  destruct (room _); reflexivity.
Qed.

(** The constructor seeds two collections when nothing is saved, and
    again when the saved state has no collection left; a saved state
    with a collection is taken as it is.  Seeding saves five times:
    the constructor returns the seeded simulator, or throws the
    [QuotaExceededError] of a [setItem] that refused a text. *)
Theorem constructor_seeds_when_empty
        (l : loc) (seed : seeding) (st : DatabaseState) (text : jtext)
        (room : jtext -> bool) :
  let id r := ("_id", JsString ("doc_" ++ r)) in
  let seeded :=
    {| collections :=
         [ {| name := "users";
              documents :=
                [ {| doc_loc := l;
                     doc_props := (enumerate seed_john ++ [id (random1 seed)])%list |};
                  {| doc_loc := S l;
                     doc_props := (enumerate seed_jane ++ [id (random2 seed)])%list |} ];
              createdAt := users_now seed |};
           {| name := "products";
              documents :=
                [ {| doc_loc := S (S l);
                     doc_props := (enumerate seed_laptop ++ [id (random3 seed)])%list |} ];
              createdAt := products_now seed |} ] |} in
  let seeded_simulator :=
    {| state := seeded; storage := Some (stringify_state seeded);
       next_loc := S (S (S l)); fits := room |} in
  (construct NoItem l seed room = Ok seeded_simulator
   \/ construct NoItem l seed room
      = Throw (QuotaExceededError "Setting the value exceeded the quota"))
  /\ ((forall t, room t = true) -> construct NoItem l seed room = Ok seeded_simulator)
  /\ construct (Saved text {| collections := [] |}) l seed room
     = construct NoItem l seed room
  /\ (collections st <> [] ->
      construct (Saved text st) l seed room
      = Ok {| state := st; storage := Some text; next_loc := l; fits := room |}).
Proof.
  intros id seeded seeded_simulator.
  assert (Hcases :
            construct NoItem l seed room = Ok seeded_simulator
            \/ (construct NoItem l seed room
                = Throw (QuotaExceededError "Setting the value exceeded the quota")
                /\ exists t, room t = false)).
  { remember (construct NoItem l seed room) as run eqn:E. revert E.
    unfold construct, and_then, createCollection, insert, save_and_return, save.
    cbn [collections List.length Nat.eqb find_collection state with_state fits
         next_loc name String.eqb Ascii.eqb Bool.eqb set_documents app documents
         createdAt].
    repeat match goal with
           | |- context [room ?t] =>
               destruct (room t) eqn:?;
               [ | intros ->; right; split; [reflexivity | eauto]];
               cbn [collections List.length Nat.eqb find_collection state with_state fits
                    next_loc name String.eqb Ascii.eqb Bool.eqb set_documents app
                    documents createdAt]
           end.
    intros ->. left. reflexivity. }
  split; [destruct Hcases as [H | [H _]]; auto | ].
  split.
  { intros Hall. destruct Hcases as [H | [_ [t Ht]]]; [exact H | ].
    rewrite Hall in Ht. discriminate Ht. }
  split.
  - unfold construct. cbn [collections List.length Nat.eqb].
    apply seeding_ignores_storage.
  - intros Hne. unfold construct.
    destruct st as [[ | c r]]; [now elim Hne | reflexivity].
Qed.

(** [createCollection] with a name that is taken changes nothing, so a
    second call with the same name does nothing; the documents of every
    collection stay, and the name is there afterwards -- also when the
    call threw because [localStorage] refused the new state. *)
Theorem simulator_createCollection_idempotent
        (s : simulator) (n m : string) (now later : Q) :
  (find_collection (collections (state s)) n <> None ->
   createCollection s n now = (Ok tt, s))
  /\ createCollection (snd (createCollection s n now)) n later
     = (Ok tt, snd (createCollection s n now))
  /\ documents_of (snd (createCollection s n now)) m = documents_of s m
  /\ find_collection (collections (state (snd (createCollection s n now)))) n <> None
  /\ (fst (createCollection s n now) = Ok tt
      \/ fst (createCollection s n now)
         = Throw (QuotaExceededError "Setting the value exceeded the quota")).
Proof.
  assert (Hstate :
            find_collection (collections (state s)) n = None ->
            state (snd (createCollection s n now))
            = {| collections :=
                   (collections (state s)
                    ++ [ {| name := n; documents := []; createdAt := now |} ])%list |}).
  { intros E. unfold createCollection, save. rewrite E.
    destruct (fits _ _); reflexivity. }
  assert (Hthere :
            find_collection (collections (state (snd (createCollection s n now)))) n
            <> None).
  { destruct (find_collection (collections (state s)) n) eqn:E.
    - unfold createCollection. rewrite E. cbn [snd]. rewrite E. discriminate.
    - rewrite (Hstate eq_refl). cbn [collections].
      rewrite find_collection_snoc, E. cbn. rewrite String.eqb_refl. discriminate. }
  split; [ | split; [ | split; [ | split; [exact Hthere | ]]]].
  - clear Hthere. intros H. unfold createCollection.
    destruct (find_collection (collections (state s)) n); [reflexivity | now elim H].
  - unfold createCollection at 1.
    destruct (find_collection (collections (state (snd (createCollection s n now)))) n);
      [reflexivity | now elim Hthere].
  - unfold documents_of.
    destruct (find_collection (collections (state s)) n) eqn:E.
    + unfold createCollection. now rewrite E.
    + rewrite (Hstate eq_refl). cbn [collections]. rewrite find_collection_snoc.
      destruct (find_collection (collections (state s)) m); [reflexivity | ].
      cbn. now destruct (String.eqb n m).
  - unfold createCollection, save.
    destruct (find_collection (collections (state s)) n); [now left | ].
    destruct (fits _ _); [now left | now right].
Qed.

Lemma deleteCollection_state (s : simulator) (n : string) :
  state (snd (deleteCollection s n))
  = {| collections := filter (fun c => negb (String.eqb (name c) n))
                             (collections (state s)) |}.
Proof. unfold deleteCollection, save. destruct (fits _ _); reflexivity. Qed.

(** After [deleteCollection] the name is gone, also when several
    collections carried it: [find] returns nothing, [delete] counts
    nothing, [insert] throws, and any other collection is as before.
    This holds whether [deleteCollection] returned or threw on saving. *)
Theorem simulator_deleteCollection_forgets
        {rt : js_runtime} (s : simulator) (n m : string) (doc query : jsval)
        (random : string) :
  let s' := snd (deleteCollection s n) in
  find s' n query = Ok []
  /\ delete s' n query = (Ok 0, s')
  /\ insert s' n doc random = (Throw (Exception "Collection not found"), s')
  /\ (m <> n ->
      find_collection (collections (state s')) m
      = find_collection (collections (state s)) m)
  /\ (fst (deleteCollection s n) = Ok tt
      \/ fst (deleteCollection s n)
         = Throw (QuotaExceededError "Setting the value exceeded the quota")).
Proof.
  intros s'.
  assert (Hgone : find_collection (collections (state s')) n = None).
  { unfold s'. rewrite deleteCollection_state. cbn. rewrite find_collection_filter.
    now rewrite String.eqb_refl. }
  split; [now apply sim_find_missing | ].
  split; [now apply sim_delete_missing | ].
  split; [now apply sim_insert_missing | ].
  split.
  - intros Hm. unfold s'. rewrite deleteCollection_state. cbn.
    rewrite find_collection_filter.
    destruct (String.eqb m n) eqn:E; [ | reflexivity].
    apply String.eqb_eq in E. now elim Hm.
  - unfold deleteCollection, save. destruct (fits _ _); [now left | now right].
Qed.

(** Collections with one name each keep that property under every
    method of the simulator, however the call ends. *)
Theorem simulator_names_stay_unique
        {rt : js_runtime} (s : simulator) (n : string) (doc query : jsval)
        (random : string) (now : Q) :
  unique_names s = true ->
  unique_names (snd (createCollection s n now)) = true
  /\ unique_names (snd (deleteCollection s n)) = true
  /\ unique_names (snd (insert s n doc random)) = true
  /\ unique_names (snd (delete s n query)) = true.
Proof.
  unfold unique_names. intros Hu. split; [ | split; [ | split]].
  - unfold createCollection.
    destruct (find_collection (collections (state s)) n) eqn:E; [exact Hu | ].
    unfold save. destruct (fits _ _); cbn; rewrite map_app; cbn;
      (apply distinct_snoc; [exact Hu | now apply find_collection_none]).
  - rewrite deleteCollection_state. cbn.
    rewrite (names_filter (fun m => negb (String.eqb m n))).
    now apply distinct_filter.
  - unfold insert. destruct (find_collection _ n); [ | exact Hu].
    unfold save_and_return, save. destruct (fits _ _); cbn; now rewrite names_set_documents.
  - unfold delete. destruct (find_collection _ n); [ | exact Hu].
    destruct (filter_docs negb _ query); [ | exact Hu].
    unfold save_and_return, save. destruct (fits _ _); cbn; now rewrite names_set_documents.
Qed.

Section Queries.

Context {rt : js_runtime}.

(** [find] returns the documents that match, in stored order; a query
    without keys (the default [{}], a number, a boolean) selects all. *)
Theorem simulator_find_selects_in_order
        (s : simulator) (n : string) (query : jsval) :
  query <> JsNull ->
  Forall (fun d => returns (match_ d query)) (documents_of s n) ->
  find s n query = Ok (filter (jsatisfies query) (documents_of s n))
  /\ (enumerate query = [] -> find s n query = Ok (documents_of s n)).
Proof.
  intros Hq Hm.
  assert (Hall : enumerate query = [] ->
                 filter (jsatisfies query) (documents_of s n) = documents_of s n).
  { intros He. apply filter_all. intros d _. unfold jsatisfies, match_.
    now rewrite He. }
  assert (Hfind : find s n query = Ok (filter (jsatisfies query) (documents_of s n))).
  { unfold find, documents_of in *.
    destruct (find_collection (collections (state s)) n) as [coll | ] eqn:E.
    - destruct query; try (now elim Hq);
        try (cbn; symmetry; f_equal; apply filter_all; intros d _; reflexivity).
      + destruct (enumerate (JsString s0)) eqn:Es.
        * cbn [List.length Nat.eqb]. rewrite Hall by reflexivity. reflexivity.
        * cbn [List.length Nat.eqb].
          now rewrite filter_docs_filter by exact Hm.
      + destruct (enumerate (JsArray l items)) eqn:Es.
        * cbn [List.length Nat.eqb]. rewrite Hall by reflexivity. reflexivity.
        * cbn [List.length Nat.eqb].
          now rewrite filter_docs_filter by exact Hm.
      + destruct (enumerate (JsObject l props)) eqn:Es.
        * cbn [List.length Nat.eqb]. rewrite Hall by reflexivity. reflexivity.
        * cbn [List.length Nat.eqb].
          now rewrite filter_docs_filter by exact Hm.
    - destruct query; reflexivity. }
  split; [exact Hfind | ]. intros He. rewrite Hfind. now rewrite Hall.
Qed.

(** A query that is [null]: [find] throws on a collection that exists,
    while [delete], which never asks for the keys, removes every
    document; [undefined] for [delete] does the same.  [delete] returns
    the count unless [localStorage] refuses the emptied state, the one
    case in which it throws, the documents being removed all the
    same. *)
Theorem simulator_null_query
        (s : simulator) (n : string) (coll : Collection) (query : jsval) :
  find_collection (collections (state s)) n = Some coll ->
  query = JsNull \/ query = JsUndefined ->
  find s n JsNull = Throw (TypeError "Cannot convert undefined or null to object")
  /\ exists r s',
      delete s n query = (r, s')
      /\ documents_of s' n = []
      /\ (r = Ok (Z.of_nat (List.length (documents coll)))
          \/ r = Throw (QuotaExceededError "Setting the value exceeded the quota"))
      /\ (fits s (stringify_state (state s')) = true ->
          r = Ok (Z.of_nat (List.length (documents coll)))).
Proof.
  intros Hf Hq. split; [unfold find; now rewrite Hf | ].
  assert (Hm : Forall (fun d => returns (match_ d query)) (documents coll)).
  { apply Forall_forall. intros d _. exists true. destruct Hq as [-> | ->]; reflexivity. }
  destruct (sim_delete_spec s n query Hf Hm) as (r & s' & Hdel & Hdocs & _ & Hcases).
  rewrite filter_none in Hdocs, Hcases
    by (intros d _; destruct Hq as [-> | ->]; reflexivity).
  cbn [List.length Z.of_nat] in Hcases. rewrite Z.sub_0_r in Hcases.
  exists r, s'. split; [exact Hdel | ]. split; [exact Hdocs | ].
  split; [destruct Hcases as [(_ & -> & _) | (_ & -> & _)]; auto | ].
  intros F. destruct Hcases as [(_ & -> & _) | (F' & _)]; [reflexivity | congruence].
Qed.

(** A document that was inserted is found by its generated [_id], and
    alone when no stored document had that [_id]; its other fields are
    those that were handed in.  [insert] returns that document unless
    [localStorage] refuses the new state, the one case in which it
    throws, the document being in the collection all the same. *)
Theorem simulator_insert_then_find_by_id
        (s : simulator) (n : string) (doc : jsval) (random : string)
        (coll : Collection) (l : loc) (k : string) :
  find_collection (collections (state s)) n = Some coll ->
  junused_id ("doc_" ++ random) (documents coll) = true ->
  exists d r s',
    insert s n doc random = (r, s')
    /\ (r = Ok d
        \/ r = Throw (QuotaExceededError "Setting the value exceeded the quota"))
    /\ (fits s (stringify_state (state s')) = true -> r = Ok d)
    /\ find s' n (JsObject l [("_id", JsString ("doc_" ++ random))]) = Ok [d]
    /\ (k <> "_id" -> get_prop (doc_props d) k = get_prop (enumerate doc) k).
Proof.
  intros Hf Hfresh.
  destruct (sim_insert_spec s n doc random Hf)
    as (r & s' & Hins & Hid & Hdocs & _ & _ & Hcases).
  set (d := {| doc_loc := next_loc s;
               doc_props := set_prop (enumerate doc) "_id" (JsString ("doc_" ++ random)) |})
    in *.
  exists d, r, s'. split; [exact Hins | ].
  split; [destruct Hcases as [(_ & -> & _) | (_ & -> & _)]; auto | ].
  split.
  { intros F. destruct Hcases as [(_ & -> & _) | (F' & _)]; [reflexivity | congruence]. }
  split.
  - set (query := JsObject l [("_id", JsString ("doc_" ++ random))]).
    assert (Hsat : forall d', jsatisfies query d'
                              = strict_equal (jid_of d') (JsString ("doc_" ++ random))).
    { intros d'. unfold jsatisfies, query.
      now rewrite sim_match_plain_criteria by reflexivity. }
    assert (Hm : Forall (fun d' => returns (match_ d' query)) (documents coll ++ [d])%list).
    { apply Forall_forall. intros d' _. unfold query.
      rewrite sim_match_plain_criteria by reflexivity. eexists. reflexivity. }
    unfold documents_of in Hdocs. unfold find.
    destruct (find_collection (collections (state s')) n) as [coll' | ] eqn:Hf';
      [ | now destruct (documents coll)].
    rewrite Hdocs. cbn [query enumerate List.length Nat.eqb].
    fold query. rewrite filter_docs_filter by exact Hm.
    rewrite filter_app. cbn [filter].
    rewrite (Hsat d), Hid. cbn [strict_equal]. rewrite String.eqb_refl.
    rewrite filter_none; [reflexivity | ].
    intros d' Hin. rewrite Hsat.
    unfold junused_id in Hfresh. rewrite forallb_forall in Hfresh.
    apply negb_true_iff. now apply Hfresh.
  - intros Hk. unfold d. cbn [doc_props]. now apply get_set_prop_other.
Qed.

End Queries.

Lemma simulator_storage_follows_state_witness :
  let out := insert Fixtures.full_browser "users" seed_laptop "a1s2d3f4g" in
  synced Fixtures.saved_browser
  /\ synced (snd (createCollection Fixtures.saved_browser "posts" 0))
  /\ synced (snd (insert Fixtures.saved_browser "users" seed_laptop "a1s2d3f4g"))
  /\ fst out = Throw (QuotaExceededError "Setting the value exceeded the quota")
  /\ storage (snd out) = storage Fixtures.full_browser
  /\ List.length (documents_of (snd out) "users") = 3%nat
  /\ List.length (documents_of Fixtures.full_browser "users") = 2%nat
  /\ stringify_document {| doc_loc := 9;
                           doc_props := [("a", JsUndefined); ("b", JsNumber 1)] |}
     = TObject [("b", TNumber 1)].
Proof.
  intros out.
  assert (Hs : synced Fixtures.saved_browser) by reflexivity.
  destruct (@simulator_storage_follows_state Reference.js Fixtures.saved_browser
              "posts" seed_laptop JsUndefined "a1s2d3f4g" 0) as (Hc & _).
  destruct (@simulator_storage_follows_state Reference.js Fixtures.saved_browser
              "users" seed_laptop JsUndefined "a1s2d3f4g" 0) as (_ & _ & _ & Hi & _).
  destruct (@simulator_storage_follows_state Reference.js Fixtures.full_browser
              "users" seed_laptop JsUndefined "a1s2d3f4g" 0) as (_ & _ & _ & Hf & _).
  split; [exact Hs | ]. split; [exact (Hc Hs) | ]. split; [exact (Hi Hs) | ].
  split; [reflexivity | ]. split; [exact (proj1 Hf) | ]. repeat split.
Defined.

Lemma constructor_seeds_when_empty_witness :
  construct (Saved (stringify_state (state Sample.browser)) (state Sample.browser))
            3 Fixtures.first_visit (fun _ => true)
  = Ok {| state := state Sample.browser;
          storage := Some (stringify_state (state Sample.browser));
          next_loc := 3;
          fits := fun _ => true |}.
Proof.
  apply (proj2 (proj2 (proj2 (constructor_seeds_when_empty 3 Fixtures.first_visit
                                (state Sample.browser)
                                (stringify_state (state Sample.browser))
                                (fun _ => true))))).
  discriminate.
Defined.

Lemma simulator_createCollection_idempotent_witness :
  createCollection Sample.browser "users" 5 = (Ok tt, Sample.browser).
Proof.
  apply (proj1 (simulator_createCollection_idempotent Sample.browser "users" "users" 5 6)).
  discriminate.
Defined.

Lemma simulator_deleteCollection_forgets_witness :
  find_collection
    (collections (state (snd (deleteCollection Sample.browser "products")))) "users"
  = find_collection (collections (state Sample.browser)) "users".
Proof.
  apply (proj1 (proj2 (proj2 (proj2 (@simulator_deleteCollection_forgets Reference.js
                                Sample.browser "products" "users"
                                JsUndefined JsUndefined ""))))).
  discriminate.
Defined.

Lemma simulator_names_stay_unique_witness :
  unique_names (snd (createCollection Sample.browser "posts" 0)) = true
  /\ unique_names (snd (deleteCollection Sample.browser "users")) = true.
Proof.
  assert (Hu : unique_names Sample.browser = true) by reflexivity.
  destruct (@simulator_names_stay_unique Reference.js Sample.browser "posts"
              JsUndefined JsUndefined "" 0 Hu) as (Hc & _).
  destruct (@simulator_names_stay_unique Reference.js Sample.browser "users"
              JsUndefined JsUndefined "" 0 Hu) as (_ & Hd & _).
  split; [exact Hc | exact Hd].
Defined.

Lemma simulator_find_selects_in_order_witness :
  @find Reference.js Sample.browser "users" (jclause 8 9 "age" "$gt" (JsNumber 26))
  = Ok [Sample.jjohn].
Proof.
  assert (Hq : jclause 8 9 "age" "$gt" (JsNumber 26) <> JsNull) by discriminate.
  assert (Hm : Forall (fun d => returns (@match_ Reference.js d
                                           (jclause 8 9 "age" "$gt" (JsNumber 26))))
                      (documents_of Sample.browser "users"))
    by (apply Forall_returns; reflexivity).
  exact (proj1 (@simulator_find_selects_in_order Reference.js Sample.browser "users"
                  (jclause 8 9 "age" "$gt" (JsNumber 26)) Hq Hm)).
Defined.

Lemma simulator_null_query_witness :
  @find Reference.js Sample.browser "users" JsNull
  = Throw (TypeError "Cannot convert undefined or null to object")
  /\ exists s',
      @delete Reference.js Sample.browser "users" JsNull = (Ok 2, s')
      /\ documents_of s' "users" = [].
Proof.
  destruct (@simulator_null_query Reference.js Sample.browser "users"
              {| name := "users"; documents := [Sample.jjohn; Sample.jjane];
                 createdAt := 0 |}
              JsNull eq_refl (or_introl eq_refl))
    as (Hfind & r & s' & Hdel & Hdocs & _ & Hfits).
  split; [exact Hfind | ]. exists s'. split; [ | exact Hdocs].
  rewrite Hdel. f_equal. now apply Hfits.
Defined.

Lemma simulator_insert_then_find_by_id_witness :
  exists d s',
    insert Sample.browser "users" seed_laptop "a1s2d3f4g" = (Ok d, s')
    /\ @find Reference.js s' "users" (JsObject 8 [("_id", JsString "doc_a1s2d3f4g")])
       = Ok [d].
Proof.
  destruct (@simulator_insert_then_find_by_id Reference.js Sample.browser "users"
              seed_laptop "a1s2d3f4g"
              {| name := "users"; documents := [Sample.jjohn; Sample.jjane];
                 createdAt := 0 |}
              8%nat "name" eq_refl eq_refl) as (d & r & s' & Hi & _ & Hfits & Hf & _).
  exists d, s'. split; [ | exact Hf]. rewrite Hi. f_equal. now apply Hfits.
Defined.

End SimulatorCollectionsFacts.
